(** * plismun: request validation and the application-form schemas

    A shallow embedding of
    - [src/utils/validators/forms.ts]: [SignupSchema], [DelegateApply] and
      [refineDelegateApply];
    - the [validate] middleware (the next-connect request validator);
    - the two places that put them together: the [PUT] route of the
      delegate application and the form validation of the apply page.

    The schemas are written with the zod library.  Its parsing discipline
    (a status, a value, a list of issues) is embedded in [Module Zod] as a
    handful of combinators, one per builder the schemas use.  Numbers are
    integers ([Z]): every number the modelled code compares is a database
    id.  Strings are [string]; [String.length] counts code units. *)

From Stdlib Require Import ZArith List String Bool Lia DecimalString.
Import ListNotations.

#[local] Set Warnings "-register-all".

Open Scope string_scope.
Open Scope list_scope.
Open Scope Z_scope.

(** ** JavaScript values *)

(** The raw material of a request: what [JSON.parse] (or a form state)
    hands to a schema.  A [Date] is its time value, [None] standing for an
    invalid date. *)
Inductive JsValue : Type :=
| VUndefined
| VNull
| VBoolean (b : bool)
| VNumber (n : Z)
| VString (s : string)
| VDate (time : option Z)
| VObject (props : list (string * JsValue)).

(** [obj[key]]: the first binding of [key], [undefined] when there is none. *)
Fixpoint getProp (key : string) (props : list (string * JsValue)) : JsValue :=
  match props with
  | [] => VUndefined
  | (k, v) :: rest => if String.eqb k key then v else getProp key rest
  end.

(** A settled promise; [await] reads its value. *)
Inductive Promise (A : Type) : Type :=
| Resolve (a : A).
Arguments Resolve {A} a.

Definition await {A : Type} (p : Promise A) : A :=
  match p with Resolve a => a end.

(** The outcome of a call that may throw. *)
Inductive Completion (A : Type) : Type :=
| Normal (a : A)
| Throw.
Arguments Normal {A} a.
Arguments Throw {A}.

(** ** The zod parsing discipline *)

Module Zod.

Inductive ZodIssueCode : Type :=
| invalid_type
| custom
| invalid_enum_value
| too_small
| too_big
| invalid_string
| invalid_date
| invalid_union.

(** The text of an issue: the one the schema gives, or the one the
    library's default error map would produce for the code. *)
Inductive IssueMessage : Type :=
| Msg (text : string)
| DefaultMsg.

Record ZodIssue : Type := mkIssue {
  code : ZodIssueCode;
  path : list string;
  message : IssueMessage;
  options : option (list JsValue)
}.

(** [ZodError]: the issues of one failed parse. *)
Definition ZodError : Type := list ZodIssue.

(** [OK], [DIRTY] and [INVALID] of the library: status valid, dirty (a
    value exists but an issue was raised) and aborted (no value). *)
Inductive SyncParseReturn (A : Type) : Type :=
| OK (value : A)
| DIRTY (value : A)
| INVALID.
Arguments OK {A} value.
Arguments DIRTY {A} value.
Arguments INVALID {A}.

(** What a schema returns together with the issues it pushed on the
    shared context. *)
Definition Parse (A : Type) : Type := (SyncParseReturn A * list ZodIssue)%type.

(** A schema: from the path of the value and the value to a parse. *)
Definition ZodType (A : Type) : Type := list string -> JsValue -> Parse A.

Definition isValid {A : Type} (r : SyncParseReturn A) : bool :=
  match r with OK _ => true | _ => false end.

(** status.dirty(): valid becomes dirty, aborted stays. *)
Definition dirty {A : Type} (r : SyncParseReturn A) : SyncParseReturn A :=
  match r with
  | OK v => DIRTY v
  | other => other
  end.

(** *** Checks of [z.string()] and [z.number()] *)

Record Check (A : Type) : Type := mkCheck {
  test : A -> bool;
  check_code : ZodIssueCode;
  check_message : IssueMessage
}.
Arguments mkCheck {A} test check_code check_message.
Arguments test {A} c a.
Arguments check_code {A} c.
Arguments check_message {A} c.

(** Every check runs; each failing one pushes its issue and dirties the
    status. *)
Fixpoint runChecks {A : Type} (checks : list (Check A)) (p : list string) (a : A)
  : Parse A :=
  match checks with
  | [] => (OK a, [])
  | c :: rest =>
      let '(r, iss) := runChecks rest p a in
      if test c a then (r, iss)
      else (dirty r, mkIssue (check_code c) p (check_message c) None :: iss)
  end.

(** [.min(n, message)] and [.max(n, message)] of a string schema. *)
Definition str_min (n : nat) (m : IssueMessage) : Check string :=
  mkCheck (fun s => (n <=? String.length s)%nat) too_small m.
Definition str_max (n : nat) (m : IssueMessage) : Check string :=
  mkCheck (fun s => (String.length s <=? n)%nat) too_big m.
(** [.min(v, message)] of a number schema (inclusive). *)
Definition num_min (v : Z) (m : IssueMessage) : Check Z :=
  mkCheck (fun n => v <=? n) too_small m.

(** The message of an [invalid_type] issue: the default one ("Required")
    when the value is missing, [invalid_type_error] otherwise. *)
Definition typeMessage (invalid_type_error : IssueMessage) (v : JsValue)
  : IssueMessage :=
  match v with
  | VUndefined => DefaultMsg
  | _ => invalid_type_error
  end.

Definition invalidType {A : Type} (invalid_type_error : IssueMessage)
  (p : list string) (v : JsValue) : Parse A :=
  (INVALID, [mkIssue invalid_type p (typeMessage invalid_type_error v) None]).

(** [z.string()] followed by its checks. *)
Definition ZodString (checks : list (Check string)) : ZodType string :=
  fun p v =>
    match v with
    | VString s => runChecks checks p s
    | _ => invalidType DefaultMsg p v
    end.

(** [z.number({ invalid_type_error })] followed by its checks. *)
Definition ZodNumber (invalid_type_error : IssueMessage) (checks : list (Check Z))
  : ZodType Z :=
  fun p v =>
    match v with
    | VNumber n => runChecks checks p n
    | _ => invalidType invalid_type_error p v
    end.

(** [z.date()]: a [Date] whose time value is a number. *)
Definition ZodDate : ZodType (option Z) :=
  fun p v =>
    match v with
    | VDate (Some t) => (OK (Some t), [])
    | VDate None => (INVALID, [mkIssue invalid_date p DefaultMsg None])
    | _ => invalidType DefaultMsg p v
    end.

(** [z.enum([...])]. *)
Definition ZodEnum (values : list string) : ZodType string :=
  fun p v =>
    match v with
    | VString s =>
        if existsb (String.eqb s) values then (OK s, [])
        else (INVALID,
              [mkIssue invalid_enum_value p DefaultMsg
                 (Some (map VString values))])
    | _ => invalidType DefaultMsg p v
    end.

Definition mapReturn {A B : Type} (f : A -> B) (r : SyncParseReturn A)
  : SyncParseReturn B :=
  match r with
  | OK a => OK (f a)
  | DIRTY a => DIRTY (f a)
  | INVALID => INVALID
  end.

(** [.nullable()]: [null] is accepted as it is, anything else goes to the
    inner schema. *)
Definition ZodNullable {A : Type} (inner : ZodType A) : ZodType (option A) :=
  fun p v =>
    match v with
    | VNull => (OK None, [])
    | _ => let '(r, iss) := inner p v in (mapReturn Some r, iss)
    end.

(** [.default(f)]: a missing value is replaced by [f()]. *)
Definition ZodDefault {A : Type} (inner : ZodType A) (defaultValue : JsValue)
  : ZodType A :=
  fun p v =>
    match v with
    | VUndefined => inner p defaultValue
    | _ => inner p v
    end.

(** [z.preprocess(f, inner)]. *)
Definition preprocess {A : Type} (f : JsValue -> JsValue) (inner : ZodType A)
  : ZodType A :=
  fun p v => inner p (f v).

(** [.refine(check, message)]: runs unless the inner parse aborted; a
    failing check pushes a [custom] issue at the value's own path. *)
Definition refine {A : Type} (inner : ZodType A) (check : A -> bool)
  (m : IssueMessage) : ZodType A :=
  fun p v =>
    let '(r, iss) := inner p v in
    match r with
    | INVALID => (INVALID, iss)
    | OK a | DIRTY a =>
        if check a then (r, iss)
        else (DIRTY a, iss ++ [mkIssue custom p m None])
    end.

(** [.transform(f)].  The library applies [f] to a valid inner value and
    hands a dirty one on as it is; a typed model has to give the dirty
    value the output type, and does so with [f].  Both transforms of the
    schemas below sit on inner schemas whose dirty values [f] leaves
    alone (see [phone_dirty_untransformed]) or that are never dirty. *)
Definition transform {A B : Type} (inner : ZodType A) (f : A -> B) : ZodType B :=
  fun p v =>
    let '(r, iss) := inner p v in
    match r with
    | OK a => (OK (f a), iss)
    | DIRTY a => (DIRTY (f a), iss)
    | INVALID => (INVALID, iss)
    end.

(** [z.union([...])]: the first option that is valid wins and its issues
    are dropped; failing that the first dirty one; failing that one
    [invalid_union] issue. *)
Fixpoint unionFrom {A : Type} (opts : list (ZodType A))
  (firstDirty : option (Parse A)) (p : list string) (v : JsValue) : Parse A :=
  match opts with
  | [] =>
      match firstDirty with
      | Some d => d
      | None => (INVALID, [mkIssue invalid_union p DefaultMsg None])
      end
  | o :: rest =>
      match o p v with
      | (OK a, _) => (OK a, [])
      | (DIRTY a, iss) =>
          unionFrom rest
            (match firstDirty with Some d => Some d | None => Some (DIRTY a, iss) end)
            p v
      | (INVALID, _) => unionFrom rest firstDirty p v
      end
  end.

Definition ZodUnion {A : Type} (opts : list (ZodType A)) : ZodType A :=
  fun p v => unionFrom opts None p v.

(** *** Objects *)

(** Merging the parsed keys of an object: every key is parsed, the issues
    pile up in key order, one aborted key aborts the object, one dirty
    key dirties it. *)
Definition mergeReturn {A B : Type} (rf : SyncParseReturn (A -> B))
  (ra : SyncParseReturn A) : SyncParseReturn B :=
  match rf, ra with
  | INVALID, _ | _, INVALID => INVALID
  | OK f, OK a => OK (f a)
  | OK f, DIRTY a | DIRTY f, OK a | DIRTY f, DIRTY a => DIRTY (f a)
  end.

Definition ap {A B : Type} (pf : Parse (A -> B)) (pa : Parse A) : Parse B :=
  (mergeReturn (fst pf) (fst pa), snd pf ++ snd pa).

Definition pure {A : Type} (a : A) : Parse A := (OK a, []).

(** The parse of the property [k] of an object living at path [p]. *)
Definition key {A : Type} (p : list string) (props : list (string * JsValue))
  (k : string) (schema : ZodType A) : Parse A :=
  schema (p ++ [k]) (getProp k props).

(** [z.object(shape)]: only an object has keys to parse. *)
Definition ZodObject {A : Type}
  (shape : list string -> list (string * JsValue) -> Parse A) : ZodType A :=
  fun p v =>
    match v with
    | VObject props => shape p props
    | _ => invalidType DefaultMsg p v
    end.

(** *** Whole-object refinements *)

(** The context handed to a [superRefine] callback: the path of the
    refined value and the issues pushed so far. *)
Record RefinementCtx : Type := mkCtx {
  ctx_path : list string;
  ctx_issues : list ZodIssue
}.

(** [ctx.addIssue(arg)]: the issue's path is relative to the refined
    value. *)
Definition addIssue (ctx : RefinementCtx) (arg : ZodIssue) : RefinementCtx :=
  mkCtx (ctx_path ctx)
    (ctx_issues ctx ++
       [mkIssue (code arg) (ctx_path ctx ++ path arg) (message arg) (options arg)]).

(** The effect of a refinement on a parse that did not abort: its issues
    are appended, and any issue dirties the status. *)
Definition refined {A : Type} (p : list string) (r : SyncParseReturn A)
  (iss : list ZodIssue) (run : A -> RefinementCtx -> RefinementCtx) : Parse A :=
  match r with
  | INVALID => (INVALID, iss)
  | OK a | DIRTY a =>
      let added := ctx_issues (run a (mkCtx p [])) in
      match added with
      | [] => (r, iss)
      | _ => (DIRTY a, iss ++ added)
      end
  end.

(** [.superRefine(f)] with a synchronous callback. *)
Definition superRefine {A : Type} (inner : ZodType A)
  (refinement : A -> RefinementCtx -> RefinementCtx) : ZodType A :=
  fun p v => let '(r, iss) := inner p v in refined p r iss refinement.

(** *** Entry points *)

Inductive SafeParseReturn (A : Type) : Type :=
| Success (data : A)
| Failure (error : ZodError).
Arguments Success {A} data.
Arguments Failure {A} error.

Definition handleResult {A : Type} (r : Parse A) : SafeParseReturn A :=
  match r with
  | (OK a, _) => Success a
  | (_, iss) => Failure iss
  end.

(** [schema.safeParse(data)] of a schema without asynchronous parts. *)
Definition safeParse {A : Type} (schema : ZodType A) (data : JsValue)
  : SafeParseReturn A :=
  handleResult (schema [] data).

(** A schema topped by [.superRefine(f)] where [f] is an [async]
    function.  [safeParseAsync] awaits the callback.  [safeParse] calls
    it too, finds a promise in its hands and throws; an aborted inner
    parse never reaches the callback. *)
Definition safeParseAsync_refined {A : Type} (inner : ZodType A)
  (refinement : A -> RefinementCtx -> Promise RefinementCtx) (data : JsValue)
  : Promise (SafeParseReturn A) :=
  let '(r, iss) := inner [] data in
  Resolve (handleResult (refined [] r iss (fun a ctx => await (refinement a ctx)))).

Definition safeParse_refined {A : Type} (inner : ZodType A)
  (refinement : A -> RefinementCtx -> Promise RefinementCtx) (data : JsValue)
  : Completion (SafeParseReturn A) :=
  let '(r, iss) := inner [] data in
  match r with
  | INVALID => Normal (Failure iss)
  | OK _ | DIRTY _ => Throw
  end.

(** [z.ZodTypeAny] as a caller sees it: a value with the two entry
    points, the parsed data being a JavaScript value again. *)
Record ZodTypeAny : Type := mkSchema {
  any_safeParse : JsValue -> Completion (SafeParseReturn JsValue);
  any_safeParseAsync : JsValue -> Promise (SafeParseReturn JsValue)
}.

Definition mapSafe {A B : Type} (f : A -> B) (r : SafeParseReturn A)
  : SafeParseReturn B :=
  match r with
  | Success a => Success (f a)
  | Failure e => Failure e
  end.

End Zod.

Import Zod.

Notation "pf <*> pa" := (ap pf pa) (at level 50, left associativity).

(** A nullable field as JSON carries it. *)
Definition nullOr {A : Type} (f : A -> JsValue) (x : option A) : JsValue :=
  match x with
  | Some a => f a
  | None => VNull
  end.

(** ** src/utils/validators/forms.ts *)

Definition DietaryOptions_values : list string :=
  ["None"; "Vegetarian"; "Vegan"; "Other (please specify below)"].

Definition DietaryOptions : ZodType string := ZodEnum DietaryOptions_values.

(** [z.infer<typeof SignupSchema>]. *)
Record SignupSchemaType : Type := mkSignup {
  email : string;
  password : string;
  passwordConfirm : string;
  firstname : string;
  lastname : string;
  phone : option string;
  birthdate : option Z;
  nationality : string;
  schoolname : option string;
  dietary : option string;
  otherInfo : option string
}.

(** JavaScript truthiness of a [string | null]. *)
Definition truthy (s : option string) : bool :=
  match s with
  | Some t => negb (t =? "")%string
  | None => false
  end.

Section Signup.

(** What the schema borrows from outside the repository: zod's e-mail
    pattern, two predicates of the validator package, the clock and the
    [Date] constructor on a string. *)
Variable isEmail : string -> bool.
Variable isMobilePhone : string -> bool.
Variable isISO31661Alpha2 : string -> bool.
Variable nowISOString : string.
Variable newDate : string -> option Z.

(** [.email()]. *)
Definition str_email : Check string := mkCheck isEmail invalid_string DefaultMsg.

(** [(phone) => (phone ? validator.isMobilePhone(phone) : true)]. *)
Definition phoneCheck (phone : option string) : bool :=
  match phone with
  | Some s => if truthy phone then isMobilePhone s else true
  | None => true
  end.

(** [(phone) => phone || null]. *)
Definition phoneOrNull (phone : option string) : option string :=
  if truthy phone then phone else None.

Definition SignupSchema_phone : ZodType (option string) :=
  transform
    (refine (ZodNullable (ZodString [])) phoneCheck (Msg "Invalid phone number"))
    phoneOrNull.

Definition SignupSchema_birthdate : ZodType (option Z) :=
  ZodUnion
    [ transform (ZodDefault (ZodString []) (VString nowISOString)) newDate;
      ZodDate ].

Definition SignupSchema_shape (p : list string) (o : list (string * JsValue))
  : Parse SignupSchemaType :=
  pure mkSignup
    <*> key p o "email" (ZodString [str_email])
    <*> key p o "password"
          (ZodString [str_min 8 (Msg "Password must be at least 8 characters")])
    <*> key p o "passwordConfirm" (ZodString [])
    <*> key p o "firstname" (ZodString [str_min 1 (Msg "Please enter first name")])
    <*> key p o "lastname" (ZodString [str_min 1 (Msg "Please enter last name")])
    <*> key p o "phone" SignupSchema_phone
    <*> key p o "birthdate" SignupSchema_birthdate
    <*> key p o "nationality" (refine (ZodString []) isISO31661Alpha2 DefaultMsg)
    <*> key p o "schoolname" (ZodNullable (ZodString []))
    <*> key p o "dietary" (ZodNullable DietaryOptions)
    <*> key p o "otherInfo" (ZodNullable (ZodString [str_max 400 DefaultMsg])).

Definition passwordsDoNotMatch : ZodIssue :=
  mkIssue custom ["passwordConfirm"] (Msg "Passwords do not match") None.

(** The callback of [.superRefine]. *)
Definition SignupSchema_refinement (data : SignupSchemaType) (ctx : RefinementCtx)
  : RefinementCtx :=
  if negb (password data =? passwordConfirm data)%string
  then addIssue ctx passwordsDoNotMatch
  else ctx.

Definition SignupSchema : ZodType SignupSchemaType :=
  superRefine (ZodObject SignupSchema_shape) SignupSchema_refinement.

(** Vocabulary: the fields of a signup form other than the two
    passwords are valid, and [d] holds what the schema makes of them.
    The phone is [null] or a string that is empty or a mobile number;
    the birthdate is missing (the clock fills it in), a string, or a
    valid [Date]. *)
Record othersValid (o : list (string * JsValue)) (submittedPhone : option string)
  (d : SignupSchemaType) : Prop := {
  valid_email : getProp "email" o = VString (email d);
  valid_email_format : isEmail (email d) = true;
  valid_firstname : getProp "firstname" o = VString (firstname d);
  valid_firstname_length : (1 <= String.length (firstname d))%nat;
  valid_lastname : getProp "lastname" o = VString (lastname d);
  valid_lastname_length : (1 <= String.length (lastname d))%nat;
  valid_phone : getProp "phone" o = nullOr VString submittedPhone;
  valid_phone_format : phoneCheck submittedPhone = true;
  valid_phone_value : phone d = phoneOrNull submittedPhone;
  valid_birthdate :
    (getProp "birthdate" o = VUndefined /\ birthdate d = newDate nowISOString)
    \/ (exists s, getProp "birthdate" o = VString s /\ birthdate d = newDate s)
    \/ (exists t, getProp "birthdate" o = VDate (Some t) /\ birthdate d = Some t);
  valid_nationality : getProp "nationality" o = VString (nationality d);
  valid_nationality_code : isISO31661Alpha2 (nationality d) = true;
  valid_schoolname : getProp "schoolname" o = nullOr VString (schoolname d);
  valid_dietary : getProp "dietary" o = nullOr VString (dietary d);
  valid_dietary_enum : forall s, dietary d = Some s -> In s DietaryOptions_values;
  valid_otherInfo : getProp "otherInfo" o = nullOr VString (otherInfo d);
  valid_otherInfo_length :
    forall s, otherInfo d = Some s -> (String.length s <= 400)%nat
}.

Definition passwordTooShort : ZodIssue :=
  mkIssue too_small ["password"] (Msg "Password must be at least 8 characters") None.

End Signup.

(** [z.infer<typeof DelegateApply>]. *)
Record DelegateApplyT : Type := mkDelegateApply {
  userId : Z;
  motivation : string;
  experience : string;
  delegationId : option Z;
  choice1committee : Z;
  choice1country : string;
  choice2committee : Z;
  choice2country : string;
  choice3committee : Z;
  choice3country : string;
  shirtSize : option string
}.

(** [(val) => (val === -1 ? null : val)]. *)
Definition minusOneToNull (val : JsValue) : JsValue :=
  match val with
  | VNumber n => if n =? -1 then VNull else val
  | _ => val
  end.

Definition pleaseChooseCommittee : IssueMessage := Msg "Please choose a committee".

Definition committeeChoice : ZodType Z :=
  ZodNumber pleaseChooseCommittee [num_min 0 pleaseChooseCommittee].

Definition countryChoice : ZodType string :=
  ZodString [str_min 2 (Msg "Please choose a country")].

Definition DelegateApply_shape (p : list string) (o : list (string * JsValue))
  : Parse DelegateApplyT :=
  pure mkDelegateApply
    <*> key p o "userId" (ZodNumber DefaultMsg [])
    <*> key p o "motivation"
          (ZodString [str_max 4000 (Msg "Your motivation is too long");
                      str_min 10 (Msg "Please enter a short motivation")])
    <*> key p o "experience"
          (ZodString [str_max 4000 (Msg "Your experience is too long");
                      str_min 10 (Msg "Please enter a short experience")])
    <*> key p o "delegationId"
          (preprocess minusOneToNull (ZodNullable (ZodNumber DefaultMsg [])))
    <*> key p o "choice1committee" committeeChoice
    <*> key p o "choice1country" countryChoice
    <*> key p o "choice2committee" committeeChoice
    <*> key p o "choice2country" countryChoice
    <*> key p o "choice3committee" committeeChoice
    <*> key p o "choice3country" countryChoice
    <*> key p o "shirtSize" (ZodNullable (ZodEnum ["XS"; "S"; "M"; "L"; "XL"; "XXL"])).

Definition DelegateApply : ZodType DelegateApplyT := ZodObject DelegateApply_shape.

(** The rows of the reference tables, with the columns the code reads. *)
Record Committee : Type := mkCommittee {
  id : Z;
  displayname : string;
  difficulty : string
}.

Record CommitteeCountries : Type := mkCommitteeCountries {
  committeeId : Z;
  country : string
}.

Record Reference : Type := mkReference {
  committees : list Committee;
  committeeCountries : list CommitteeCountries
}.

(** The parameter of [refineDelegateApply]: the tables, or a function that
    fetches them. *)
Inductive RefineParams : Type :=
| Fetch (params : unit -> Promise Reference)
| Fetched (params : Reference).

(** [!x] for the result of [Array.prototype.find] on an array of rows: a
    row is an object, hence truthy; only [undefined] is falsy. *)
Definition not_found {A : Type} (x : option A) : bool :=
  match x with Some _ => false | None => true end.

Definition committeeNotFound (committees : list Committee) (slotPath : string)
  : ZodIssue :=
  mkIssue invalid_enum_value [slotPath]
    (Msg "The committee with the given ID was not found")
    (Some (map (fun c => VNumber (id c)) committees)).

Definition invalidCombination (committeeCountries : list CommitteeCountries)
  (choice : Z) (slotPath : string) : ZodIssue :=
  mkIssue invalid_enum_value [slotPath]
    (Msg "Invalid country and committee combination")
    (Some (map (fun c => VString (country c))
             (filter (fun c => committeeId c =? choice) committeeCountries))).

Definition refineDelegateApply (params : RefineParams)
  (body : DelegateApplyT) (ctx : RefinementCtx) : Promise RefinementCtx :=
  let '(mkReference committees committeeCountries) :=
    match params with
    | Fetch f => await (f tt)
    | Fetched r => r
    end in
  let committee1valid := find (fun c => id c =? choice1committee body) committees in
  let ctx :=
    if not_found committee1valid
    then addIssue ctx (committeeNotFound committees "choice1committee")
    else ctx in
  let committee2valid := find (fun c => id c =? choice2committee body) committees in
  let ctx :=
    if not_found committee2valid
    then addIssue ctx (committeeNotFound committees "choice2committee")
    else ctx in
  let committee3valid := find (fun c => id c =? choice3committee body) committees in
  let ctx :=
    if not_found committee3valid
    then addIssue ctx (committeeNotFound committees "choice3committee")
    else ctx in
  let choice1valid :=
    find (fun c => (committeeId c =? choice1committee body)
                   && (country c =? choice1country body)%string)
      committeeCountries in
  let ctx :=
    if not_found choice1valid && negb (not_found committee1valid)
    then addIssue ctx
           (invalidCombination committeeCountries (choice1committee body)
              "choice1country")
    else ctx in
  let choice2valid :=
    find (fun c => (committeeId c =? choice2committee body)
                   && (country c =? choice2country body)%string)
      committeeCountries in
  let ctx :=
    if not_found choice2valid && negb (not_found committee2valid)
    then addIssue ctx
           (invalidCombination committeeCountries (choice2committee body)
              "choice2country")
    else ctx in
  let choice3valid :=
    find (fun c => (committeeId c =? choice3committee body)
                   && (country c =? choice3country body)%string)
      committeeCountries in
  let ctx :=
    if not_found choice3valid && negb (not_found committee3valid)
    then addIssue ctx
           (invalidCombination committeeCountries (choice3committee body)
              "choice3country")
    else ctx in
  Resolve ctx.

(** ** The request validator (utils/middlewares) *)

(** The body of the 422 answer. *)
Module Response.
Record json : Type := mk {
  statusCode : Z;
  message : string;
  description : list ZodError
}.
End Response.

Record NextApiRequest : Type := mkRequest {
  req_body : JsValue;
  req_query : JsValue
}.

(** The response under construction: its status code (200 until set) and
    the JSON document sent, if any. *)
Record NextApiResponse : Type := mkResponse {
  res_statusCode : Z;
  res_sent : option Response.json
}.

(** One request on its way through the chain of handlers: the request
    object the handlers share, the response, and how many times [next]
    was called. *)
Record Exchange : Type := mkExchange {
  req : NextApiRequest;
  res : NextApiResponse;
  nextCalls : nat
}.

(** [res.status(code).json(doc)]. *)
Definition status_json (code : Z) (doc : Response.json) (x : Exchange) : Exchange :=
  mkExchange (req x) (mkResponse code (Some doc)) (nextCalls x).

(** [next()]. *)
Definition next (x : Exchange) : Exchange :=
  mkExchange (req x) (res x) (S (nextCalls x)).

(** The object a caller passes to [validate].  The function destructures
    [body] and [query] only; the delegate-application route also writes
    [async: true]. *)
Record ValidateOptions : Type := mkOptions {
  body : option ZodTypeAny;
  query : option ZodTypeAny;
  async : option bool
}.

Definition bind {A B : Type} (c : Completion A) (k : A -> Completion B)
  : Completion B :=
  match c with
  | Normal a => k a
  | Throw => Throw
  end.

Notation "x <- c ;; k" := (bind c (fun x => k))
  (at level 61, c at next level, right associativity).

(** [if (schema) { const parsed = schema.safeParse(data);
                   if (parsed.success === false) errors.push(parsed.error) }] *)
Definition parsePart (schema : option ZodTypeAny) (data : JsValue)
  (errors : list ZodError) : Completion (list ZodError) :=
  match schema with
  | None => Normal errors
  | Some s =>
      parsed <- any_safeParse s data ;;
      match parsed with
      | Failure error => Normal (errors ++ [error])
      | Success _ => Normal errors
      end
  end.

Definition badRequest (errors : list ZodError) : Response.json :=
  Response.mk 422 "Bad Request" errors.

Definition validate (options : ValidateOptions) (x : Exchange) : Completion Exchange :=
  errors <- parsePart (body options) (req_body (req x)) [] ;;
  errors <- parsePart (query options) (req_query (req x)) errors ;;
  if negb (Nat.eqb (List.length errors) 0)
  then Normal (status_json 422 (badRequest errors) x)
  else Normal (next x).

(** ** The schemas as the validator and the pages use them *)

(** The object a successful parse of [DelegateApply] builds: the keys of
    the shape, in the order of the shape. *)
Definition DelegateApply_data (d : DelegateApplyT) : JsValue :=
  VObject
    [ ("userId", VNumber (userId d));
      ("motivation", VString (motivation d));
      ("experience", VString (experience d));
      ("delegationId", nullOr VNumber (delegationId d));
      ("choice1committee", VNumber (choice1committee d));
      ("choice1country", VString (choice1country d));
      ("choice2committee", VNumber (choice2committee d));
      ("choice2country", VString (choice2country d));
      ("choice3committee", VNumber (choice3committee d));
      ("choice3country", VString (choice3country d));
      ("shirtSize", nullOr VString (shirtSize d)) ].

(** A schema without asynchronous parts, seen as a [ZodTypeAny]. *)
Definition plainSchema {A : Type} (data : A -> JsValue) (schema : ZodType A)
  : ZodTypeAny :=
  mkSchema
    (fun v => Normal (mapSafe data (safeParse schema v)))
    (fun v => Resolve (mapSafe data (safeParse schema v))).

(** [schema.superRefine(f)] with an [async] callback [f], seen as a
    [ZodTypeAny]. *)
Definition refinedSchema {A : Type} (data : A -> JsValue) (schema : ZodType A)
  (refinement : A -> RefinementCtx -> Promise RefinementCtx) : ZodTypeAny :=
  mkSchema
    (fun v => r <- safeParse_refined schema refinement v ;; Normal (mapSafe data r))
    (fun v => Resolve (mapSafe data (await (safeParseAsync_refined schema refinement v)))).

(** pages/api/user/application/delegate: the validator of [handler.put],
    [validate({ body: DelegateApply, async: true })]. *)
Definition put_options : ValidateOptions :=
  mkOptions (Some (plainSchema DelegateApply_data DelegateApply)) None (Some true).

Definition put_validate : Exchange -> Completion Exchange := validate put_options.

(** pages/user/apply/delegate: the [validate] of the form,
    [DelegateApply.superRefine(refineDelegateApply({ committees,
    committeeCountries: countries })).safeParseAsync(values)]. *)
Definition form_results (committees : list Committee)
  (countries : list CommitteeCountries) (values : JsValue)
  : Promise (SafeParseReturn DelegateApplyT) :=
  safeParseAsync_refined DelegateApply
    (refineDelegateApply (Fetched (mkReference committees countries))) values.

(** ** Vocabulary of the properties *)

(** The tables a refinement works with. *)
Definition reference (params : RefineParams) : Reference :=
  match params with
  | Fetch f => await (f tt)
  | Fetched r => r
  end.

(** The issues one run of the refinement adds for a body, as a root
    refinement sees them (path of the refined value: the root). *)
Definition addedIssues (params : RefineParams) (body : DelegateApplyT)
  : list ZodIssue :=
  ctx_issues (await (refineDelegateApply params body (mkCtx [] []))).

(** An issue as [addIssue] files it for a refinement of the value at [p]. *)
Definition under (p : list string) (i : ZodIssue) : ZodIssue :=
  mkIssue (code i) (p ++ path i) (message i) (options i).

(** The value a parse carries, if it did not abort. *)
Definition valueOf {A : Type} (r : SyncParseReturn A) : option A :=
  match r with
  | OK a | DIRTY a => Some a
  | INVALID => None
  end.

(** A schema files every issue at the path it was given. *)
Definition wellPathed {A : Type} (schema : ZodType A) : Prop :=
  forall p v, Forall (fun i => path i = p) (snd (schema p v)).

(** The three ranked choices of an application. *)
Inductive Slot : Type := choice1 | choice2 | choice3.

Definition slotCommittee (s : Slot) (body : DelegateApplyT) : Z :=
  match s with
  | choice1 => choice1committee body
  | choice2 => choice2committee body
  | choice3 => choice3committee body
  end.

Definition slotCountry (s : Slot) (body : DelegateApplyT) : string :=
  match s with
  | choice1 => choice1country body
  | choice2 => choice2country body
  | choice3 => choice3country body
  end.

Definition committeePath (s : Slot) : string :=
  match s with
  | choice1 => "choice1committee"
  | choice2 => "choice2committee"
  | choice3 => "choice3committee"
  end.

Definition countryPath (s : Slot) : string :=
  match s with
  | choice1 => "choice1country"
  | choice2 => "choice2country"
  | choice3 => "choice3country"
  end.

(** A committee id occurs in the committee list. *)
Definition committeeExists (r : Reference) (n : Z) : bool :=
  existsb (fun c => id c =? n) (committees r).

(** A (committee, country) pair occurs among the committee-country rows. *)
Definition pairExists (r : Reference) (n : Z) (c : string) : bool :=
  existsb (fun row => (committeeId row =? n) && (country row =? c)%string)
    (committeeCountries r).

Fixpoint path_eqb (p q : list string) : bool :=
  match p, q with
  | [], [] => true
  | a :: p', b :: q' => (a =? b)%string && path_eqb p' q'
  | _, _ => false
  end.

(** The issues of a report that sit on a given path. *)
Definition issuesAt (p : list string) (report : list ZodIssue) : list ZodIssue :=
  filter (fun i => path_eqb (path i) p) report.

(** The two checks of one slot, as the specification words them: the
    committee must exist; if it does, the pair must exist. *)
Definition committeeCheck (r : Reference) (s : Slot) (committee : Z)
  : list ZodIssue :=
  if committeeExists r committee then []
  else [committeeNotFound (committees r) (committeePath s)].

Definition countryCheck (r : Reference) (s : Slot) (committee : Z) (c : string)
  : list ZodIssue :=
  if committeeExists r committee && negb (pairExists r committee c)
  then [invalidCombination (committeeCountries r) committee (countryPath s)]
  else [].

(** The delegation id a form submits ([null] or a number) and what the
    schema makes of it. *)
Definition normalizedDelegation (submitted : option Z) : option Z :=
  match submitted with
  | Some n => if n =? -1 then None else Some n
  | None => None
  end.

Definition shirtSizes : list string := ["XS"; "S"; "M"; "L"; "XL"; "XXL"].

(** The errors of the parts that failed, in the order body, query. *)
Definition errorOf (r : option (SafeParseReturn JsValue)) : list ZodError :=
  match r with
  | Some (Failure e) => [e]
  | _ => []
  end.

(** A part of a request and the result of parsing it: no schema, no
    result; a schema, the result its [safeParse] returns. *)
Definition parsesTo (schema : option ZodTypeAny) (data : JsValue)
  (r : option (SafeParseReturn JsValue)) : Prop :=
  match schema, r with
  | None, None => True
  | Some s, Some result => any_safeParse s data = Normal result
  | _, _ => False
  end.

(** A part of a request is accepted: there is no schema for it, or its
    schema's [safeParse] returns a success. *)
Definition partAccepted (schema : option ZodTypeAny) (data : JsValue) : Prop :=
  match schema with
  | None => True
  | Some s => exists v, any_safeParse s data = Normal (Success v)
  end.

(** What a handler further down finds in a part of the request is the
    value the part's schema produced. *)
Definition seesParsed (schema : option ZodTypeAny) (raw seen : JsValue) : Prop :=
  forall s v,
    schema = Some s -> any_safeParse s raw = Normal (Success v) -> seen = v.

(** The reading under which the parsed value replaces the raw input: when
    every supplied part is accepted, the validator calls [next] and the
    request then holds, for each supplied part, the parsed value. *)
Definition forwardsParsedInput (options : ValidateOptions) (x : Exchange) : Prop :=
  partAccepted (body options) (req_body (req x)) ->
  partAccepted (query options) (req_query (req x)) ->
  exists x' : Exchange,
    validate options x = Normal x' /\
    nextCalls x' = S (nextCalls x) /\
    seesParsed (body options) (req_body (req x)) (req_body (req x')) /\
    seesParsed (query options) (req_query (req x)) (req_query (req x')).

(** Every field of a submitted form satisfies its shape constraint, and
    [d] is the form with its delegation id normalized: numbers where
    numbers are due, committee ids at least 0, countries of at least 2
    characters, motivation and experience of 10 to 4000 characters, a
    delegation id that is [null] or a number, a shirt size that is [null]
    or one of the six sizes. *)
Record wellShaped (o : list (string * JsValue)) (submittedDelegation : option Z)
  (d : DelegateApplyT) : Prop := {
  shape_userId : getProp "userId" o = VNumber (userId d);
  shape_motivation : getProp "motivation" o = VString (motivation d);
  shape_motivation_length : (10 <= String.length (motivation d) <= 4000)%nat;
  shape_experience : getProp "experience" o = VString (experience d);
  shape_experience_length : (10 <= String.length (experience d) <= 4000)%nat;
  shape_delegationId : getProp "delegationId" o = nullOr VNumber submittedDelegation;
  shape_normalized : delegationId d = normalizedDelegation submittedDelegation;
  shape_committee : forall s, getProp (committeePath s) o = VNumber (slotCommittee s d);
  shape_committee_min : forall s, 0 <= slotCommittee s d;
  shape_country : forall s, getProp (countryPath s) o = VString (slotCountry s d);
  shape_country_length : forall s, (2 <= String.length (slotCountry s d))%nat;
  shape_shirtSize : getProp "shirtSize" o = nullOr VString (shirtSize d);
  shape_shirtSize_enum : forall size, shirtSize d = Some size -> In size shirtSizes
}.

(** Every committee and every (committee, country) pair a body refers to
    exists in the reference tables. *)
Definition referencesExist (r : Reference) (d : DelegateApplyT) : Prop :=
  forall s,
    committeeExists r (slotCommittee s d) = true /\
    pairExists r (slotCommittee s d) (slotCountry s d) = true.

(** ** Sample data *)

Definition sampleCommittees : list Committee :=
  [ mkCommittee 1 "Security Council" "Advanced";
    mkCommittee 2 "Human Rights Council" "Beginner" ].

Definition sampleCountries : list CommitteeCountries :=
  [ mkCommitteeCountries 1 "CZ";
    mkCommitteeCountries 2 "US";
    mkCommitteeCountries 2 "FR" ].

Definition sampleReference : Reference :=
  mkReference sampleCommittees sampleCountries.

Definition sampleBody (c1 : Z) (k1 : string) (c2 : Z) (k2 : string)
  (c3 : Z) (k3 : string) : DelegateApplyT :=
  mkDelegateApply 7 "I enjoy debating." "Two conferences." None
    c1 k1 c2 k2 c3 k3 (Some "M").

(** A submitted form: the fields of [sampleBody] with a delegation id. *)
Definition sampleForm (delegation : JsValue) (c1 : Z) (k1 : string) (c2 : Z)
  (k2 : string) (c3 : Z) (k3 : string) : list (string * JsValue) :=
  [ ("userId", VNumber 7);
    ("motivation", VString "I enjoy debating.");
    ("experience", VString "Two conferences.");
    ("delegationId", delegation);
    ("choice1committee", VNumber c1);
    ("choice1country", VString k1);
    ("choice2committee", VNumber c2);
    ("choice2country", VString k2);
    ("choice3committee", VNumber c3);
    ("choice3country", VString k3);
    ("shirtSize", VString "M") ].

Definition sampleExchange (body query : JsValue) : Exchange :=
  mkExchange (mkRequest body query) (mkResponse 200 None) 0.

(** Stand-ins for the outside predicates of [SignupSchema], for running
    it: each accepts the one value the samples use. *)
Definition sampleIsEmail (s : string) : bool := (s =? "ada@example.org")%string.
Definition sampleIsMobilePhone (s : string) : bool := (s =? "+420601123456")%string.
Definition sampleIsCountry (s : string) : bool := (s =? "CZ")%string.
Definition sampleNewDate (s : string) : option Z :=
  if (s =? "2005-03-01T00:00:00.000Z")%string then Some 1109635200000 else None.

Definition sampleSignup (pw confirm : string) (phoneValue : JsValue)
  : list (string * JsValue) :=
  [ ("email", VString "ada@example.org");
    ("password", VString pw);
    ("passwordConfirm", VString confirm);
    ("firstname", VString "Ada");
    ("lastname", VString "Lovelace");
    ("phone", phoneValue);
    ("birthdate", VString "2005-03-01T00:00:00.000Z");
    ("nationality", VString "CZ");
    ("schoolname", VNull);
    ("dietary", VString "Vegan");
    ("otherInfo", VNull) ].

(** * The rest of the validators, the apply page and the application route *)

(** ** src/utils/validators/forms.ts: the chair application *)

(** [z.infer<typeof ChairApply>]. *)
Module Chair.
Record ChairApplyT : Type := mk {
  userId : Z;
  motivation : string;
  experience : string;
  delegationId : option Z;
  choice1committee : Z;
  choice2committee : Z;
  choice3committee : Z;
  shirtSize : option string
}.

(** The tables of [refineChairApply]: [{ committees }]. *)
Record Reference : Type := mkReference {
  committees : list Committee
}.

(** The parameter of [refineChairApply]: the tables, or a function that
    fetches them. *)
Inductive RefineParams : Type :=
| Fetch (params : unit -> Promise Reference)
| Fetched (params : Reference).
End Chair.

Definition ChairApply_shape (p : list string) (o : list (string * JsValue))
  : Parse Chair.ChairApplyT :=
  pure Chair.mk
    <*> key p o "userId" (ZodNumber DefaultMsg [])
    <*> key p o "motivation"
          (ZodString [str_max 4000 (Msg "Your motivation is too long");
                      str_min 10 (Msg "Please enter a short motivation")])
    <*> key p o "experience"
          (ZodString [str_max 4000 (Msg "Your experience is too long");
                      str_min 10 (Msg "Please enter a short experience")])
    <*> key p o "delegationId"
          (preprocess minusOneToNull (ZodNullable (ZodNumber DefaultMsg [])))
    <*> key p o "choice1committee" committeeChoice
    <*> key p o "choice2committee" committeeChoice
    <*> key p o "choice3committee" committeeChoice
    <*> key p o "shirtSize" (ZodNullable (ZodEnum ["XS"; "S"; "M"; "L"; "XL"; "XXL"])).

Definition ChairApply : ZodType Chair.ChairApplyT := ZodObject ChairApply_shape.

Definition refineChairApply (params : Chair.RefineParams)
  (body : Chair.ChairApplyT) (ctx : RefinementCtx) : Promise RefinementCtx :=
  let '(Chair.mkReference committees) :=
    match params with
    | Chair.Fetch f => await (f tt)
    | Chair.Fetched r => r
    end in
  let committee1valid :=
    find (fun c => id c =? Chair.choice1committee body) committees in
  let ctx :=
    if not_found committee1valid
    then addIssue ctx (committeeNotFound committees "choice1committee")
    else ctx in
  let committee2valid :=
    find (fun c => id c =? Chair.choice2committee body) committees in
  let ctx :=
    if not_found committee2valid
    then addIssue ctx (committeeNotFound committees "choice2committee")
    else ctx in
  let committee3valid :=
    find (fun c => id c =? Chair.choice3committee body) committees in
  let ctx :=
    if not_found committee3valid
    then addIssue ctx (committeeNotFound committees "choice3committee")
    else ctx in
  Resolve ctx.

(** ** src/utils/validators/forms.ts: login and delegation *)

Module Login.
Record LoginT : Type := mk {
  email : string;
  password : string
}.
End Login.

(** [z.infer<typeof DelegationApply>]. *)
Module Delegation.
Record DelegationApplyT : Type := mk {
  delegationLeaderId : Z;
  name : string;
  country : string;
  estimatedDelegates : Z;
  delegates : option Z
}.
End Delegation.

(** [.length(n, message)] of a string schema: one issue, [too_big] for a
    longer string and [too_small] for a shorter one; at most one of the
    two checks below fails. *)
Definition str_length (n : nat) (m : IssueMessage) : list (Check string) :=
  [str_max n m; str_min n m].

Section OtherSchemas.

Variable isEmail : string -> bool.
Variable isISO31661Alpha2 : string -> bool.

Definition LoginSchema_shape (p : list string) (o : list (string * JsValue))
  : Parse Login.LoginT :=
  pure Login.mk
    <*> key p o "email" (ZodString [str_email isEmail])
    <*> key p o "password" (ZodString []).

Definition LoginSchema : ZodType Login.LoginT := ZodObject LoginSchema_shape.

Definition DelegationApply_shape (p : list string) (o : list (string * JsValue))
  : Parse Delegation.DelegationApplyT :=
  pure Delegation.mk
    <*> key p o "delegationLeaderId" (ZodNumber DefaultMsg [])
    <*> key p o "name"
          (ZodString [str_max 100 (Msg "Your name is too long");
                      str_min 10 (Msg "Please input a name")])
    <*> key p o "country"
          (refine (ZodString (str_length 2 (Msg "Please enter a valid country code")))
             isISO31661Alpha2 (Msg "You must pick a valid country"))
    <*> key p o "estimatedDelegates"
          (ZodNumber DefaultMsg [num_min 1 (Msg "Please enter a valid number")])
    <*> key p o "delegates" (ZodNullable (ZodNumber DefaultMsg [])).

Definition DelegationApply : ZodType Delegation.DelegationApplyT :=
  ZodObject DelegationApply_shape.

End OtherSchemas.

(** ** src/pages/user/apply/delegate.tsx *)

(** [error.flatten().fieldErrors]: the messages of the issues, grouped by
    the first element of their path, fields in order of first appearance;
    an issue without a path goes to [formErrors]. *)
Fixpoint pushFieldError (field : string) (m : IssueMessage)
  (fieldErrors : list (string * list IssueMessage))
  : list (string * list IssueMessage) :=
  match fieldErrors with
  | [] => [(field, [m])]
  | (f, ms) :: rest =>
      if (f =? field)%string then (f, ms ++ [m]) :: rest
      else (f, ms) :: pushFieldError field m rest
  end.

Record Flattened : Type := mkFlattened {
  formErrors : list IssueMessage;
  fieldErrors : list (string * list IssueMessage)
}.

Definition flatten (error : ZodError) : Flattened :=
  fold_left
    (fun acc sub =>
       match path sub with
       | [] => mkFlattened (formErrors acc ++ [message sub]) (fieldErrors acc)
       | field :: _ =>
           mkFlattened (formErrors acc)
             (pushFieldError field (message sub) (fieldErrors acc))
       end)
    error (mkFlattened [] []).

(** The [validate] of the form: no entry when the parse succeeds, else for
    each field of [fieldErrors] its first message, [error[0]]. *)
Definition form_validate (committees : list Committee)
  (countries : list CommitteeCountries) (values : JsValue)
  : list (string * option IssueMessage) :=
  match await (form_results committees countries values) with
  | Success _ => []
  | Failure error =>
      map (fun entry => (fst entry, nth_error (snd entry) 0))
        (fieldErrors (flatten error))
  end.

(** [values[`choice${id}committee`]] for the ids 1, 2 and 3. *)
Definition choiceCommittee (values : DelegateApplyT) (choice : Z) : Z :=
  if choice =? 1 then choice1committee values
  else if choice =? 2 then choice2committee values
  else choice3committee values.

Definition checkShouldBeDisabled (values : DelegateApplyT)
  (committeeId choiceId : Z) : bool :=
  let otherChoiceIds := filter (fun i => negb (i =? choiceId)) [1; 2; 3] in
  let otherChoicesAreSame :=
    map (fun i => choiceCommittee values i =? committeeId) otherChoiceIds in
  if existsb (fun isSame => Bool.eqb isSame true) otherChoicesAreSame
  then true
  else false.

(** An option of a committee select. *)
Record CommitteeChoice : Type := mkCommitteeChoice {
  label : string;
  value : Z;
  isDisabled : bool
}.

(** The [options] of the committee select of choice [choiceId]. *)
Definition committeeOptions (committees : list Committee)
  (values : DelegateApplyT) (choiceId : Z) : list CommitteeChoice :=
  map (fun committee =>
         mkCommitteeChoice (displayname committee) (id committee)
           (checkShouldBeDisabled values (id committee) choiceId))
    committees.

(** The number of a slot, as the page passes it. *)
Definition slotId (s : Slot) : Z :=
  match s with
  | choice1 => 1
  | choice2 => 2
  | choice3 => 3
  end.

(** [setFieldValue(`choiceNcommittee`, v)] on the state of the form. *)
Definition setCommittee (s : Slot) (v : Z) (values : DelegateApplyT)
  : DelegateApplyT :=
  match s with
  | choice1 =>
      mkDelegateApply (userId values) (motivation values) (experience values)
        (delegationId values) v (choice1country values)
        (choice2committee values) (choice2country values)
        (choice3committee values) (choice3country values) (shirtSize values)
  | choice2 =>
      mkDelegateApply (userId values) (motivation values) (experience values)
        (delegationId values) (choice1committee values) (choice1country values)
        v (choice2country values)
        (choice3committee values) (choice3country values) (shirtSize values)
  | choice3 =>
      mkDelegateApply (userId values) (motivation values) (experience values)
        (delegationId values) (choice1committee values) (choice1country values)
        (choice2committee values) (choice2country values)
        v (choice3country values) (shirtSize values)
  end.

(** The [onChange] of a committee select:
    [(option) => setFieldValue(`choiceNcommittee`, option?.value ?? -1)]. *)
Definition onCommitteeChange (s : Slot) (option : option CommitteeChoice)
  (values : DelegateApplyT) : DelegateApplyT :=
  setCommittee s (match option with Some o => value o | None => -1 end) values.

(** The [options] of the country select of a slot: the rows of the
    selected committee, label and value both the country. *)
Definition countryOptions (countries : list CommitteeCountries)
  (values : DelegateApplyT) (s : Slot) : list (string * string) :=
  map (fun c => (country c, country c))
    (filter (fun c => committeeId c =? slotCommittee s values) countries).

(** The values a fresh form starts from. *)
Definition initialValues (user : option Z) : DelegateApplyT :=
  mkDelegateApply (match user with Some i => i | None => -1 end)
    "" "" None (-1) "" (-1) "" (-1) "" None.

(** ** src/pages/api/user/application/delegate: the handlers *)

(** The own enumerable properties of a value, as an object spread copies
    them: those of an object, the indexed characters of a string, none
    for anything else. *)
Fixpoint indexedChars (i : nat) (s : string) : list (string * JsValue) :=
  match s with
  | EmptyString => []
  | String c rest =>
      (NilEmpty.string_of_uint (Nat.to_uint i), VString (String c EmptyString))
        :: indexedChars (S i) rest
  end.

Definition ownProps (v : JsValue) : list (string * JsValue) :=
  match v with
  | VObject props => props
  | VString s => indexedChars 0 s
  | _ => []
  end.

(** [obj[key] = v]: the binding is replaced where it stands, or added at
    the end. *)
Fixpoint setProp (k : string) (v : JsValue) (props : list (string * JsValue))
  : list (string * JsValue) :=
  match props with
  | [] => [(k, v)]
  | (k', v') :: rest =>
      if (k' =? k)%string then (k', v) :: rest else (k', v') :: setProp k v rest
  end.

(** [{ ...application, userId: req.user.id, paymentStatus: "pending" }]. *)
Definition newApplicationData (application : JsValue) (user : Z) : JsValue :=
  VObject
    (setProp "paymentStatus" (VString "pending")
       (setProp "userId" (VNumber user) (ownProps application))).

(** What the authentication middleware leaves on the request:
    [req.populated] and, when it is true, [req.user.id]. *)
Inductive Session : Type :=
| NotPopulated
| Populated (user : Z).

(** The JSON documents the handlers send. *)
Inductive JsonDoc : Type :=
| DataDoc (statusCode : Z) (data : JsValue)
| ErrorDoc (statusCode : Z) (message description : string).

(** [res.status(code).json(doc)]. *)
Record Reply : Type := mkReply {
  reply_status : Z;
  reply_json : JsonDoc
}.

Section Handlers.

(** The table of applications behind [db.appliedUser]: a state [DB],
    [findFirst({ where: { userId } })] and [create({ data })]. *)
Variable DB : Type.
Variable findFirst : DB -> Z -> Completion (option JsValue).
Variable create : DB -> JsValue -> Completion (DB * JsValue).

(** [handler.get]: the application of the logged-in user, or 404. *)
Definition get_handler (user : Z) (db : DB) : Completion Reply :=
  application <- findFirst db user ;;
  match application with
  | Some a => Normal (mkReply 200 (DataDoc 200 a))
  | None =>
      Normal (mkReply 404
                (ErrorDoc 404 "Not Found" "You have not submitted an application yet"))
  end.

(** The last handler of [handler.put], run once the validator has called
    [next]. *)
Definition put_handler (session : Session) (body : JsValue) (db : DB)
  : Completion (DB * Reply) :=
  let application := body in
  match session with
  | NotPopulated =>
      Normal (db, mkReply 500
                    (ErrorDoc 500 "Internal Server Error" "You are not logged in"))
  | Populated user =>
      existingApplication <- findFirst db user ;;
      match existingApplication with
      | Some _ =>
          Normal (db, mkReply 403
                        (ErrorDoc 403 "Forbidden"
                           "You have already submitted an application, there is only one allowed per user"))
      | None =>
          created <- create db (newApplicationData application user) ;;
          Normal (fst created, mkReply 201 (DataDoc 201 (snd created)))
      end
  end.

(** The tables that runs of [handler.put] lead to from [db], one run
    after another, of any session and any body.  The route has no other
    writer: [handler.get] only reads. *)
Inductive after_puts (db : DB) : DB -> Prop :=
| after_none : after_puts db db
| after_put (db1 db2 : DB) (session : Session) (body : JsValue) (reply : Reply) :
    after_puts db db1 ->
    put_handler session body db1 = Normal (db2, reply) ->
    after_puts db db2.

End Handlers.

(** A table of applications kept as the list of its rows, for running the
    handlers: [findFirst] returns the first row of the user, [create]
    stores the data as the new last row and returns it. *)
Definition listFindFirst (db : list JsValue) (user : Z)
  : Completion (option JsValue) :=
  Normal
    (find (fun row =>
             match getProp "userId" (ownProps row) with
             | VNumber n => n =? user
             | _ => false
             end) db).

Definition listCreate (db : list JsValue) (data : JsValue)
  : Completion (list JsValue * JsValue) :=
  Normal (db ++ [data], data).

(** ** More vocabulary *)

Definition chairReference (params : Chair.RefineParams) : Chair.Reference :=
  match params with
  | Chair.Fetch f => await (f tt)
  | Chair.Fetched r => r
  end.

(** The issues one run of the chair refinement adds, seen from the root. *)
Definition chairAddedIssues (params : Chair.RefineParams)
  (body : Chair.ChairApplyT) : list ZodIssue :=
  ctx_issues (await (refineChairApply params body (mkCtx [] []))).

(** The chair application a delegate application contains: the same
    fields without the countries. *)
Definition chairOf (d : DelegateApplyT) : Chair.ChairApplyT :=
  Chair.mk (userId d) (motivation d) (experience d) (delegationId d)
    (choice1committee d) (choice2committee d) (choice3committee d) (shirtSize d).

(** [obj[key]] of a table of entries. *)
Fixpoint lookupField {A : Type} (k : string) (entries : list (string * A))
  : option A :=
  match entries with
  | [] => None
  | (f, a) :: rest => if (f =? k)%string then Some a else lookupField k rest
  end.

(** An issue belongs to the field that heads its path. *)
Definition onField (k : string) (i : ZodIssue) : bool :=
  match path i with
  | f :: _ => (f =? k)%string
  | [] => false
  end.

(** No two slots hold the same committee, unless they hold -1, the value
    of a select nothing is chosen in. *)
Definition distinctWhenChosen (values : DelegateApplyT) : Prop :=
  forall s t,
    s <> t ->
    slotCommittee s values = slotCommittee t values ->
    slotCommittee s values = -1.

(** A schema is valid exactly when it filed no issue. *)
Definition coherent {A : Type} (schema : ZodType A) : Prop :=
  forall p v, isValid (fst (schema p v)) = true <-> snd (schema p v) = [].

(** The keys of the shape of [DelegateApply]. *)
Definition DelegateApply_keys : list string :=
  [ "userId"; "motivation"; "experience"; "delegationId";
    "choice1committee"; "choice1country"; "choice2committee"; "choice2country";
    "choice3committee"; "choice3country"; "shirtSize" ].


(** A signup form sent without any [phone] key. *)
Definition sampleSignupWithoutPhone (pw confirm : string)
  : list (string * JsValue) :=
  [ ("email", VString "ada@example.org");
    ("password", VString pw);
    ("passwordConfirm", VString confirm);
    ("firstname", VString "Ada");
    ("lastname", VString "Lovelace");
    ("birthdate", VString "2005-03-01T00:00:00.000Z");
    ("nationality", VString "CZ");
    ("schoolname", VNull);
    ("dietary", VString "Vegan");
    ("otherInfo", VNull) ].

(** The reading under which an empty phone fares like an absent one: a
    form with phone "" and the same form without a phone parse alike. *)
Definition emptyPhoneAsAbsent (isEmail isMobilePhone isISO31661Alpha2 : string -> bool)
  (nowISOString : string) (newDate : string -> option Z)
  (o o' : list (string * JsValue)) : Prop :=
  getProp "phone" o = VString "" ->
  getProp "phone" o' = VUndefined ->
  (forall k, k <> "phone" -> getProp k o' = getProp k o) ->
  safeParse
    (SignupSchema isEmail isMobilePhone isISO31661Alpha2 nowISOString newDate)
    (VObject o') =
  safeParse
    (SignupSchema isEmail isMobilePhone isISO31661Alpha2 nowISOString newDate)
    (VObject o).

(** * Properties *)

(** ** The reference refinement of a delegate application *)

Lemma not_found_find {A : Type} (f : A -> bool) (l : list A) :
  not_found (find f l) = negb (existsb f l).
Proof.
  induction l as [|a l IH]; simpl; [reflexivity|].
  destruct (f a); simpl; [reflexivity | exact IH].
Qed.

Lemma addIssue_issues (ctx : RefinementCtx) (i : ZodIssue) :
  addIssue ctx i = mkCtx (ctx_path ctx) (ctx_issues ctx ++ [under (ctx_path ctx) i]).
Proof. reflexivity. Qed.

(** The report of the refinement in closed form: the three committee
    checks, then the three country checks, each filed under the path of
    the refined value, after whatever the context already held. *)
Lemma refineDelegateApply_report (params : RefineParams) (body : DelegateApplyT)
  (ctx : RefinementCtx) :
  let r := reference params in
  await (refineDelegateApply params body ctx) =
    mkCtx (ctx_path ctx)
      (ctx_issues ctx ++
       map (under (ctx_path ctx))
         (committeeCheck r choice1 (choice1committee body) ++
          committeeCheck r choice2 (choice2committee body) ++
          committeeCheck r choice3 (choice3committee body) ++
          countryCheck r choice1 (choice1committee body) (choice1country body) ++
          countryCheck r choice2 (choice2committee body) (choice2country body) ++
          countryCheck r choice3 (choice3committee body) (choice3country body))).
Proof.
  unfold refineDelegateApply, committeeCheck, countryCheck, committeeExists, pairExists.
  fold (reference params).
  destruct (reference params) as [cs ccs]; cbn [committees committeeCountries await].
  rewrite !not_found_find, !negb_involutive.
  destruct ctx as [p iss].
  destruct (existsb _ cs); destruct (existsb _ cs); destruct (existsb _ cs);
    destruct (existsb _ ccs); destruct (existsb _ ccs); destruct (existsb _ ccs);
    cbn [negb andb app map ctx_path ctx_issues addIssue];
    rewrite ?addIssue_issues; cbn [ctx_path ctx_issues];
    rewrite <- ?app_assoc, ?app_nil_r; reflexivity.
Qed.

Lemma addedIssues_report (params : RefineParams) (body : DelegateApplyT) :
  let r := reference params in
  addedIssues params body =
    committeeCheck r choice1 (choice1committee body) ++
    committeeCheck r choice2 (choice2committee body) ++
    committeeCheck r choice3 (choice3committee body) ++
    countryCheck r choice1 (choice1committee body) (choice1country body) ++
    countryCheck r choice2 (choice2committee body) (choice2country body) ++
    countryCheck r choice3 (choice3committee body) (choice3country body).
Proof.
  cbv zeta. unfold addedIssues. rewrite refineDelegateApply_report.
  cbn [ctx_issues ctx_path app].
  unfold committeeCheck, countryCheck.
  destruct (committeeExists _ (choice1committee body));
    destruct (committeeExists _ (choice2committee body));
    destruct (committeeExists _ (choice3committee body));
    destruct (pairExists _ (choice1committee body) _);
    destruct (pairExists _ (choice2committee body) _);
    destruct (pairExists _ (choice3committee body) _); reflexivity.
Qed.

(** What [safeParseAsync] of the refined schema returns, from the parse of
    the bare schema and the issues the refinement adds. *)
Lemma safeParseAsync_refined_report (params : RefineParams) (values : JsValue)
  (r : SyncParseReturn DelegateApplyT) (iss : list ZodIssue) :
  DelegateApply [] values = (r, iss) ->
  safeParseAsync_refined DelegateApply (refineDelegateApply params) values =
    Resolve
      match r with
      | INVALID => Failure iss
      | OK body =>
          match addedIssues params body with
          | [] => Success body
          | added => Failure (iss ++ added)
          end
      | DIRTY body => Failure (iss ++ addedIssues params body)
      end.
Proof.
  intros Hparse. unfold safeParseAsync_refined. rewrite Hparse.
  destruct r as [b | b |]; cbn [refined]; [| | reflexivity].
  - change (ctx_issues (await (refineDelegateApply params b (mkCtx [] []))))
      with (addedIssues params b).
    destruct (addedIssues params b); reflexivity.
  - change (ctx_issues (await (refineDelegateApply params b (mkCtx [] []))))
      with (addedIssues params b).
    destruct (addedIssues params b); cbn [handleResult];
      rewrite ?app_nil_r; reflexivity.
Qed.

Lemma safeParse_Success {A : Type} (schema : ZodType A) (values : JsValue) (a : A) :
  safeParse schema values = Success a ->
  exists iss, schema [] values = (OK a, iss).
Proof.
  unfold safeParse, handleResult.
  destruct (schema [] values) as [[b | b |] iss]; intros H; try discriminate.
  injection H as ->. now exists iss.
Qed.

(** C1. When the committee id of a choice slot does not occur in the
    committee list of the reference tables, the issues the refinement adds
    on that slot's [choiceNcommittee] path are exactly one, an
    [invalid_enum_value] whose options are the ids of all the committees
    of the list, and it adds none on the slot's [choiceNcountry] path,
    whatever the submitted country is. *)
Theorem absent_committee_single_issue (params : RefineParams)
  (body : DelegateApplyT) (s : Slot) :
  committeeExists (reference params) (slotCommittee s body) = false ->
  issuesAt [committeePath s] (addedIssues params body) =
    [ mkIssue invalid_enum_value [committeePath s]
        (Msg "The committee with the given ID was not found")
        (Some (map VNumber (map id (committees (reference params))))) ]
  /\ issuesAt [countryPath s] (addedIssues params body) = [].
Proof.
  intros H. rewrite addedIssues_report. cbv zeta.
  rewrite map_map. unfold committeeCheck, countryCheck.
  destruct s; cbn [slotCommittee] in H; rewrite H; cbn [andb];
    repeat match goal with
           | |- context [committeeExists ?r ?n] => destruct (committeeExists r n)
           | |- context [pairExists ?r ?n ?c] => destruct (pairExists r n c)
           end; split; reflexivity.
Qed.

(** C1 at work: committee 5 is not in the sample tables, and "ZZ" is no
    country of any committee. *)
Lemma absent_committee_single_issue_witness :
  issuesAt ["choice1committee"]
    (addedIssues (Fetched sampleReference) (sampleBody 5 "ZZ" 2 "US" 1 "CZ")) =
    [ mkIssue invalid_enum_value ["choice1committee"]
        (Msg "The committee with the given ID was not found")
        (Some [VNumber 1; VNumber 2]) ]
  /\ issuesAt ["choice1country"]
       (addedIssues (Fetched sampleReference) (sampleBody 5 "ZZ" 2 "US" 1 "CZ")) = [].
Proof.
  apply (absent_committee_single_issue (Fetched sampleReference)
           (sampleBody 5 "ZZ" 2 "US" 1 "CZ") choice1).
  reflexivity.
Defined.

(** C5. When the committee id of a choice slot occurs in the committee
    list but no committee-country row carries the submitted (committee,
    country) pair, the refinement adds on that slot's [choiceNcountry]
    path one [invalid_enum_value] issue whose options are the country
    codes of the rows of that committee, in table order. *)
Theorem country_mismatch_lists_committee_countries (params : RefineParams)
  (body : DelegateApplyT) (s : Slot) :
  committeeExists (reference params) (slotCommittee s body) = true ->
  pairExists (reference params) (slotCommittee s body) (slotCountry s body) = false ->
  issuesAt [countryPath s] (addedIssues params body) =
    [ mkIssue invalid_enum_value [countryPath s]
        (Msg "Invalid country and committee combination")
        (Some (map VString
                 (map country
                    (filter (fun row => committeeId row =? slotCommittee s body)
                       (committeeCountries (reference params)))))) ].
Proof.
  intros Hc Hp. rewrite addedIssues_report. cbv zeta.
  rewrite map_map. unfold committeeCheck, countryCheck.
  destruct s; cbn [slotCommittee slotCountry] in Hc, Hp |- *; rewrite Hc, Hp;
    cbn [andb negb];
    repeat match goal with
           | |- context [committeeExists ?r ?n] => destruct (committeeExists r n)
           | |- context [pairExists ?r ?n ?c] => destruct (pairExists r n c)
           end; reflexivity.
Qed.

(** C5 at work: committee 2 has the countries US and FR; "ZZ" is refused
    with exactly these two as options. *)
Lemma country_mismatch_lists_committee_countries_witness :
  issuesAt ["choice1country"]
    (addedIssues (Fetched sampleReference) (sampleBody 2 "ZZ" 2 "US" 1 "CZ")) =
    [ mkIssue invalid_enum_value ["choice1country"]
        (Msg "Invalid country and committee combination")
        (Some [VString "US"; VString "FR"]) ].
Proof.
  apply (country_mismatch_lists_committee_countries (Fetched sampleReference)
           (sampleBody 2 "ZZ" 2 "US" 1 "CZ") choice1); reflexivity.
Defined.

(** C6. The committee check and the dependent country check are made for
    each of the three slots from that slot's own fields, and every issue
    they raise is in the one report [safeParseAsync] returns: the issues on
    a slot's paths are those of that slot's checks; the report of a body
    that passed the shape checks is the list of all of them; and when all
    three committee ids are absent the report holds an error for each of
    [choice1committee], [choice2committee] and [choice3committee]. *)
Theorem all_slots_checked_and_aggregated (params : RefineParams)
  (body : DelegateApplyT) :
  let r := reference params in
  (forall s, issuesAt [committeePath s] (addedIssues params body) =
             committeeCheck r s (slotCommittee s body)) /\
  (forall s, issuesAt [countryPath s] (addedIssues params body) =
             countryCheck r s (slotCommittee s body) (slotCountry s body)) /\
  (forall values iss,
     DelegateApply [] values = (OK body, iss) ->
     addedIssues params body <> [] ->
     safeParseAsync_refined DelegateApply (refineDelegateApply params) values =
       Resolve (Failure
         (iss ++
          List.concat (map (fun s => committeeCheck r s (slotCommittee s body))
                    [choice1; choice2; choice3]) ++
          List.concat (map (fun s => countryCheck r s (slotCommittee s body)
                                  (slotCountry s body))
                    [choice1; choice2; choice3])))) /\
  ((forall s, committeeExists r (slotCommittee s body) = false) ->
   addedIssues params body =
     map (fun s => committeeNotFound (committees r) (committeePath s))
       [choice1; choice2; choice3]).
Proof.
  cbv zeta. repeat split.
  - intros s. rewrite addedIssues_report. cbv zeta.
    unfold committeeCheck, countryCheck.
    destruct s; cbn [slotCommittee];
      repeat match goal with
             | |- context [committeeExists ?r ?n] => destruct (committeeExists r n)
             | |- context [pairExists ?r ?n ?c] => destruct (pairExists r n c)
             end; reflexivity.
  - intros s. rewrite addedIssues_report. cbv zeta.
    unfold committeeCheck, countryCheck.
    destruct s; cbn [slotCommittee slotCountry];
      repeat match goal with
             | |- context [committeeExists ?r ?n] => destruct (committeeExists r n)
             | |- context [pairExists ?r ?n ?c] => destruct (pairExists r n c)
             end; reflexivity.
  - intros values iss Hparse Hsome.
    rewrite (safeParseAsync_refined_report params values _ _ Hparse).
    destruct (addedIssues params body) as [|i l] eqn:E; [now elim Hsome|].
    rewrite <- E, addedIssues_report. cbv zeta.
    cbn [map List.concat slotCommittee slotCountry].
    rewrite !app_nil_r, <- !app_assoc. reflexivity.
  - intros Habsent. rewrite addedIssues_report. cbv zeta.
    unfold committeeCheck, countryCheck.
    pose proof (Habsent choice1) as A1.
    pose proof (Habsent choice2) as A2.
    pose proof (Habsent choice3) as A3.
    cbn [slotCommittee] in A1, A2, A3. rewrite A1, A2, A3.
    reflexivity.
Qed.

(** C6 at work: none of the committees 5, 6 and 7 is in the sample
    tables; the report names all three slots. *)
Lemma all_slots_checked_and_aggregated_witness :
  addedIssues (Fetched sampleReference) (sampleBody 5 "US" 6 "FR" 7 "CZ") =
    [ committeeNotFound sampleCommittees "choice1committee";
      committeeNotFound sampleCommittees "choice2committee";
      committeeNotFound sampleCommittees "choice3committee" ]
  /\ form_results sampleCommittees sampleCountries
       (VObject (sampleForm VNull 5 "US" 6 "FR" 7 "CZ")) =
     Resolve (Failure
       [ committeeNotFound sampleCommittees "choice1committee";
         committeeNotFound sampleCommittees "choice2committee";
         committeeNotFound sampleCommittees "choice3committee" ]).
Proof.
  pose proof (all_slots_checked_and_aggregated (Fetched sampleReference)
                (sampleBody 5 "US" 6 "FR" 7 "CZ")) as [_ [_ [Hreport Hall]]].
  split.
  - apply Hall. intros s; destruct s; reflexivity.
  - apply (Hreport (VObject (sampleForm VNull 5 "US" 6 "FR" 7 "CZ")) []).
    + reflexivity.
    + discriminate.
Defined.

(** C9. Nothing asks the three choices to differ: when the three slots
    name one committee, that committee is in the committee list and each
    submitted country is a country of it, the refinement adds no issue and
    a body that passed the shape checks is accepted as it is. *)
Theorem same_committee_in_all_slots_accepted (params : RefineParams)
  (values : JsValue) (body : DelegateApplyT) (n : Z) :
  safeParse DelegateApply values = Success body ->
  choice1committee body = n ->
  choice2committee body = n ->
  choice3committee body = n ->
  committeeExists (reference params) n = true ->
  pairExists (reference params) n (choice1country body) = true ->
  pairExists (reference params) n (choice2country body) = true ->
  pairExists (reference params) n (choice3country body) = true ->
  addedIssues params body = []
  /\ safeParseAsync_refined DelegateApply (refineDelegateApply params) values =
     Resolve (Success body).
Proof.
  intros Hshape H1 H2 H3 Hc Hp1 Hp2 Hp3.
  assert (Hnone : addedIssues params body = []).
  { rewrite addedIssues_report. cbv zeta. unfold committeeCheck, countryCheck.
    rewrite H1, H2, H3, Hc, Hp1, Hp2, Hp3. reflexivity. }
  split; [exact Hnone|].
  destruct (safeParse_Success _ _ _ Hshape) as [iss Hparse].
  rewrite (safeParseAsync_refined_report params values _ _ Hparse), Hnone.
  reflexivity.
Qed.

(** C9 at work: committee 2 three times, with its countries US, FR, US. *)
Lemma same_committee_in_all_slots_accepted_witness :
  addedIssues (Fetched sampleReference) (sampleBody 2 "US" 2 "FR" 2 "US") = []
  /\ form_results sampleCommittees sampleCountries
       (VObject (sampleForm VNull 2 "US" 2 "FR" 2 "US")) =
     Resolve (Success (sampleBody 2 "US" 2 "FR" 2 "US")).
Proof.
  apply (same_committee_in_all_slots_accepted (Fetched sampleReference)
           (VObject (sampleForm VNull 2 "US" 2 "FR" 2 "US"))
           (sampleBody 2 "US" 2 "FR" 2 "US") 2); reflexivity.
Defined.

(** ** Shape checks *)

Lemma runChecks_pass {A : Type} (checks : list (Check A)) (p : list string) (a : A) :
  forallb (fun c => test c a) checks = true ->
  runChecks checks p a = (OK a, []).
Proof.
  induction checks as [|c rest IH]; cbn [forallb runChecks]; [reflexivity|].
  intros H. apply andb_prop in H as [Hc Hrest].
  rewrite (IH Hrest), Hc. reflexivity.
Qed.

Lemma bounded_string_pass (lo hi : nat) (m1 m2 : IssueMessage) (p : list string)
  (s : string) :
  (lo <= String.length s <= hi)%nat ->
  ZodString [str_max hi m1; str_min lo m2] p (VString s) = (OK s, []).
Proof.
  intros [Hlo Hhi]. apply runChecks_pass.
  cbn [forallb test str_max str_min].
  apply Nat.leb_le in Hlo, Hhi. rewrite Hlo, Hhi. reflexivity.
Qed.

Lemma min_string_pass (lo : nat) (m : IssueMessage) (p : list string) (s : string) :
  (lo <= String.length s)%nat ->
  ZodString [str_min lo m] p (VString s) = (OK s, []).
Proof.
  intros Hlo. apply runChecks_pass.
  cbn [forallb test str_min].
  apply Nat.leb_le in Hlo. rewrite Hlo. reflexivity.
Qed.

Lemma committeeChoice_pass (p : list string) (n : Z) :
  0 <= n -> committeeChoice p (VNumber n) = (OK n, []).
Proof.
  intros Hn. apply runChecks_pass.
  cbn [forallb test num_min].
  apply Z.leb_le in Hn. rewrite Hn. reflexivity.
Qed.

Lemma delegationId_normalized (p : list string) (submitted : option Z) :
  preprocess minusOneToNull (ZodNullable (ZodNumber DefaultMsg [])) p
    (nullOr VNumber submitted) =
  (OK (normalizedDelegation submitted), []).
Proof.
  destruct submitted as [n|]; cbn [nullOr normalizedDelegation];
    unfold preprocess, minusOneToNull; [|reflexivity].
  destruct (n =? -1); reflexivity.
Qed.

Lemma nullable_enum_pass (values : list string) (p : list string)
  (x : option string) :
  (forall s, x = Some s -> In s values) ->
  ZodNullable (ZodEnum values) p (nullOr VString x) = (OK x, []).
Proof.
  intros Hin. destruct x as [s|]; cbn [nullOr ZodNullable ZodEnum]; [|reflexivity].
  assert (E : existsb (String.eqb s) values = true).
  { apply existsb_exists. exists s. split; [now apply Hin | apply String.eqb_refl]. }
  rewrite E. reflexivity.
Qed.

(** A well-shaped form parses to its normalized body without an issue. *)
Lemma wellShaped_parse (o : list (string * JsValue)) (submitted : option Z)
  (d : DelegateApplyT) :
  wellShaped o submitted d ->
  DelegateApply [] (VObject o) = (OK d, []).
Proof.
  intros [Hu Hm Hml He Hel Hd Hn Hc Hcm Hk Hkl Hs Hse].
  pose proof (Hc choice1) as Hc1. pose proof (Hc choice2) as Hc2.
  pose proof (Hc choice3) as Hc3. pose proof (Hk choice1) as Hk1.
  pose proof (Hk choice2) as Hk2. pose proof (Hk choice3) as Hk3.
  cbn [committeePath countryPath] in Hc1, Hc2, Hc3, Hk1, Hk2, Hk3.
  unfold DelegateApply, ZodObject, DelegateApply_shape, key.
  rewrite Hu, Hm, He, Hd, Hc1, Hc2, Hc3, Hk1, Hk2, Hk3, Hs.
  rewrite (bounded_string_pass _ _ _ _ _ _ Hml), (bounded_string_pass _ _ _ _ _ _ Hel).
  rewrite delegationId_normalized, <- Hn.
  rewrite (committeeChoice_pass _ _ (Hcm choice1)),
    (committeeChoice_pass _ _ (Hcm choice2)),
    (committeeChoice_pass _ _ (Hcm choice3)).
  unfold countryChoice.
  rewrite (min_string_pass _ _ _ _ (Hkl choice1)),
    (min_string_pass _ _ _ _ (Hkl choice2)),
    (min_string_pass _ _ _ _ (Hkl choice3)).
  rewrite (nullable_enum_pass _ _ _ Hse).
  destruct d; reflexivity.
Qed.

(** C8. A form whose every field satisfies its shape constraint and whose
    committees and (committee, country) pairs all exist in the reference
    tables is accepted without an error, by the bare schema and by the
    schema with the reference refinement, and the accepted value is the
    normalized body; a submitted delegation id of -1 is [null] in it. *)
Theorem wellShaped_with_references_accepted (params : RefineParams)
  (o : list (string * JsValue)) (submitted : option Z) (d : DelegateApplyT) :
  wellShaped o submitted d ->
  referencesExist (reference params) d ->
  safeParse DelegateApply (VObject o) = Success d
  /\ safeParseAsync_refined DelegateApply (refineDelegateApply params) (VObject o) =
     Resolve (Success d)
  /\ addedIssues params d = []
  /\ (submitted = Some (-1) -> delegationId d = None).
Proof.
  intros Hshape Hrefs.
  pose proof (wellShaped_parse _ _ _ Hshape) as Hparse.
  assert (Hnone : addedIssues params d = []).
  { rewrite addedIssues_report. cbv zeta. unfold committeeCheck, countryCheck.
    destruct (Hrefs choice1) as [C1 P1].
    destruct (Hrefs choice2) as [C2 P2].
    destruct (Hrefs choice3) as [C3 P3].
    cbn [slotCommittee slotCountry] in C1, C2, C3, P1, P2, P3.
    rewrite C1, C2, C3, P1, P2, P3. reflexivity. }
  repeat split.
  - unfold safeParse. rewrite Hparse. reflexivity.
  - rewrite (safeParseAsync_refined_report params _ _ _ Hparse), Hnone. reflexivity.
  - exact Hnone.
  - intros ->. rewrite (shape_normalized _ _ _ Hshape). reflexivity.
Qed.

(** C8 at work: a form sent with delegation id -1 comes back with
    [delegationId] null. *)
Lemma wellShaped_with_references_accepted_witness :
  form_results sampleCommittees sampleCountries
    (VObject (sampleForm (VNumber (-1)) 2 "US" 2 "FR" 1 "CZ")) =
    Resolve (Success (sampleBody 2 "US" 2 "FR" 1 "CZ"))
  /\ delegationId (sampleBody 2 "US" 2 "FR" 1 "CZ") = None.
Proof.
  destruct (wellShaped_with_references_accepted (Fetched sampleReference)
              (sampleForm (VNumber (-1)) 2 "US" 2 "FR" 1 "CZ") (Some (-1))
              (sampleBody 2 "US" 2 "FR" 1 "CZ"))
    as [_ [Hasync [_ Hminus]]].
  - constructor; try reflexivity; try (cbn; lia).
    + intros s; destruct s; reflexivity.
    + intros s; destruct s; cbn; lia.
    + intros s; destruct s; reflexivity.
    + intros s; destruct s; cbn; lia.
    + intros size H. injection H as <-. cbn. tauto.
  - intros s; destruct s; split; reflexivity.
  - split; [exact Hasync | exact (Hminus eq_refl)].
Defined.

(** ** The request validator *)

Lemma parsePart_result (schema : option ZodTypeAny) (data : JsValue)
  (r : option (SafeParseReturn JsValue)) (errors : list ZodError) :
  parsesTo schema data r ->
  parsePart schema data errors = Normal (errors ++ errorOf r).
Proof.
  destruct schema as [s|], r as [result|]; cbn [parsesTo]; try contradiction.
  - intros H. unfold parsePart. rewrite H. cbn [bind].
    destruct result; cbn [errorOf]; rewrite ?app_nil_r; reflexivity.
  - intros _. cbn [parsePart errorOf]. now rewrite app_nil_r.
Qed.

(** C2. With a body schema and/or a query schema, each supplied part is
    parsed on its own and the errors of both are gathered before anything
    is answered: when none failed the validator calls [next]; when any
    failed it answers with status 422 and the document [{ statusCode: 422,
    message: "Bad Request", description }] whose description lists the
    error of each failed part, body first.  In particular a valid body
    with an invalid query yields a description holding the query's error
    alone. *)
Theorem validate_collects_errors_of_both_parts (options : ValidateOptions)
  (x : Exchange) (rb rq : option (SafeParseReturn JsValue)) :
  parsesTo (body options) (req_body (req x)) rb ->
  parsesTo (query options) (req_query (req x)) rq ->
  validate options x =
    Normal
      match errorOf rb ++ errorOf rq with
      | [] => mkExchange (req x) (res x) (S (nextCalls x))
      | errors =>
          mkExchange (req x)
            (mkResponse 422 (Some (Response.mk 422 "Bad Request" errors)))
            (nextCalls x)
      end
  /\ (forall v e,
        rb = Some (Success v) -> rq = Some (Failure e) ->
        validate options x =
          Normal
            (mkExchange (req x)
               (mkResponse 422 (Some (Response.mk 422 "Bad Request" [e])))
               (nextCalls x))).
Proof.
  intros Hb Hq.
  assert (Hv : validate options x =
    Normal
      match errorOf rb ++ errorOf rq with
      | [] => mkExchange (req x) (res x) (S (nextCalls x))
      | errors =>
          mkExchange (req x)
            (mkResponse 422 (Some (Response.mk 422 "Bad Request" errors)))
            (nextCalls x)
      end).
  { unfold validate.
    rewrite (parsePart_result _ _ _ [] Hb). cbn [bind app].
    rewrite (parsePart_result _ _ _ _ Hq). cbn [bind].
    destruct (errorOf rb ++ errorOf rq); reflexivity. }
  split; [exact Hv|].
  intros v e -> ->. exact Hv.
Qed.

(** C2 at work: the body is a well-formed application, the query schema
    (the same shape) is given a string; the answer lists one error, the
    query's. *)
Lemma validate_collects_errors_of_both_parts_witness :
  validate
    (mkOptions (Some (plainSchema DelegateApply_data DelegateApply))
       (Some (plainSchema DelegateApply_data DelegateApply)) None)
    (sampleExchange (VObject (sampleForm VNull 2 "US" 2 "FR" 1 "CZ")) (VString "x")) =
  Normal
    (mkExchange
       (mkRequest (VObject (sampleForm VNull 2 "US" 2 "FR" 1 "CZ")) (VString "x"))
       (mkResponse 422
          (Some (Response.mk 422 "Bad Request"
                   [[mkIssue invalid_type [] DefaultMsg None]])))
       0).
Proof.
  refine (proj2 (validate_collects_errors_of_both_parts
            (mkOptions (Some (plainSchema DelegateApply_data DelegateApply))
               (Some (plainSchema DelegateApply_data DelegateApply)) None)
            (sampleExchange (VObject (sampleForm VNull 2 "US" 2 "FR" 1 "CZ"))
               (VString "x"))
            (Some (Success (DelegateApply_data (sampleBody 2 "US" 2 "FR" 1 "CZ"))))
            (Some (Failure [mkIssue invalid_type [] DefaultMsg None]))
            _ _) _ _ eq_refl eq_refl); reflexivity.
Defined.

(** On the route of the delegate application the parsed value does not
    take the place of the body: the form is accepted and [next] is
    called, but the request still holds the submitted body, delegation id
    -1 included, not the parsed one whose delegation id is [null]. *)
Lemma parsed_value_does_not_replace_body :
  ~ forwardsParsedInput put_options
      (sampleExchange (VObject (sampleForm (VNumber (-1)) 2 "US" 2 "FR" 1 "CZ"))
         VUndefined).
Proof.
  intros H.
  destruct H as [x' [Hv [_ [Hbody _]]]].
  - exists (DelegateApply_data (sampleBody 2 "US" 2 "FR" 1 "CZ")). reflexivity.
  - exact I.
  - vm_compute in Hv. injection Hv as <-.
    specialize (Hbody (plainSchema DelegateApply_data DelegateApply)
                  (DelegateApply_data (sampleBody 2 "US" 2 "FR" 1 "CZ"))
                  eq_refl eq_refl).
    vm_compute in Hbody. discriminate Hbody.
Qed.

(** What the validator does when every supplied part is accepted: [next]
    is called once, no answer is written, and the request is left as it
    came in. *)
Theorem validate_forwards_request_unchanged (options : ValidateOptions)
  (x : Exchange) :
  partAccepted (body options) (req_body (req x)) ->
  partAccepted (query options) (req_query (req x)) ->
  validate options x = Normal (mkExchange (req x) (res x) (S (nextCalls x))).
Proof.
  intros Hb Hq. unfold validate, parsePart.
  destruct (body options) as [b|], (query options) as [q|];
    cbn [partAccepted] in Hb, Hq;
    repeat match goal with
           | H : exists _, _ |- _ => destruct H as [? H]; rewrite H
           end; reflexivity.
Qed.

(** The same on the route of the delegate application. *)
Lemma validate_forwards_request_unchanged_witness :
  put_validate
    (sampleExchange (VObject (sampleForm (VNumber (-1)) 2 "US" 2 "FR" 1 "CZ"))
       VUndefined) =
  Normal
    (mkExchange
       (mkRequest (VObject (sampleForm (VNumber (-1)) 2 "US" 2 "FR" 1 "CZ"))
          VUndefined)
       (mkResponse 200 None) 1).
Proof.
  apply (validate_forwards_request_unchanged put_options
           (sampleExchange
              (VObject (sampleForm (VNumber (-1)) 2 "US" 2 "FR" 1 "CZ")) VUndefined)).
  - exists (DelegateApply_data (sampleBody 2 "US" 2 "FR" 1 "CZ")). reflexivity.
  - exact I.
Defined.

(** C3 on the code.  The schema turns a delegation id of -1 into [null]
    ("-1 is taken as no delegation"), and the handler of the route reads
    [req.body] as the parsed application and stores it.  But [validate]
    never writes the parsed value back: a form sent with delegation id -1
    is accepted and parses to a value whose [delegationId] is [null], yet
    after [next] the request holds the body as submitted, and the record
    the handler hands to [create] carries the -1. *)
Theorem put_route_keeps_raw_body :
  let raw := VObject (sampleForm (VNumber (-1)) 2 "US" 2 "FR" 1 "CZ") in
  let x := sampleExchange raw VUndefined in
  (exists parsed,
     any_safeParse (plainSchema DelegateApply_data DelegateApply) raw =
       Normal (Success parsed)
     /\ getProp "delegationId" (ownProps parsed) = VNull)
  /\ put_validate x = Normal (next x)
  /\ req_body (req (next x)) = raw
  /\ getProp "delegationId"
       (ownProps (newApplicationData (req_body (req (next x))) 7)) = VNumber (-1)
  /\ ~ forwardsParsedInput put_options x.
Proof.
  cbv zeta. split; [|split; [|split; [|split]]].
  - exists (DelegateApply_data (sampleBody 2 "US" 2 "FR" 1 "CZ")).
    split; reflexivity.
  - reflexivity.
  - reflexivity.
  - reflexivity.
  - exact parsed_value_does_not_replace_body.
Qed.

(** C4 on the code.  [validate] reads no [async] option and calls the
    synchronous [safeParse] only.  A schema topped by the asynchronous
    reference refinement is therefore never evaluated to an outcome: on a
    form the asynchronous parse accepts, the validator throws instead of
    calling [next].  The route itself passes the bare [DelegateApply]
    with [async: true]: a form naming committee 5, which the tables do
    not hold and the refined schema refuses, is passed on. *)
Theorem validate_ignores_async_option :
  (forall b q a x, validate (mkOptions b q a) x = validate (mkOptions b q None) x)
  /\ (let refinedApply :=
        refinedSchema DelegateApply_data DelegateApply
          (refineDelegateApply (Fetched sampleReference)) in
      let x := sampleExchange (VObject (sampleForm VNull 2 "US" 2 "FR" 1 "CZ"))
                 VUndefined in
      any_safeParseAsync refinedApply (req_body (req x)) =
        Resolve (Success (DelegateApply_data (sampleBody 2 "US" 2 "FR" 1 "CZ")))
      /\ validate (mkOptions (Some refinedApply) None (Some true)) x = Throw)
  /\ (let x := sampleExchange (VObject (sampleForm VNull 5 "US" 2 "FR" 1 "CZ"))
                 VUndefined in
      form_results sampleCommittees sampleCountries (req_body (req x)) =
        Resolve (Failure [committeeNotFound sampleCommittees "choice1committee"])
      /\ put_validate x = Normal (next x)).
Proof.
  repeat split.
Qed.

(** ** Objects: status, value and issues of merged keys *)

Lemma ap_valid {A B : Type} (pf : Parse (A -> B)) (pa : Parse A) :
  isValid (fst (ap pf pa)) = isValid (fst pf) && isValid (fst pa).
Proof. destruct pf as [[f | f |] ?], pa as [[a | a |] ?]; reflexivity. Qed.

Lemma ap_value {A B : Type} (pf : Parse (A -> B)) (pa : Parse A) :
  valueOf (fst (ap pf pa)) =
    match valueOf (fst pf) with
    | Some f => option_map f (valueOf (fst pa))
    | None => None
    end.
Proof. destruct pf as [[f | f |] ?], pa as [[a | a |] ?]; reflexivity. Qed.

Lemma ap_issues {A B : Type} (pf : Parse (A -> B)) (pa : Parse A) :
  snd (ap pf pa) = snd pf ++ snd pa.
Proof. reflexivity. Qed.

(** ** Paths of the issues a schema files *)

Create HintDb paths.

Lemma runChecks_paths {A : Type} (checks : list (Check A)) (p : list string) (a : A) :
  Forall (fun i => path i = p) (snd (runChecks checks p a)).
Proof.
  induction checks as [|c rest IH]; cbn [runChecks]; [constructor|].
  destruct (runChecks rest p a) as [r iss]. cbn [snd] in IH.
  destruct (test c a); cbn [snd]; [exact IH | now constructor].
Qed.

Lemma invalidType_paths {A : Type} (m : IssueMessage) (p : list string) (v : JsValue) :
  Forall (fun i => path i = p) (snd (@invalidType A m p v)).
Proof. repeat constructor. Qed.

Lemma ZodString_paths (checks : list (Check string)) : wellPathed (ZodString checks).
Proof.
  intros p v. destruct v; try apply invalidType_paths. apply runChecks_paths.
Qed.

Lemma ZodDate_paths : wellPathed ZodDate.
Proof.
  intros p v. destruct v as [ | | | | | [t|] | ]; try apply invalidType_paths;
    repeat constructor.
Qed.

Lemma ZodEnum_paths (values : list string) : wellPathed (ZodEnum values).
Proof.
  intros p v. destruct v; try apply invalidType_paths.
  cbn [ZodEnum]. destruct (existsb _ values); repeat constructor.
Qed.

Lemma ZodNullable_paths {A : Type} (inner : ZodType A) :
  wellPathed inner -> wellPathed (ZodNullable inner).
Proof.
  intros H p v. unfold ZodNullable.
  destruct v; try constructor;
    match goal with
    | |- context [inner p ?w] =>
        specialize (H p w); destruct (inner p w); exact H
    end.
Qed.

Lemma ZodDefault_paths {A : Type} (inner : ZodType A) (dflt : JsValue) :
  wellPathed inner -> wellPathed (ZodDefault inner dflt).
Proof. intros H p v. destruct v; apply H. Qed.

Lemma refine_paths {A : Type} (inner : ZodType A) (check : A -> bool)
  (m : IssueMessage) :
  wellPathed inner -> wellPathed (refine inner check m).
Proof.
  intros H p v. unfold refine. specialize (H p v).
  destruct (inner p v) as [[a | a |] iss]; cbn [snd] in *;
    try destruct (check a); cbn [snd]; try exact H;
    apply Forall_app; split; try exact H; repeat constructor.
Qed.

Lemma transform_paths {A B : Type} (inner : ZodType A) (f : A -> B) :
  wellPathed inner -> wellPathed (transform inner f).
Proof.
  intros H p v. unfold transform. specialize (H p v).
  destruct (inner p v) as [[a | a |] iss]; exact H.
Qed.

Lemma unionFrom_paths {A : Type} (opts : list (ZodType A))
  (firstDirty : option (Parse A)) (p : list string) (v : JsValue) :
  Forall wellPathed opts ->
  (forall d, firstDirty = Some d -> Forall (fun i => path i = p) (snd d)) ->
  Forall (fun i => path i = p) (snd (unionFrom opts firstDirty p v)).
Proof.
  intros Hopts. revert firstDirty.
  induction Hopts as [|o rest Ho _ IH]; intros firstDirty Hd; cbn [unionFrom].
  - destruct firstDirty as [d|]; [now apply Hd | repeat constructor].
  - specialize (Ho p v).
    destruct (o p v) as [[a | a |] iss]; cbn [snd] in Ho.
    + constructor.
    + apply IH. intros d E.
      destruct firstDirty as [d0|]; injection E as <-; [now apply Hd | exact Ho].
    + now apply IH.
Qed.

Lemma ZodUnion_paths {A : Type} (opts : list (ZodType A)) :
  Forall wellPathed opts -> wellPathed (ZodUnion opts).
Proof.
  intros H p v. apply unionFrom_paths; [exact H | discriminate].
Qed.

#[export] Hint Resolve ZodString_paths ZodDate_paths ZodEnum_paths
  ZodNullable_paths ZodDefault_paths refine_paths transform_paths
  ZodUnion_paths : paths.

(** The issues of a key of an object at the root sit on the key. *)
Lemma key_paths {A : Type} (o : list (string * JsValue)) (k : string)
  (schema : ZodType A) (i : ZodIssue) :
  wellPathed schema -> In i (snd (key [] o k schema)) -> path i = [k].
Proof.
  intros H Hin. unfold key in Hin.
  pose proof (H ([] ++ [k]) (getProp k o)) as Hall.
  rewrite Forall_forall in Hall. exact (Hall i Hin).
Qed.

(** ** The signup schema *)

Section SignupProperties.

Variable isEmail : string -> bool.
Variable isMobilePhone : string -> bool.
Variable isISO31661Alpha2 : string -> bool.
Variable nowISOString : string.
Variable newDate : string -> option Z.

Local Abbreviation Signup :=
  (SignupSchema isEmail isMobilePhone isISO31661Alpha2 nowISOString newDate).
Local Abbreviation Signup_shape :=
  (SignupSchema_shape isEmail isMobilePhone isISO31661Alpha2 nowISOString newDate).
Local Abbreviation Signup_phone := (SignupSchema_phone isMobilePhone).
Local Abbreviation Signup_birthdate := (SignupSchema_birthdate nowISOString newDate).

(** An empty phone and a [null] phone parse alike: no issue, value
    [null], and [isMobilePhone] is not consulted. *)
Lemma phone_falsy (p : list string) :
  Signup_phone p (VString "") = (OK None, [])
  /\ Signup_phone p VNull = (OK None, []).
Proof. split; reflexivity. Qed.

(** Where the phone schema is dirty, its transform changes nothing: the
    value is a non-empty string. *)
Lemma phone_dirty_untransformed (p : list string) (v : JsValue)
  (a : option string) (iss : list ZodIssue) :
  refine (ZodNullable (ZodString [])) (phoneCheck isMobilePhone)
    (Msg "Invalid phone number") p v = (DIRTY a, iss) ->
  phoneOrNull a = a.
Proof.
  unfold refine.
  destruct v; cbn; try discriminate.
  destruct (negb (s =? "")%string) eqn:E; [|discriminate].
  destruct (isMobilePhone s); [discriminate|].
  intros H. injection H as <- _.
  unfold phoneOrNull. cbn [truthy]. rewrite E. reflexivity.
Qed.

Lemma Signup_phone_paths : wellPathed Signup_phone.
Proof. unfold SignupSchema_phone. auto with paths. Qed.

Lemma Signup_birthdate_paths : wellPathed Signup_birthdate.
Proof.
  unfold SignupSchema_birthdate. apply ZodUnion_paths.
  repeat constructor; auto with paths.
Qed.

(** The parse of the object, key by key. *)
Lemma Signup_shape_issues (o : list (string * JsValue)) :
  snd (Signup_shape [] o) =
    snd (key [] o "email" (ZodString [str_email isEmail])) ++
    snd (key [] o "password"
           (ZodString [str_min 8 (Msg "Password must be at least 8 characters")])) ++
    snd (key [] o "passwordConfirm" (ZodString [])) ++
    snd (key [] o "firstname" (ZodString [str_min 1 (Msg "Please enter first name")])) ++
    snd (key [] o "lastname" (ZodString [str_min 1 (Msg "Please enter last name")])) ++
    snd (key [] o "phone" Signup_phone) ++
    snd (key [] o "birthdate" Signup_birthdate) ++
    snd (key [] o "nationality" (refine (ZodString []) isISO31661Alpha2 DefaultMsg)) ++
    snd (key [] o "schoolname" (ZodNullable (ZodString []))) ++
    snd (key [] o "dietary" (ZodNullable DietaryOptions)) ++
    snd (key [] o "otherInfo" (ZodNullable (ZodString [str_max 400 DefaultMsg]))).
Proof.
  unfold SignupSchema_shape. rewrite !ap_issues. cbn [pure snd app].
  rewrite <- !app_assoc. reflexivity.
Qed.

(** The value of the object holds the values of its keys. *)
Lemma Signup_shape_value (o : list (string * JsValue)) (d : SignupSchemaType) :
  valueOf (fst (Signup_shape [] o)) = Some d ->
  valueOf (fst (key [] o "password"
                  (ZodString
                     [str_min 8 (Msg "Password must be at least 8 characters")]))) =
    Some (password d)
  /\ valueOf (fst (key [] o "passwordConfirm" (ZodString []))) =
     Some (passwordConfirm d)
  /\ valueOf (fst (key [] o "phone" Signup_phone)) = Some (phone d).
Proof.
  unfold SignupSchema_shape. rewrite !ap_value. cbn [pure fst valueOf].
  repeat match goal with
         | |- context [valueOf (fst (key [] o ?k ?s))] =>
             destruct (valueOf (fst (key [] o k s)));
             cbn [option_map]; [|discriminate]
         end.
  intros H. injection H as <-. repeat split.
Qed.

(** A valid object has valid keys. *)
Lemma Signup_shape_valid (o : list (string * JsValue)) :
  isValid (fst (Signup_shape [] o)) = true ->
  isValid (fst (key [] o "password"
                  (ZodString
                     [str_min 8 (Msg "Password must be at least 8 characters")]))) =
    true.
Proof.
  unfold SignupSchema_shape. rewrite !ap_valid. cbn [pure fst isValid].
  intros H. repeat (apply andb_prop in H as [H ?]). assumption.
Qed.

Lemma phone_pass (p : list string) (submitted : option string) :
  phoneCheck isMobilePhone submitted = true ->
  Signup_phone p (nullOr VString submitted) = (OK (phoneOrNull submitted), []).
Proof.
  intros H. unfold SignupSchema_phone, transform, refine.
  destruct submitted as [s|]; cbn [nullOr ZodNullable ZodString runChecks mapReturn].
  - rewrite H. reflexivity.
  - reflexivity.
Qed.

Lemma nullable_string_pass (checks : list (Check string)) (p : list string)
  (x : option string) :
  (forall s, x = Some s -> forallb (fun c => test c s) checks = true) ->
  ZodNullable (ZodString checks) p (nullOr VString x) = (OK x, []).
Proof.
  intros H. destruct x as [s|]; cbn [nullOr ZodNullable ZodString]; [|reflexivity].
  rewrite (runChecks_pass checks p s (H s eq_refl)). reflexivity.
Qed.

(** With the other fields valid and a password of 8 characters or more,
    the object parses without an issue. *)
Lemma Signup_shape_parse (o : list (string * JsValue)) (submittedPhone : option string)
  (d : SignupSchemaType) (pw confirm : string) :
  othersValid isEmail isMobilePhone isISO31661Alpha2 nowISOString newDate
    o submittedPhone d ->
  getProp "password" o = VString pw ->
  (8 <= String.length pw)%nat ->
  getProp "passwordConfirm" o = VString confirm ->
  Signup_shape [] o =
    (OK (mkSignup (email d) pw confirm (firstname d) (lastname d) (phone d)
           (birthdate d) (nationality d) (schoolname d) (dietary d) (otherInfo d)),
     []).
Proof.
  intros [He Hef Hf Hfl Hl Hll Hp Hpf Hpv Hb Hn Hnc Hs Hd Hde Ho Hol] Hpw Hlen Hc.
  assert (Hbirth : Signup_birthdate ([] ++ ["birthdate"]) (getProp "birthdate" o) =
                   (OK (birthdate d), [])).
  { destruct Hb as [[-> ->] | [[s [-> ->]] | [t [-> ->]]]]; reflexivity. }
  unfold SignupSchema_shape, key.
  rewrite Hbirth, He, Hpw, Hc, Hf, Hl, Hp, Hn, Hs, Hd, Ho.
  rewrite (min_string_pass _ _ _ _ Hlen), (min_string_pass _ _ _ _ Hfl),
    (min_string_pass _ _ _ _ Hll).
  rewrite (phone_pass _ _ Hpf), <- Hpv.
  unfold DietaryOptions. rewrite (nullable_enum_pass _ _ _ Hde).
  rewrite (nullable_string_pass [] _ (schoolname d)) by reflexivity.
  rewrite (nullable_string_pass [str_max 400 DefaultMsg] _ (otherInfo d)).
  2:{ intros s E. cbn [forallb test str_max].
      pose proof (Hol s E) as Hle. apply Nat.leb_le in Hle. rewrite Hle. reflexivity. }
  unfold refine.
  cbn [ZodString].
  rewrite (runChecks_pass [str_email isEmail])
    by (cbn [forallb test str_email]; now rewrite Hef).
  cbn [runChecks]. rewrite Hnc. reflexivity.
Qed.

(** C7. A signup with password "abc" and confirmation "abc" is refused
    with the 8-character error on [password], and nothing is filed on
    [passwordConfirm], so no mismatch; whatever the other fields hold.  A
    signup with password "longenough1" and confirmation "different1",
    the other fields valid, is refused with exactly one issue, the
    [custom] one on [passwordConfirm] saying the passwords do not
    match. *)
Theorem signup_password_length_then_match (o : list (string * JsValue)) :
  (getProp "password" o = VString "abc" ->
   getProp "passwordConfirm" o = VString "abc" ->
   exists e,
     safeParse Signup (VObject o) = Failure e
     /\ In passwordTooShort e
     /\ (forall i, In i e -> path i <> ["passwordConfirm"])
     /\ ~ In passwordsDoNotMatch e)
  /\ (forall submittedPhone d,
        othersValid isEmail isMobilePhone isISO31661Alpha2 nowISOString newDate
          o submittedPhone d ->
        getProp "password" o = VString "longenough1" ->
        getProp "passwordConfirm" o = VString "different1" ->
        safeParse Signup (VObject o) =
          Failure [mkIssue custom ["passwordConfirm"]
                     (Msg "Passwords do not match") None]).
Proof.
  split.
  - intros Hpw Hc.
    assert (Kpw : key [] o "password"
                    (ZodString
                       [str_min 8 (Msg "Password must be at least 8 characters")]) =
                  (DIRTY "abc", [passwordTooShort])).
    { unfold key. rewrite Hpw. reflexivity. }
    assert (Kc : key [] o "passwordConfirm" (ZodString []) = (OK "abc", [])).
    { unfold key. rewrite Hc. reflexivity. }
    pose proof (Signup_shape_issues o) as Hiss.
    pose proof (Signup_shape_value o) as Hval.
    pose proof (Signup_shape_valid o) as Hvalid.
    rewrite Kpw, Kc in *. cbn [fst snd valueOf isValid] in *.
    unfold safeParse, SignupSchema, superRefine, ZodObject.
    destruct (Signup_shape [] o) as [r iss]. cbn [fst snd] in *.
    exists iss.
    assert (Hpaths : forall i, In i iss -> path i <> ["passwordConfirm"]).
    { intros i Hin. rewrite Hiss in Hin.
      repeat (apply in_app_or in Hin as [Hin | Hin]);
        match type of Hin with
        | In i [] => destruct Hin
        | In i [passwordTooShort] => destruct Hin as [<- | []]; discriminate
        | In i (snd (key [] o ?k ?schema)) =>
            assert (Hp : path i = [k])
              by (apply (key_paths o k schema i);
                  [ unfold DietaryOptions;
                    auto using Signup_phone_paths, Signup_birthdate_paths with paths
                  | exact Hin ]);
            rewrite Hp; discriminate
        end. }
    repeat split.
    + destruct r as [d | d |].
      * discriminate (Hvalid eq_refl).
      * destruct (Hval d eq_refl) as [Ep [Ec _]].
        injection Ep as Ep. injection Ec as Ec.
        cbn [refined]. unfold SignupSchema_refinement.
        rewrite <- Ep, <- Ec. reflexivity.
      * reflexivity.
    + rewrite Hiss. apply in_or_app. right. apply in_or_app. left. now left.
    + exact Hpaths.
    + intros Hin. exact (Hpaths _ Hin eq_refl).
  - intros ph d Hothers Hpw Hc.
    unfold safeParse, SignupSchema, superRefine, ZodObject.
    rewrite (Signup_shape_parse o ph d "longenough1" "different1" Hothers Hpw
               ltac:(cbn; lia) Hc).
    reflexivity.
Qed.

(** C10, amended. A signup whose phone is the empty string: the phone
    raises no issue, whatever [isMobilePhone] would say of the empty
    string; an accepted value has [phone] null; and the result is that of
    the same form with a [null] phone.  A form without a phone is another
    matter: the key is nullable, not optional, and its absence is refused
    with an [invalid_type] issue on [phone]. *)
Theorem empty_phone_normalized_to_null (o o' : list (string * JsValue)) :
  getProp "phone" o = VString "" ->
  key [] o "phone" Signup_phone = (OK None, [])
  /\ (forall d, safeParse Signup (VObject o) = Success d -> phone d = None)
  /\ (getProp "phone" o' = VNull ->
      (forall k, k <> "phone" -> getProp k o' = getProp k o) ->
      safeParse Signup (VObject o') = safeParse Signup (VObject o))
  /\ (getProp "phone" o' = VUndefined ->
      exists e,
        safeParse Signup (VObject o') = Failure e
        /\ In (mkIssue invalid_type ["phone"] DefaultMsg None) e).
Proof.
  intros Hphone.
  assert (Kphone : key [] o "phone" Signup_phone = (OK None, [])).
  { unfold key. rewrite Hphone. reflexivity. }
  split; [exact Kphone|]. split; [|split].
  - intros d. unfold safeParse, SignupSchema, superRefine, ZodObject.
    pose proof (Signup_shape_value o) as Hval.
    destruct (Signup_shape [] o) as [r iss]. cbn [fst] in Hval.
    destruct r as [a | a |]; cbn [refined]; try discriminate.
    + destruct (ctx_issues _); cbn [handleResult]; [|discriminate].
      intros H. injection H as <-.
      destruct (Hval a eq_refl) as [_ [_ Hp]].
      rewrite Kphone in Hp. now injection Hp.
    + destruct (ctx_issues _); discriminate.
  - intros Hnull Hsame.
    assert (Hshape : Signup_shape [] o' = Signup_shape [] o).
    { unfold SignupSchema_shape, key.
      rewrite Hphone, Hnull.
      rewrite (Hsame "email"), (Hsame "password"), (Hsame "passwordConfirm"),
        (Hsame "firstname"), (Hsame "lastname"), (Hsame "birthdate"),
        (Hsame "nationality"), (Hsame "schoolname"), (Hsame "dietary"),
        (Hsame "otherInfo") by discriminate.
      reflexivity. }
    unfold safeParse, SignupSchema, superRefine, ZodObject.
    rewrite Hshape. reflexivity.
  - intros Hmissing.
    assert (Kmissing : key [] o' "phone" Signup_phone =
                       (INVALID, [mkIssue invalid_type ["phone"] DefaultMsg None])).
    { unfold key. rewrite Hmissing. reflexivity. }
    pose proof (Signup_shape_issues o') as Hiss.
    pose proof (Signup_shape_value o') as Hval.
    rewrite Kmissing in Hiss, Hval. cbn [fst snd valueOf] in Hiss, Hval.
    unfold safeParse, SignupSchema, superRefine, ZodObject.
    destruct (Signup_shape [] o') as [r iss]. cbn [fst snd] in Hiss, Hval.
    assert (Hin : In (mkIssue invalid_type ["phone"] DefaultMsg None) iss).
    { rewrite Hiss. do 5 (apply in_or_app; right). apply in_or_app. left. now left. }
    destruct r as [a | a |].
    + destruct (Hval a eq_refl) as [_ [_ Hp]]. discriminate Hp.
    + destruct (Hval a eq_refl) as [_ [_ Hp]]. discriminate Hp.
    + exists iss. split; [reflexivity | exact Hin].
Qed.

End SignupProperties.

(** C7 at work, the outside predicates replaced by the stand-ins. *)
Lemma signup_password_length_then_match_witness :
  (exists e,
     safeParse
       (SignupSchema sampleIsEmail sampleIsMobilePhone sampleIsCountry
          "2022-10-01T00:00:00.000Z" sampleNewDate)
       (VObject (sampleSignup "abc" "abc" VNull)) = Failure e
     /\ In passwordTooShort e
     /\ (forall i, In i e -> path i <> ["passwordConfirm"])
     /\ ~ In passwordsDoNotMatch e)
  /\ safeParse
       (SignupSchema sampleIsEmail sampleIsMobilePhone sampleIsCountry
          "2022-10-01T00:00:00.000Z" sampleNewDate)
       (VObject (sampleSignup "longenough1" "different1" VNull)) =
     Failure [mkIssue custom ["passwordConfirm"] (Msg "Passwords do not match") None].
Proof.
  split.
  - apply (proj1 (signup_password_length_then_match sampleIsEmail
                    sampleIsMobilePhone sampleIsCountry "2022-10-01T00:00:00.000Z"
                    sampleNewDate (sampleSignup "abc" "abc" VNull)));
      reflexivity.
  - apply (proj2 (signup_password_length_then_match sampleIsEmail
                    sampleIsMobilePhone sampleIsCountry "2022-10-01T00:00:00.000Z"
                    sampleNewDate (sampleSignup "longenough1" "different1" VNull))
             None
             (mkSignup "ada@example.org" "" "" "Ada" "Lovelace" None
                (Some 1109635200000) "CZ" None (Some "Vegan") None));
      try reflexivity.
    constructor; try reflexivity; try (cbn; lia).
    + right. left. exists "2005-03-01T00:00:00.000Z". split; reflexivity.
    + intros s E. injection E as <-. cbn. tauto.
    + discriminate.
Defined.

(** C10 at work: the stand-in for [isMobilePhone] refuses the empty
    string, and still the form with phone "" is accepted, with [phone]
    null, as the form with phone [null] is. *)
Lemma empty_phone_normalized_to_null_witness :
  sampleIsMobilePhone "" = false
  /\ safeParse
       (SignupSchema sampleIsEmail sampleIsMobilePhone sampleIsCountry
          "2022-10-01T00:00:00.000Z" sampleNewDate)
       (VObject (sampleSignup "longenough1" "longenough1" VNull)) =
     safeParse
       (SignupSchema sampleIsEmail sampleIsMobilePhone sampleIsCountry
          "2022-10-01T00:00:00.000Z" sampleNewDate)
       (VObject (sampleSignup "longenough1" "longenough1" (VString ""))).
Proof.
  split; [reflexivity|].
  refine (proj1 (proj2 (proj2 (empty_phone_normalized_to_null sampleIsEmail
            sampleIsMobilePhone sampleIsCountry "2022-10-01T00:00:00.000Z"
            sampleNewDate
            (sampleSignup "longenough1" "longenough1" (VString ""))
            (sampleSignup "longenough1" "longenough1" VNull) eq_refl))) eq_refl _).
  intros k Hk. cbn [sampleSignup getProp].
  destruct (String.eqb_spec "phone" k) as [E | _]; [now elim Hk|].
  reflexivity.
Defined.

(** C10, as it is worded, fails for an absent phone: the form with phone
    "" is accepted, the same form without the [phone] key is refused. *)
Lemma empty_phone_is_not_absent_phone :
  ~ emptyPhoneAsAbsent sampleIsEmail sampleIsMobilePhone sampleIsCountry
      "2022-10-01T00:00:00.000Z" sampleNewDate
      (sampleSignup "longenough1" "longenough1" (VString ""))
      (sampleSignupWithoutPhone "longenough1" "longenough1").
Proof.
  intros H. unfold emptyPhoneAsAbsent in H.
  assert (Hsame : forall k, k <> "phone" ->
            getProp k (sampleSignupWithoutPhone "longenough1" "longenough1") =
            getProp k (sampleSignup "longenough1" "longenough1" (VString ""))).
  { intros k Hk. cbn [sampleSignup sampleSignupWithoutPhone getProp].
    destruct (String.eqb_spec "phone" k) as [E | _]; [now elim Hk|].
    reflexivity. }
  specialize (H eq_refl eq_refl Hsame).
  vm_compute in H. discriminate H.
Qed.

(** * Beyond the application refinement: the remaining validators, the
      page and the route *)

(** ** Valid parses and their issues *)

Lemma isValid_OK {A : Type} (r : SyncParseReturn A) :
  isValid r = true -> exists a, r = OK a.
Proof. destruct r as [a | a |]; try discriminate. now exists a. Qed.

Lemma ap_OK_inv {A B : Type} (pf : Parse (A -> B)) (pa : Parse A) (b : B)
  (iss : list ZodIssue) :
  ap pf pa = (OK b, iss) ->
  exists f a, fst pf = OK f /\ fst pa = OK a /\ b = f a /\ iss = snd pf ++ snd pa.
Proof.
  destruct pf as [[f | f |] i1], pa as [[a | a |] i2]; unfold ap; cbn;
    intros H; try discriminate.
  injection H as <- <-. now exists f, a.
Qed.

Lemma runChecks_OK_inv {A : Type} (checks : list (Check A)) (p : list string)
  (a b : A) (iss : list ZodIssue) :
  runChecks checks p a = (OK b, iss) ->
  b = a /\ forallb (fun c => test c a) checks = true /\ iss = [].
Proof.
  revert b iss. induction checks as [|c rest IH]; cbn [runChecks forallb]; intros b iss.
  - intros H. injection H as <- <-. auto.
  - destruct (runChecks rest p a) as [r i] eqn:E.
    destruct (test c a).
    + intros H. injection H as -> ->. destruct (IH b iss eq_refl) as [-> [-> ->]]. auto.
    + destruct r; discriminate.
Qed.

Lemma runChecks_value {A : Type} (checks : list (Check A)) (p : list string) (a : A) :
  valueOf (fst (runChecks checks p a)) = Some a.
Proof.
  induction checks as [|c rest IH]; cbn [runChecks]; [reflexivity|].
  destruct (runChecks rest p a) as [r i]. cbn [fst] in IH.
  destruct (test c a); cbn [fst]; [exact IH|].
  destruct r; cbn in *; congruence.
Qed.

Lemma ZodString_OK_inv (checks : list (Check string)) (p : list string)
  (v : JsValue) (s : string) (iss : list ZodIssue) :
  ZodString checks p v = (OK s, iss) ->
  v = VString s /\ forallb (fun c => test c s) checks = true /\ iss = [].
Proof.
  destruct v; try discriminate. cbn [ZodString]. intros H.
  apply runChecks_OK_inv in H as [-> [H ->]]. auto.
Qed.

Lemma ZodNumber_OK_inv (m : IssueMessage) (checks : list (Check Z))
  (p : list string) (v : JsValue) (n : Z) (iss : list ZodIssue) :
  ZodNumber m checks p v = (OK n, iss) ->
  v = VNumber n /\ forallb (fun c => test c n) checks = true /\ iss = [].
Proof.
  destruct v; try discriminate. cbn [ZodNumber]. intros H.
  apply runChecks_OK_inv in H as [-> [H ->]]. auto.
Qed.

Lemma ZodNullable_OK_inv {A : Type} (inner : ZodType A) (p : list string)
  (v : JsValue) (x : option A) (iss : list ZodIssue) :
  ZodNullable inner p v = (OK x, iss) ->
  (v = VNull /\ x = None /\ iss = [])
  \/ (v <> VNull /\ exists a, x = Some a /\ inner p v = (OK a, iss)).
Proof.
  unfold ZodNullable.
  destruct v; try (intros H; injection H as <- <-; now left);
    (destruct (inner p _) as [[a | a |] i] eqn:E; cbn [mapReturn];
     intros H; try discriminate; injection H as <- <-;
     right; split; [discriminate | now exists a]).
Qed.

Lemma ZodEnum_OK_inv (values : list string) (p : list string) (v : JsValue)
  (s : string) (iss : list ZodIssue) :
  ZodEnum values p v = (OK s, iss) ->
  v = VString s /\ In s values /\ iss = [].
Proof.
  destruct v; try discriminate. cbn [ZodEnum].
  destruct (existsb (String.eqb s0) values) eqn:E; [|discriminate].
  intros H. injection H as <- <-. repeat split.
  apply existsb_exists in E as [x [Hin Hx]].
  apply String.eqb_eq in Hx. now subst.
Qed.

(** ** A schema is valid exactly when it filed no issue *)

Lemma runChecks_coherent {A : Type} (checks : list (Check A)) (p : list string)
  (a : A) :
  isValid (fst (runChecks checks p a)) = true <-> snd (runChecks checks p a) = [].
Proof.
  induction checks as [|c rest IH]; cbn [runChecks]; [now split|].
  destruct (runChecks rest p a) as [r i]. cbn [fst snd] in IH.
  destruct (test c a); cbn [fst snd]; [exact IH|].
  split; [|discriminate]. destruct r; discriminate.
Qed.

Lemma ZodString_coherent (checks : list (Check string)) : coherent (ZodString checks).
Proof.
  intros p v. destruct v; try (split; discriminate). apply runChecks_coherent.
Qed.

Lemma ZodNumber_coherent (m : IssueMessage) (checks : list (Check Z)) :
  coherent (ZodNumber m checks).
Proof.
  intros p v. destruct v; try (split; discriminate). apply runChecks_coherent.
Qed.

Lemma ZodDate_coherent : coherent ZodDate.
Proof.
  intros p v. destruct v as [ | | | | | [t|] | ]; split; (discriminate || reflexivity).
Qed.

Lemma ZodEnum_coherent (values : list string) : coherent (ZodEnum values).
Proof.
  intros p v. destruct v; try (split; discriminate). cbn [ZodEnum].
  destruct (existsb _ values); split; (discriminate || reflexivity).
Qed.

Lemma mapReturn_valid {A B : Type} (f : A -> B) (r : SyncParseReturn A) :
  isValid (mapReturn f r) = isValid r.
Proof. destruct r; reflexivity. Qed.

Lemma ZodNullable_coherent {A : Type} (inner : ZodType A) :
  coherent inner -> coherent (ZodNullable inner).
Proof.
  intros H p v. unfold ZodNullable.
  destruct v; try (now split);
    match goal with
    | |- context [inner p ?w] =>
        specialize (H p w); destruct (inner p w) as [r i];
        cbn [fst snd] in *; rewrite mapReturn_valid; exact H
    end.
Qed.

Lemma ZodDefault_coherent {A : Type} (inner : ZodType A) (dflt : JsValue) :
  coherent inner -> coherent (ZodDefault inner dflt).
Proof. intros H p v. destruct v; apply H. Qed.

Lemma preprocess_coherent {A : Type} (f : JsValue -> JsValue) (inner : ZodType A) :
  coherent inner -> coherent (preprocess f inner).
Proof. intros H p v. apply H. Qed.

Lemma refine_coherent {A : Type} (inner : ZodType A) (check : A -> bool)
  (m : IssueMessage) :
  coherent inner -> coherent (refine inner check m).
Proof.
  intros H p v. unfold refine. specialize (H p v).
  destruct (inner p v) as [[a | a |] iss]; cbn [fst snd] in *;
    try destruct (check a); cbn [fst snd isValid]; try exact H;
    split; try discriminate; intros E; now apply app_eq_nil in E as [_ E].
Qed.

Lemma transform_coherent {A B : Type} (inner : ZodType A) (f : A -> B) :
  coherent inner -> coherent (transform inner f).
Proof.
  intros H p v. unfold transform. specialize (H p v).
  destruct (inner p v) as [[a | a |] iss]; exact H.
Qed.

Lemma unionFrom_coherent {A : Type} (opts : list (ZodType A))
  (firstDirty : option (Parse A)) (p : list string) (v : JsValue) :
  Forall coherent opts ->
  (forall d, firstDirty = Some d -> isValid (fst d) = false /\ snd d <> []) ->
  isValid (fst (unionFrom opts firstDirty p v)) = true <->
  snd (unionFrom opts firstDirty p v) = [].
Proof.
  intros Hopts. revert firstDirty.
  induction Hopts as [|o rest Ho _ IH]; intros firstDirty Hd; cbn [unionFrom].
  - destruct firstDirty as [d|].
    + destruct (Hd d eq_refl) as [Hv Hi]. rewrite Hv. split; [discriminate | tauto].
    + split; discriminate.
  - specialize (Ho p v).
    destruct (o p v) as [[a | a |] iss]; cbn [fst snd isValid] in Ho.
    + now split.
    + apply IH. intros d E.
      destruct firstDirty as [d0|]; injection E as <-; [now apply Hd|].
      split; [reflexivity|]. intros Hnil. apply Ho in Hnil. discriminate.
    + now apply IH.
Qed.

Lemma ZodUnion_coherent {A : Type} (opts : list (ZodType A)) :
  Forall coherent opts -> coherent (ZodUnion opts).
Proof.
  intros H p v. apply unionFrom_coherent; [exact H | discriminate].
Qed.

Lemma ap_coherent {A B : Type} (pf : Parse (A -> B)) (pa : Parse A) :
  (isValid (fst pf) = true <-> snd pf = []) ->
  (isValid (fst pa) = true <-> snd pa = []) ->
  (isValid (fst (ap pf pa)) = true <-> snd (ap pf pa) = []).
Proof.
  intros Hf Ha. rewrite ap_valid, ap_issues, andb_true_iff. split.
  - intros [H1 H2]. apply Hf in H1. apply Ha in H2. now rewrite H1, H2.
  - intros H. apply app_eq_nil in H as [H1 H2]. split; [now apply Hf | now apply Ha].
Qed.

Lemma key_coherent {A : Type} (p : list string) (o : list (string * JsValue))
  (k : string) (schema : ZodType A) :
  coherent schema ->
  (isValid (fst (key p o k schema)) = true <-> snd (key p o k schema) = []).
Proof. intros H. apply H. Qed.

Lemma refined_coherent {A : Type} (p : list string) (r : SyncParseReturn A)
  (iss : list ZodIssue) (run : A -> RefinementCtx -> RefinementCtx) :
  (isValid r = true <-> iss = []) ->
  (isValid (fst (refined p r iss run)) = true <-> snd (refined p r iss run) = []).
Proof.
  intros H. destruct r as [a | a |]; cbn [refined]; [| | exact H].
  - destruct (ctx_issues (run a (mkCtx p []))) as [|i l]; cbn [fst snd isValid];
      [exact H|].
    split; [discriminate|]. intros E. now apply app_eq_nil in E as [_ E].
  - destruct (ctx_issues (run a (mkCtx p []))) as [|i l]; cbn [fst snd isValid];
      [exact H|].
    split; [discriminate|]. intros E. now apply app_eq_nil in E as [_ E].
Qed.

Create HintDb coherence.

#[export] Hint Resolve ZodString_coherent ZodNumber_coherent ZodDate_coherent
  ZodEnum_coherent ZodNullable_coherent ZodDefault_coherent preprocess_coherent
  refine_coherent transform_coherent ZodUnion_coherent : coherence.

Lemma ZodNumber_paths (m : IssueMessage) (checks : list (Check Z)) :
  wellPathed (ZodNumber m checks).
Proof.
  intros p v. destruct v; try apply invalidType_paths. apply runChecks_paths.
Qed.

Lemma preprocess_paths {A : Type} (f : JsValue -> JsValue) (inner : ZodType A) :
  wellPathed inner -> wellPathed (preprocess f inner).
Proof. intros H p v. apply H. Qed.

#[export] Hint Resolve ZodNumber_paths preprocess_paths : paths.

Lemma ap_OK_pairs {A B : Type} (pf : Parse (A -> B)) (pa : Parse A) (b : B)
  (iss : list ZodIssue) :
  ap pf pa = (OK b, iss) ->
  exists f a i1 i2,
    pf = (OK f, i1) /\ pa = (OK a, i2) /\ b = f a /\ iss = i1 ++ i2.
Proof.
  destruct pf as [[f | f |] i1], pa as [[a | a |] i2]; unfold ap; cbn;
    intros H; try discriminate.
  injection H as <- <-. now exists f, a, i1, i2.
Qed.

(** ** The shape of a delegate application *)

Lemma committeeChoice_OK_inv (p : list string) (v : JsValue) (n : Z)
  (iss : list ZodIssue) :
  committeeChoice p v = (OK n, iss) -> v = VNumber n /\ 0 <= n /\ iss = [].
Proof.
  intros H. apply ZodNumber_OK_inv in H as [-> [H ->]].
  cbn [forallb test num_min] in H. rewrite andb_true_r in H.
  apply Z.leb_le in H. auto.
Qed.

Lemma countryChoice_OK_inv (p : list string) (v : JsValue) (s : string)
  (iss : list ZodIssue) :
  countryChoice p v = (OK s, iss) ->
  v = VString s /\ (2 <= String.length s)%nat /\ iss = [].
Proof.
  intros H. apply ZodString_OK_inv in H as [-> [H ->]].
  cbn [forallb test str_min] in H. rewrite andb_true_r in H.
  apply Nat.leb_le in H. auto.
Qed.

Lemma bounded_string_OK_inv (lo hi : nat) (m1 m2 : IssueMessage) (p : list string)
  (v : JsValue) (s : string) (iss : list ZodIssue) :
  ZodString [str_max hi m1; str_min lo m2] p v = (OK s, iss) ->
  v = VString s /\ (lo <= String.length s <= hi)%nat /\ iss = [].
Proof.
  intros H. apply ZodString_OK_inv in H as [-> [H ->]].
  cbn [forallb test str_min str_max] in H. rewrite andb_true_r in H.
  apply andb_prop in H as [H1 H2].
  apply Nat.leb_le in H1, H2. auto.
Qed.

Lemma delegationId_OK_inv (p : list string) (v : JsValue) (x : option Z)
  (iss : list ZodIssue) :
  preprocess minusOneToNull (ZodNullable (ZodNumber DefaultMsg [])) p v = (OK x, iss) ->
  exists submitted,
    v = nullOr VNumber submitted /\ x = normalizedDelegation submitted /\ iss = [].
Proof.
  unfold preprocess. intros H.
  apply ZodNullable_OK_inv in H as [[Hv [-> ->]] | [Hv [n [-> H]]]].
  - destruct v; cbn [minusOneToNull] in Hv; try discriminate.
    + now exists None.
    + destruct (n =? -1) eqn:E; [|discriminate].
      apply Z.eqb_eq in E. subst. now exists (Some (-1)).
  - apply ZodNumber_OK_inv in H as [Hn [_ ->]].
    destruct v; cbn [minusOneToNull] in Hn, Hv; try discriminate.
    destruct (n0 =? -1) eqn:E; [now elim Hv|].
    injection Hn as <-. exists (Some n0). cbn [nullOr normalizedDelegation].
    rewrite E. auto.
Qed.

Lemma nullable_enum_OK_inv (values : list string) (p : list string) (v : JsValue)
  (x : option string) (iss : list ZodIssue) :
  ZodNullable (ZodEnum values) p v = (OK x, iss) ->
  v = nullOr VString x /\ (forall s, x = Some s -> In s values) /\ iss = [].
Proof.
  intros H. apply ZodNullable_OK_inv in H as [[-> [-> ->]] | [_ [s [-> H]]]].
  - repeat split. discriminate.
  - apply ZodEnum_OK_inv in H as [-> [Hin ->]]. repeat split.
    intros s' E. now injection E as <-.
Qed.

(** A form the bare schema accepts is well shaped, and nothing was filed
    while parsing it. *)
Lemma DelegateApply_OK_inv (o : list (string * JsValue)) (d : DelegateApplyT)
  (iss : list ZodIssue) :
  DelegateApply [] (VObject o) = (OK d, iss) ->
  (exists submitted, wellShaped o submitted d) /\ iss = [].
Proof.
  unfold DelegateApply, ZodObject, DelegateApply_shape. intros H.
  repeat (apply ap_OK_pairs in H as (? & ? & ? & ? & H & ? & ? & ?)).
  injection H as <- <-. subst. unfold key in *.
  repeat match goal with
         | H : committeeChoice _ _ = (OK _, _) |- _ =>
             apply committeeChoice_OK_inv in H as (? & ? & ?)
         | H : countryChoice _ _ = (OK _, _) |- _ =>
             apply countryChoice_OK_inv in H as (? & ? & ?)
         | H : ZodString [str_max _ _; str_min _ _] _ _ = (OK _, _) |- _ =>
             apply bounded_string_OK_inv in H as (? & ? & ?)
         | H : ZodNumber _ [] _ _ = (OK _, _) |- _ =>
             apply ZodNumber_OK_inv in H as (? & _ & ?)
         | H : preprocess _ _ _ _ = (OK _, _) |- _ =>
             apply delegationId_OK_inv in H as (submitted & ? & ? & ?)
         | H : ZodNullable (ZodEnum _) _ _ = (OK _, _) |- _ =>
             apply nullable_enum_OK_inv in H as (? & ? & ?)
         end.
  subst. split; [|reflexivity].
  exists submitted. constructor; cbn; try assumption; try reflexivity;
    try (intros s; destruct s; assumption).
Qed.

Lemma DelegateApply_shape_issues (o : list (string * JsValue)) :
  snd (DelegateApply_shape [] o) =
    snd (key [] o "userId" (ZodNumber DefaultMsg [])) ++
    snd (key [] o "motivation"
           (ZodString [str_max 4000 (Msg "Your motivation is too long");
                       str_min 10 (Msg "Please enter a short motivation")])) ++
    snd (key [] o "experience"
           (ZodString [str_max 4000 (Msg "Your experience is too long");
                       str_min 10 (Msg "Please enter a short experience")])) ++
    snd (key [] o "delegationId"
           (preprocess minusOneToNull (ZodNullable (ZodNumber DefaultMsg [])))) ++
    snd (key [] o "choice1committee" committeeChoice) ++
    snd (key [] o "choice1country" countryChoice) ++
    snd (key [] o "choice2committee" committeeChoice) ++
    snd (key [] o "choice2country" countryChoice) ++
    snd (key [] o "choice3committee" committeeChoice) ++
    snd (key [] o "choice3country" countryChoice) ++
    snd (key [] o "shirtSize"
           (ZodNullable (ZodEnum ["XS"; "S"; "M"; "L"; "XL"; "XXL"]))).
Proof.
  unfold DelegateApply_shape. rewrite !ap_issues. cbn [pure snd app].
  rewrite <- !app_assoc. reflexivity.
Qed.

Lemma DelegateApply_coherent : coherent DelegateApply.
Proof.
  intros p v. destruct v; try (split; discriminate).
  cbn [DelegateApply ZodObject]. unfold DelegateApply_shape.
  repeat (apply ap_coherent;
          [| apply key_coherent; unfold committeeChoice, countryChoice;
             auto with coherence]).
  now split.
Qed.

Lemma DelegateApply_paths (o : list (string * JsValue)) (i : ZodIssue) :
  In i (snd (DelegateApply [] (VObject o))) ->
  exists k, In k DelegateApply_keys /\ path i = [k].
Proof.
  cbn [DelegateApply ZodObject]. rewrite DelegateApply_shape_issues. intros Hin.
  repeat (apply in_app_or in Hin as [Hin | Hin]);
    match type of Hin with
    | In i (snd (key [] o ?k ?schema)) =>
        exists k; split; [cbn; tauto|];
        apply (key_paths o k schema i);
        [unfold committeeChoice, countryChoice; auto with paths | exact Hin]
    end.
Qed.

(** X1. The bare schema accepts exactly the well-shaped forms: the parse
    of a value succeeds with [d] if and only if the value is an object
    whose fields satisfy the shape constraints and whose normalized body
    is [d]. *)
Theorem DelegateApply_accepts_exactly_wellShaped (v : JsValue) (d : DelegateApplyT) :
  safeParse DelegateApply v = Success d <->
  exists o submitted, v = VObject o /\ wellShaped o submitted d.
Proof.
  split.
  - intros H. apply safeParse_Success in H as [iss H].
    destruct v; try discriminate.
    apply DelegateApply_OK_inv in H as [[submitted Hs] _].
    now exists props, submitted.
  - intros (o & submitted & -> & Hs).
    unfold safeParse. now rewrite (wellShaped_parse _ _ _ Hs).
Qed.

Lemma DelegateApply_accepts_exactly_wellShaped_witness :
  exists o submitted,
    VObject (sampleForm (VNumber 3) 2 "US" 2 "FR" 1 "CZ") = VObject o
    /\ wellShaped o submitted
         (mkDelegateApply 7 "I enjoy debating." "Two conferences." (Some 3)
            2 "US" 2 "FR" 1 "CZ" (Some "M")).
Proof.
  apply (proj1 (DelegateApply_accepts_exactly_wellShaped
                  (VObject (sampleForm (VNumber 3) 2 "US" 2 "FR" 1 "CZ"))
                  (mkDelegateApply 7 "I enjoy debating." "Two conferences." (Some 3)
                     2 "US" 2 "FR" 1 "CZ" (Some "M")))).
  reflexivity.
Defined.

Lemma addedIssues_nil_iff (params : RefineParams) (d : DelegateApplyT) :
  addedIssues params d = [] <-> referencesExist (reference params) d.
Proof.
  rewrite addedIssues_report. cbv zeta. unfold committeeCheck, countryCheck, referencesExist.
  split.
  - intros H s.
    destruct (committeeExists _ (choice1committee d)) eqn:C1;
      destruct (committeeExists _ (choice2committee d)) eqn:C2;
      destruct (committeeExists _ (choice3committee d)) eqn:C3;
      destruct (pairExists _ (choice1committee d) _) eqn:P1;
      destruct (pairExists _ (choice2committee d) _) eqn:P2;
      destruct (pairExists _ (choice3committee d) _) eqn:P3;
      try discriminate H;
      destruct s; cbn [slotCommittee slotCountry]; auto.
  - intros H.
    destruct (H choice1) as [C1 P1], (H choice2) as [C2 P2], (H choice3) as [C3 P3].
    cbn [slotCommittee slotCountry] in *.
    now rewrite C1, C2, C3, P1, P2, P3.
Qed.

(** X2. The form's validation accepts exactly the well-shaped forms whose
    committees and (committee, country) pairs all exist in the tables
    passed to the page. *)
Theorem form_accepts_exactly_valid_references (committees : list Committee)
  (countries : list CommitteeCountries) (v : JsValue) (d : DelegateApplyT) :
  form_results committees countries v = Resolve (Success d) <->
  exists o submitted,
    v = VObject o /\ wellShaped o submitted d
    /\ referencesExist (mkReference committees countries) d.
Proof.
  unfold form_results.
  destruct (DelegateApply [] v) as [r iss] eqn:E.
  rewrite (safeParseAsync_refined_report _ _ _ _ E).
  split.
  - intros H. destruct r as [b | b |]; try discriminate.
    destruct (addedIssues _ b) eqn:Ha; [|discriminate].
    injection H as ->.
    destruct v; try discriminate.
    apply DelegateApply_OK_inv in E as [[submitted Hs] _].
    exists props, submitted. split; [reflexivity|]. split; [exact Hs|].
    now apply (addedIssues_nil_iff (Fetched (mkReference committees countries))).
  - intros (o & submitted & -> & Hs & Hr).
    rewrite (wellShaped_parse _ _ _ Hs) in E. injection E as <- <-.
    apply (addedIssues_nil_iff (Fetched (mkReference committees countries))) in Hr.
    now rewrite Hr.
Qed.

Lemma form_accepts_exactly_valid_references_witness :
  exists o submitted,
    VObject (sampleForm VNull 2 "US" 2 "FR" 1 "CZ") = VObject o
    /\ wellShaped o submitted (sampleBody 2 "US" 2 "FR" 1 "CZ")
    /\ referencesExist sampleReference (sampleBody 2 "US" 2 "FR" 1 "CZ").
Proof.
  apply (proj1 (form_accepts_exactly_valid_references sampleCommittees
                  sampleCountries (VObject (sampleForm VNull 2 "US" 2 "FR" 1 "CZ"))
                  (sampleBody 2 "US" 2 "FR" 1 "CZ"))).
  reflexivity.
Defined.

Lemma DelegateApply_missing_key_parse (o : list (string * JsValue)) (k : string) :
  In k DelegateApply_keys ->
  getProp k o = VUndefined ->
  isValid (fst (DelegateApply_shape [] o)) = false
  /\ In (mkIssue invalid_type [k] DefaultMsg None) (snd (DelegateApply_shape [] o)).
Proof.
  intros Hk Hu. split.
  - unfold DelegateApply_shape. rewrite !ap_valid. unfold key.
    cbn [DelegateApply_keys In] in Hk.
    repeat (destruct Hk as [<- | Hk]; [rewrite Hu; cbn; now rewrite ?andb_false_r|]).
    destruct Hk.
  - rewrite DelegateApply_shape_issues. unfold key.
    cbn [DelegateApply_keys In] in Hk.
    repeat (destruct Hk as [<- | Hk];
            [rewrite Hu; repeat (apply in_or_app; (left; now left) || right);
             now left |]).
    destruct Hk.
Qed.

(** X3. Every key of the shape is required: a form that lacks one of the
    eleven keys is refused, and the report holds an [invalid_type] issue
    with the default ("Required") message on that key; for a committee
    choice too, whose own message is kept for values of a wrong type. *)
Theorem DelegateApply_missing_key_required (o : list (string * JsValue)) (k : string) :
  In k DelegateApply_keys ->
  getProp k o = VUndefined ->
  exists e,
    safeParse DelegateApply (VObject o) = Failure e
    /\ In (mkIssue invalid_type [k] DefaultMsg None) e.
Proof.
  intros Hk Hu.
  destruct (DelegateApply_missing_key_parse o k Hk Hu) as [Hv Hin].
  unfold safeParse. cbn [DelegateApply ZodObject].
  destruct (DelegateApply_shape [] o) as [r iss]. cbn [fst snd] in *.
  exists iss. split; [|exact Hin].
  destruct r; [discriminate | reflexivity | reflexivity].
Qed.

(** X3 at work: a form without [choice2committee]. *)
Lemma DelegateApply_missing_key_required_witness :
  exists e,
    safeParse DelegateApply
      (VObject [ ("userId", VNumber 7);
                 ("motivation", VString "I enjoy debating.");
                 ("experience", VString "Two conferences.");
                 ("delegationId", VNull);
                 ("choice1committee", VNumber 1);
                 ("choice1country", VString "CZ");
                 ("choice2country", VString "US");
                 ("choice3committee", VNumber 2);
                 ("choice3country", VString "FR");
                 ("shirtSize", VNull) ]) = Failure e
    /\ In (mkIssue invalid_type ["choice2committee"] DefaultMsg None) e.
Proof.
  apply (DelegateApply_missing_key_required _ "choice2committee").
  - cbn. tauto.
  - reflexivity.
Defined.

(** ** The error map of the form *)

Lemma lookupField_pushFieldError (k field : string) (m : IssueMessage)
  (entries : list (string * list IssueMessage)) :
  lookupField k (pushFieldError field m entries) =
    if (field =? k)%string
    then Some (match lookupField k entries with
               | Some ms => ms ++ [m]
               | None => [m]
               end)
    else lookupField k entries.
Proof.
  induction entries as [|[f ms] rest IH]; cbn [pushFieldError lookupField].
  - destruct (field =? k)%string; reflexivity.
  - destruct (f =? field)%string eqn:Ef; cbn [lookupField].
    + apply String.eqb_eq in Ef. subst f.
      destruct (field =? k)%string; reflexivity.
    + destruct (f =? k)%string eqn:Ek; [|exact IH].
      destruct (field =? k)%string eqn:Efk; [|reflexivity].
      apply String.eqb_eq in Ek, Efk. subst.
      now rewrite String.eqb_refl in Ef.
Qed.

Lemma flatten_fold_lookup (k : string) (error : ZodError) (acc : Flattened) :
  lookupField k
    (fieldErrors
       (fold_left
          (fun acc sub =>
             match path sub with
             | [] => mkFlattened (formErrors acc ++ [message sub]) (fieldErrors acc)
             | field :: _ =>
                 mkFlattened (formErrors acc)
                   (pushFieldError field (message sub) (fieldErrors acc))
             end)
          error acc)) =
    match lookupField k (fieldErrors acc), map message (filter (onField k) error) with
    | None, [] => None
    | None, ms => Some ms
    | Some ms0, ms => Some (ms0 ++ ms)
    end.
Proof.
  revert acc. induction error as [|i rest IH]; intros acc; cbn [fold_left filter map].
  - destruct (lookupField k (fieldErrors acc)); [now rewrite app_nil_r | reflexivity].
  - rewrite IH.
    assert (Eo : onField k i =
                 match path i with [] => false | f :: _ => (f =? k)%string end)
      by reflexivity.
    rewrite Eo. clear Eo.
    destruct (path i) as [|field tl]; cbn [fieldErrors]; [reflexivity|].
    rewrite lookupField_pushFieldError.
    destruct (field =? k)%string; cbn [map]; [|reflexivity].
    destruct (lookupField k (fieldErrors acc)) as [ms0|].
    + now rewrite <- app_assoc.
    + reflexivity.
Qed.

(** The messages [flatten] files under a field are those of the issues on
    that field, in the order of the report. *)
Lemma flatten_field (k : string) (error : ZodError) :
  lookupField k (fieldErrors (flatten error)) =
    match map message (filter (onField k) error) with
    | [] => None
    | ms => Some ms
    end.
Proof. unfold flatten. rewrite flatten_fold_lookup. reflexivity. Qed.

Lemma lookupField_map {A B : Type} (g : A -> B) (k : string)
  (entries : list (string * A)) :
  lookupField k (map (fun entry => (fst entry, g (snd entry))) entries) =
    option_map g (lookupField k entries).
Proof.
  induction entries as [|[f a] rest IH]; cbn [map lookupField fst snd]; [reflexivity|].
  destruct (f =? k)%string; [reflexivity | exact IH].
Qed.

Lemma filter_head_find {A : Type} (f : A -> bool) (l : list A) :
  nth_error (filter f l) 0 = find f l.
Proof.
  induction l as [|a l IH]; cbn [filter find]; [reflexivity|].
  destruct (f a); [reflexivity | exact IH].
Qed.

(** X4. What the form shows on a field is the message of the first issue
    of the report on that field, and nothing when the report has none
    there. *)
Theorem form_validate_shows_first_issue (committees : list Committee)
  (countries : list CommitteeCountries) (values : JsValue) (error : ZodError)
  (k : string) :
  form_results committees countries values = Resolve (Failure error) ->
  lookupField k (form_validate committees countries values) =
    option_map (fun i => Some (message i)) (find (onField k) error).
Proof.
  intros H. unfold form_validate. rewrite H. cbn [await].
  rewrite (lookupField_map (fun ms => nth_error ms 0)), flatten_field.
  rewrite <- filter_head_find.
  destruct (filter (onField k) error); reflexivity.
Qed.

(** X4 at work: committee 5 does not exist and committee 2 does not sit
    with "ZZ"; each field shows its own message. *)
Lemma form_validate_shows_first_issue_witness :
  lookupField "choice2country"
    (form_validate sampleCommittees sampleCountries
       (VObject (sampleForm VNull 5 "US" 2 "ZZ" 1 "CZ"))) =
  Some (Some (Msg "Invalid country and committee combination")).
Proof.
  apply (form_validate_shows_first_issue sampleCommittees sampleCountries
           (VObject (sampleForm VNull 5 "US" 2 "ZZ" 1 "CZ"))
           [ committeeNotFound sampleCommittees "choice1committee";
             invalidCombination sampleCountries 2 "choice2country" ]
           "choice2country").
  reflexivity.
Defined.

Lemma flatten_fieldErrors_nil (error : ZodError) :
  fieldErrors (flatten error) = [] ->
  forall i, In i error -> path i = [].
Proof.
  intros H i Hin.
  destruct (path i) as [|k tl] eqn:Ep; [reflexivity|].
  pose proof (flatten_field k error) as Hl. rewrite H in Hl. cbn [lookupField] in Hl.
  assert (Hf : In i (filter (onField k) error)).
  { apply filter_In. split; [exact Hin|]. unfold onField. rewrite Ep.
    apply String.eqb_refl. }
  destruct (filter (onField k) error); [destruct Hf | discriminate].
Qed.

(** The issues of the refinement sit on a committee or a country key. *)
Lemma addedIssues_paths (params : RefineParams) (d : DelegateApplyT) (i : ZodIssue) :
  In i (addedIssues params d) -> exists k, In k DelegateApply_keys /\ path i = [k].
Proof.
  rewrite addedIssues_report. cbv zeta. unfold committeeCheck, countryCheck. intros Hin.
  repeat (apply in_app_or in Hin as [Hin | Hin]);
    match type of Hin with
    | In i (if ?b then _ else _) => destruct b
    end;
    try destruct Hin as [<- | []]; try destruct Hin;
    eexists; (split; [|reflexivity]); cbn; tauto.
Qed.

(** The report of a refused object: never empty, and every issue on a key
    of the shape. *)
Lemma form_results_Failure (committees : list Committee)
  (countries : list CommitteeCountries) (o : list (string * JsValue))
  (error : ZodError) :
  form_results committees countries (VObject o) = Resolve (Failure error) ->
  error <> []
  /\ forall i, In i error -> exists k, In k DelegateApply_keys /\ path i = [k].
Proof.
  unfold form_results.
  destruct (DelegateApply [] (VObject o)) as [r iss] eqn:E.
  rewrite (safeParseAsync_refined_report _ _ _ _ E).
  pose proof (DelegateApply_coherent [] (VObject o)) as Hc.
  pose proof (DelegateApply_paths o) as Hp.
  rewrite E in Hc, Hp. cbn [fst snd] in Hc, Hp.
  destruct r as [b | b |].
  - destruct (addedIssues _ b) as [|a l] eqn:Ha; [discriminate|].
    intros H. injection H as <-. split.
    + intros Hn. now apply app_eq_nil in Hn as [_ Hn].
    + intros i Hin. apply in_app_or in Hin as [Hin | Hin]; [now apply Hp|].
      apply (addedIssues_paths (Fetched (mkReference committees countries)) b).
      now rewrite Ha.
  - intros H. injection H as <-. split.
    + intros Hn. apply app_eq_nil in Hn as [Hn _].
      apply Hc in Hn. discriminate.
    + intros i Hin. apply in_app_or in Hin as [Hin | Hin]; [now apply Hp|].
      now apply (addedIssues_paths (Fetched (mkReference committees countries)) b).
  - intros H. injection H as <-. split; [|exact Hp].
    intros Hn. apply Hc in Hn. discriminate.
Qed.

(** X5. For the values of the form (an object) the error map is empty
    exactly when the validation succeeded: a refused form always shows at
    least one field error, on a key of the shape. *)
Theorem form_validate_empty_iff_accepted (committees : list Committee)
  (countries : list CommitteeCountries) (o : list (string * JsValue)) :
  form_validate committees countries (VObject o) = [] <->
  exists d, form_results committees countries (VObject o) = Resolve (Success d).
Proof.
  unfold form_validate.
  destruct (form_results committees countries (VObject o)) as [[d | error]] eqn:E;
    cbn [await].
  - split; [now exists d | reflexivity].
  - split; [|intros [d H]; discriminate].
    intros H. apply map_eq_nil in H.
    destruct (form_results_Failure _ _ _ _ E) as [Hne Hp].
    destruct error as [|i rest]; [now elim Hne|].
    pose proof (flatten_fieldErrors_nil _ H i (or_introl eq_refl)) as Hi.
    destruct (Hp i (or_introl eq_refl)) as [k [_ Hk]]. congruence.
Qed.

Lemma form_validate_empty_iff_accepted_witness :
  exists d,
    form_results sampleCommittees sampleCountries
      (VObject (sampleForm VNull 2 "US" 2 "FR" 1 "CZ")) = Resolve (Success d).
Proof.
  apply (proj1 (form_validate_empty_iff_accepted sampleCommittees sampleCountries
                  (sampleForm VNull 2 "US" 2 "FR" 1 "CZ"))).
  reflexivity.
Defined.

Lemma find_app {A : Type} (f : A -> bool) (l1 l2 : list A) :
  find f (l1 ++ l2) =
    match find f l1 with
    | Some x => Some x
    | None => find f l2
    end.
Proof.
  induction l1 as [|a l1 IH]; cbn [app find]; [reflexivity|].
  destruct (f a); [reflexivity | exact IH].
Qed.

Lemma find_other_key {A : Type} (o : list (string * JsValue)) (k k' : string)
  (schema : ZodType A) :
  wellPathed schema -> k' <> k ->
  find (onField k) (snd (key [] o k' schema)) = None.
Proof.
  intros Hw Hne.
  destruct (find (onField k) (snd (key [] o k' schema))) as [i|] eqn:E; [|reflexivity].
  apply find_some in E as [Hin Hon].
  apply (key_paths o k' schema i Hw) in Hin.
  unfold onField in Hon. rewrite Hin in Hon.
  apply String.eqb_eq in Hon. contradiction.
Qed.

(** Among the issues of the shape, those on a committee key are the
    issues of that key. *)
Lemma shape_issue_on_committee (o : list (string * JsValue)) (s : Slot) :
  find (onField (committeePath s)) (snd (DelegateApply_shape [] o)) =
  find (onField (committeePath s)) (snd (key [] o (committeePath s) committeeChoice)).
Proof.
  rewrite DelegateApply_shape_issues, !find_app.
  destruct s; cbn [committeePath];
    repeat match goal with
           | |- context [find (onField ?k) (snd (key [] o ?k' ?schema))] =>
               rewrite (find_other_key o k k' schema)
                 by (try discriminate; unfold committeeChoice, countryChoice;
                     auto with paths)
           end;
    destruct (find _ (snd (key [] o _ committeeChoice))); reflexivity.
Qed.

(** X6. A committee select that holds no committee shows "Please choose a
    committee": when the submitted value of a committee key is present
    but is not a number of at least 0 (the -1 of a cleared select, or a
    value of another type), that message is what the form shows on the
    key, whatever the other fields and the tables are; the complaint of
    the reference check about the same key comes after it in the
    report. *)
Theorem committee_key_shows_please_choose (committees : list Committee)
  (countries : list CommitteeCountries) (o : list (string * JsValue)) (s : Slot) :
  getProp (committeePath s) o <> VUndefined ->
  (forall n, getProp (committeePath s) o = VNumber n -> n < 0) ->
  lookupField (committeePath s) (form_validate committees countries (VObject o)) =
    Some (Some (Msg "Please choose a committee")).
Proof.
  intros Hdef Hneg.
  assert (Hkey : exists i rest,
             snd (key [] o (committeePath s) committeeChoice) = i :: rest
             /\ onField (committeePath s) i = true
             /\ message i = Msg "Please choose a committee"
             /\ isValid (fst (key [] o (committeePath s) committeeChoice)) = false).
  { unfold key, committeeChoice.
    destruct (getProp (committeePath s) o) as [ | | b | n | t | t | ps ] eqn:Ev;
      try (now elim Hdef);
      try (eexists; eexists; cbn [ZodNumber invalidType snd fst isValid typeMessage];
           repeat split; unfold onField; cbn [path app]; apply String.eqb_refl).
    specialize (Hneg n eq_refl).
    assert (E : (0 <=? n) = false) by (apply Z.leb_gt; exact Hneg).
    cbn [ZodNumber runChecks test num_min]. rewrite E.
    eexists; eexists; cbn [snd fst dirty isValid];
      repeat split; unfold onField; cbn [path app]; apply String.eqb_refl. }
  destruct Hkey as (i & rest & Hi & Hon & Hm & Hinv).
  pose proof (shape_issue_on_committee o s) as Hfind.
  rewrite Hi in Hfind. cbn [find] in Hfind. rewrite Hon in Hfind.
  assert (Hnot : isValid (fst (DelegateApply_shape [] o)) = false).
  { destruct (isValid (fst (DelegateApply_shape [] o))) eqn:Ev; [|reflexivity].
    exfalso. revert Ev Hinv. unfold DelegateApply_shape. rewrite !ap_valid.
    intros Ev Hinv.
    repeat (apply andb_prop in Ev as [Ev ?]).
    destruct s; cbn [committeePath] in Hinv; congruence. }
  destruct (DelegateApply [] (VObject o)) as [r iss] eqn:E.
  cbn [DelegateApply ZodObject] in E. rewrite E in Hfind, Hnot. cbn [fst snd] in *.
  assert (Hres : exists extra,
             form_results committees countries (VObject o) =
               Resolve (Failure (iss ++ extra))).
  { unfold form_results.
    rewrite (safeParseAsync_refined_report _ (VObject o) r iss E).
    destruct r as [b | b |]; [discriminate | eexists; reflexivity |].
    exists []. now rewrite app_nil_r. }
  destruct Hres as [extra Hres].
  unfold form_validate. rewrite Hres. cbn [await].
  rewrite (lookupField_map (fun ms => nth_error ms 0)), flatten_field.
  assert (Hfirst : nth_error (filter (onField (committeePath s)) (iss ++ extra)) 0
                   = Some i)
    by (now rewrite filter_head_find, find_app, Hfind).
  destruct (filter (onField (committeePath s)) (iss ++ extra)) as [|j l];
    [discriminate|].
  cbn [nth_error] in Hfirst. injection Hfirst as ->.
  cbn [map option_map nth_error]. now rewrite Hm.
Qed.

(** X6 at work: the first select was cleared (-1), the rest of the form is
    in order. *)
Lemma committee_key_shows_please_choose_witness :
  lookupField "choice1committee"
    (form_validate sampleCommittees sampleCountries
       (VObject (sampleForm VNull (-1) "US" 2 "FR" 1 "CZ"))) =
  Some (Some (Msg "Please choose a committee")).
Proof.
  apply (committee_key_shows_please_choose sampleCommittees sampleCountries
           (sampleForm VNull (-1) "US" 2 "FR" 1 "CZ") choice1).
  - discriminate.
  - intros n H. injection H as <-. lia.
Defined.

(** ** The chair application *)

Lemma refineChairApply_report (params : Chair.RefineParams)
  (body : Chair.ChairApplyT) :
  let r := mkReference (Chair.committees (chairReference params)) [] in
  chairAddedIssues params body =
    committeeCheck r choice1 (Chair.choice1committee body) ++
    committeeCheck r choice2 (Chair.choice2committee body) ++
    committeeCheck r choice3 (Chair.choice3committee body).
Proof.
  cbv zeta. unfold chairAddedIssues, refineChairApply, committeeCheck, committeeExists.
  fold (chairReference params).
  destruct (chairReference params) as [cs]; cbn [committees Chair.committees await].
  rewrite !not_found_find.
  destruct (existsb _ cs); destruct (existsb _ cs); destruct (existsb _ cs);
    reflexivity.
Qed.

(** X7. The chair refinement checks the three committees and nothing
    else: it files on a committee key exactly one issue, with the ids of
    all committees as options, when that committee is not in the list,
    and none otherwise; it adds no issue at all exactly when the three
    committees exist. *)
Theorem chair_refinement_checks_committees (params : Chair.RefineParams)
  (body : Chair.ChairApplyT) :
  let cs := Chair.committees (chairReference params) in
  let found := fun n => existsb (fun c => id c =? n) cs in
  issuesAt ["choice1committee"] (chairAddedIssues params body) =
    (if found (Chair.choice1committee body) then []
     else [committeeNotFound cs "choice1committee"])
  /\ issuesAt ["choice2committee"] (chairAddedIssues params body) =
     (if found (Chair.choice2committee body) then []
      else [committeeNotFound cs "choice2committee"])
  /\ issuesAt ["choice3committee"] (chairAddedIssues params body) =
     (if found (Chair.choice3committee body) then []
      else [committeeNotFound cs "choice3committee"])
  /\ (chairAddedIssues params body = [] <->
      found (Chair.choice1committee body) = true
      /\ found (Chair.choice2committee body) = true
      /\ found (Chair.choice3committee body) = true).
Proof.
  cbv zeta. rewrite refineChairApply_report. cbv zeta.
  unfold committeeCheck, committeeExists. cbn [committees committeePath].
  destruct (existsb _ _); destruct (existsb _ _); destruct (existsb _ _);
    repeat split; try reflexivity; try discriminate;
    intros [? [? ?]]; discriminate.
Qed.

(** X8. The delegate refinement is the chair refinement followed by the
    three country checks: on the same committee list, what it files on
    the choices of a body is what the chair refinement files on the body
    without its countries, and then one country check per slot. *)
Theorem delegate_refinement_extends_chair (params : RefineParams)
  (d : DelegateApplyT) :
  let r := reference params in
  addedIssues params d =
    chairAddedIssues (Chair.Fetched (Chair.mkReference (committees r))) (chairOf d) ++
    countryCheck r choice1 (choice1committee d) (choice1country d) ++
    countryCheck r choice2 (choice2committee d) (choice2country d) ++
    countryCheck r choice3 (choice3committee d) (choice3country d).
Proof.
  cbv zeta. rewrite addedIssues_report, refineChairApply_report. cbv zeta.
  cbn [chairReference Chair.committees chairOf Chair.choice1committee
         Chair.choice2committee Chair.choice3committee].
  unfold committeeCheck, committeeExists. cbn [committees].
  rewrite <- !app_assoc. reflexivity.
Qed.

Lemma ChairApply_of_delegate (o : list (string * JsValue)) (d : DelegateApplyT) :
  DelegateApply [] (VObject o) = (OK d, []) ->
  ChairApply [] (VObject o) = (OK (chairOf d), []).
Proof.
  unfold DelegateApply, ChairApply, ZodObject, DelegateApply_shape, ChairApply_shape.
  intros H.
  repeat (apply ap_OK_pairs in H as (? & ? & ? & ? & H & ? & ? & ?)).
  injection H as <- <-. subst.
  match goal with H : [] = _ |- _ => symmetry in H end.
  repeat match goal with
         | H : _ ++ _ = [] |- _ => apply app_eq_nil in H as [H ?]
         end.
  subst.
  repeat match goal with
         | H : key [] o _ _ = _ |- _ => rewrite H; clear H
         end.
  reflexivity.
Qed.

(** X9. A form the delegate schema accepts is accepted by the chair
    schema too, as the same body without the countries. *)
Theorem chair_schema_accepts_delegate_forms (v : JsValue) (d : DelegateApplyT) :
  safeParse DelegateApply v = Success d ->
  safeParse ChairApply v = Success (chairOf d).
Proof.
  intros H. apply safeParse_Success in H as [iss H].
  destruct v; try discriminate.
  pose proof (DelegateApply_OK_inv _ _ _ H) as [_ ->].
  unfold safeParse. now rewrite (ChairApply_of_delegate _ _ H).
Qed.

Lemma chair_schema_accepts_delegate_forms_witness :
  safeParse ChairApply (VObject (sampleForm (VNumber (-1)) 2 "US" 2 "FR" 1 "CZ")) =
  Success (Chair.mk 7 "I enjoy debating." "Two conferences." None 2 2 1 (Some "M")).
Proof.
  apply (chair_schema_accepts_delegate_forms
           (VObject (sampleForm (VNumber (-1)) 2 "US" 2 "FR" 1 "CZ"))
           (sampleBody 2 "US" 2 "FR" 1 "CZ")).
  reflexivity.
Defined.

(** ** The selects of the apply page *)

Lemma slot_neq_cases (s t : Slot) : {s = t} + {s <> t}.
Proof. decide equality. Qed.

(** X10. A committee is disabled in the select of a slot exactly when one
    of the two other slots holds it; for a choice number that is none of
    1, 2, 3 every slot counts as another one. *)
Theorem checkShouldBeDisabled_iff_other_slot (values : DelegateApplyT)
  (committeeId : Z) :
  (forall s,
     checkShouldBeDisabled values committeeId (slotId s) = true <->
     exists t, t <> s /\ slotCommittee t values = committeeId)
  /\ (forall choiceId,
        choiceId <> 1 -> choiceId <> 2 -> choiceId <> 3 ->
        (checkShouldBeDisabled values committeeId choiceId = true <->
         exists t, slotCommittee t values = committeeId)).
Proof.
  split.
  - intros s. unfold checkShouldBeDisabled.
    destruct s; cbn [slotId filter negb Z.eqb Pos.eqb map existsb choiceCommittee];
      destruct (Z.eqb_spec (choice1committee values) committeeId) as [E1 | E1];
      destruct (Z.eqb_spec (choice2committee values) committeeId) as [E2 | E2];
      destruct (Z.eqb_spec (choice3committee values) committeeId) as [E3 | E3];
      cbn [Bool.eqb orb];
      (split;
       [ intros H; try discriminate H;
         first [ now (exists choice1; split; [discriminate | exact E1])
               | now (exists choice2; split; [discriminate | exact E2])
               | now (exists choice3; split; [discriminate | exact E3]) ]
       | intros [t [Hne Ht]]; try reflexivity;
         destruct t; cbn [slotCommittee] in Ht; try (now elim Hne); congruence ]).
  - intros choiceId H1 H2 H3. unfold checkShouldBeDisabled.
    apply Z.eqb_neq in H1, H2, H3.
    cbn [filter]. rewrite (Z.eqb_sym 1), (Z.eqb_sym 2), (Z.eqb_sym 3), H1, H2, H3.
    cbn [negb map existsb choiceCommittee Z.eqb Pos.eqb].
    destruct (Z.eqb_spec (choice1committee values) committeeId) as [E1 | E1];
      destruct (Z.eqb_spec (choice2committee values) committeeId) as [E2 | E2];
      destruct (Z.eqb_spec (choice3committee values) committeeId) as [E3 | E3];
      cbn [Bool.eqb orb];
      (split;
       [ intros H; try discriminate H;
         first [ now (exists choice1) | now (exists choice2) | now (exists choice3) ]
       | intros [t Ht]; try reflexivity;
         destruct t; cbn [slotCommittee] in Ht; congruence ]).
Qed.

Lemma checkShouldBeDisabled_iff_other_slot_witness :
  exists t, t <> choice2 /\ slotCommittee t (sampleBody 2 "US" (-1) "" 1 "CZ") = 1.
Proof.
  apply (proj1 (proj1 (checkShouldBeDisabled_iff_other_slot
                         (sampleBody 2 "US" (-1) "" 1 "CZ") 1) choice2)).
  reflexivity.
Defined.

Lemma slotCommittee_setCommittee (s t : Slot) (v : Z) (values : DelegateApplyT) :
  slotCommittee t (setCommittee s v values) =
    if slot_neq_cases s t then v else slotCommittee t values.
Proof.
  destruct (slot_neq_cases s t) as [<- | Hne].
  - destruct s; reflexivity.
  - destruct s, t; try reflexivity; now elim Hne.
Qed.

Lemma enabled_not_in_other_slot (values : DelegateApplyT) (c : Z) (s t : Slot) :
  checkShouldBeDisabled values c (slotId s) = false ->
  t <> s -> slotCommittee t values <> c.
Proof.
  unfold checkShouldBeDisabled.
  destruct s, t; intros H Hne; try (now elim Hne);
    cbn [slotId filter negb Z.eqb Pos.eqb map existsb choiceCommittee slotCommittee] in *;
    intros E; apply Z.eqb_eq in E; rewrite E in H;
    cbn [Bool.eqb orb] in H; rewrite ?orb_true_r in H; discriminate.
Qed.

(** X11. The selects keep the three choices apart.  A fresh form has no
    two slots with the same chosen committee, and this survives every
    change a committee select can make: clearing it, or picking one of
    its options that is not disabled. *)
Theorem committee_selects_keep_choices_distinct (committees : list Committee) :
  (forall user, distinctWhenChosen (initialValues user))
  /\ (forall values s picked,
        distinctWhenChosen values ->
        (forall o, picked = Some o ->
                   In o (committeeOptions committees values (slotId s))
                   /\ isDisabled o = false) ->
        distinctWhenChosen (onCommitteeChange s picked values)).
Proof.
  split.
  - intros user s t _ _. destruct s; reflexivity.
  - intros values s picked Hinv Hpick a b Hab.
    unfold onCommitteeChange. rewrite !slotCommittee_setCommittee.
    destruct (slot_neq_cases s a) as [<- | Hsa], (slot_neq_cases s b) as [<- | Hsb].
    + now elim Hab.
    + destruct picked as [o|]; [|reflexivity].
      destruct (Hpick o eq_refl) as [Hin Hen].
      apply in_map_iff in Hin as [c [<- _]]. cbn [value isDisabled] in *.
      intros E. exfalso.
      apply (enabled_not_in_other_slot values (id c) s b Hen);
        [congruence | now symmetry].
    + destruct picked as [o|]; [|now intros ->].
      destruct (Hpick o eq_refl) as [Hin Hen].
      apply in_map_iff in Hin as [c [<- _]]. cbn [value isDisabled] in *.
      intros E. exfalso.
      apply (enabled_not_in_other_slot values (id c) s a Hen); congruence.
    + now apply Hinv.
Qed.

(** X11 at work: with committee 2 in the first slot, picking committee 1
    in the second keeps the choices apart. *)
Lemma committee_selects_keep_choices_distinct_witness :
  distinctWhenChosen
    (onCommitteeChange choice2
       (Some (mkCommitteeChoice "Security Council" 1 false))
       (setCommittee choice1 2 (initialValues (Some 7)))).
Proof.
  refine (proj2 (committee_selects_keep_choices_distinct sampleCommittees)
            (setCommittee choice1 2 (initialValues (Some 7))) choice2
            (Some (mkCommitteeChoice "Security Council" 1 false)) _ _).
  - intros s t Hne. destruct s, t; cbn; (now elim Hne) || lia.
  - intros o H. injection H as <-. split; [|reflexivity]. cbn. tauto.
Defined.

Lemma issuesAt_country (params : RefineParams) (d : DelegateApplyT) (s : Slot) :
  issuesAt [countryPath s] (addedIssues params d) =
    countryCheck (reference params) s (slotCommittee s d) (slotCountry s d).
Proof.
  rewrite addedIssues_report. cbv zeta. unfold committeeCheck, countryCheck.
  destruct s; cbn [slotCommittee slotCountry];
    repeat match goal with
           | |- context [committeeExists ?r ?n] => destruct (committeeExists r n)
           | |- context [pairExists ?r ?n ?c] => destruct (pairExists r n c)
           end; reflexivity.
Qed.

Lemma path_eqb_refl (p : list string) : path_eqb p p = true.
Proof.
  induction p as [|a p IH]; cbn [path_eqb]; [reflexivity|].
  now rewrite String.eqb_refl, IH.
Qed.

Lemma ZodNumber_value (m : IssueMessage) (checks : list (Check Z)) (p : list string)
  (n : Z) :
  valueOf (fst (ZodNumber m checks p (VNumber n))) = Some n.
Proof. apply runChecks_value. Qed.

Lemma ZodString_value (checks : list (Check string)) (p : list string) (t : string) :
  valueOf (fst (ZodString checks p (VString t))) = Some t.
Proof. apply runChecks_value. Qed.

(** The state of the form, handed to the schema as it is: whatever body
    the parse carries has the committees and countries of the state. *)
Lemma DelegateApply_data_value (values b : DelegateApplyT) (s : Slot) :
  valueOf (fst (DelegateApply [] (DelegateApply_data values))) = Some b ->
  slotCommittee s b = slotCommittee s values
  /\ slotCountry s b = slotCountry s values.
Proof.
  unfold DelegateApply_data, DelegateApply, ZodObject, DelegateApply_shape.
  rewrite !ap_value. unfold key, committeeChoice, countryChoice.
  change (getProp "userId" _) with (VNumber (userId values)).
  change (getProp "motivation" _) with (VString (motivation values)).
  change (getProp "experience" _) with (VString (experience values)).
  change (getProp "delegationId" _) with (nullOr VNumber (delegationId values)).
  change (getProp "choice1committee" _) with (VNumber (choice1committee values)).
  change (getProp "choice1country" _) with (VString (choice1country values)).
  change (getProp "choice2committee" _) with (VNumber (choice2committee values)).
  change (getProp "choice2country" _) with (VString (choice2country values)).
  change (getProp "choice3committee" _) with (VNumber (choice3committee values)).
  change (getProp "choice3country" _) with (VString (choice3country values)).
  change (getProp "shirtSize" _) with (nullOr VString (shirtSize values)).
  rewrite !ZodNumber_value, !ZodString_value. cbn [pure fst valueOf option_map].
  destruct (valueOf (fst (preprocess _ _ _ _))); cbn [option_map]; [|discriminate].
  destruct (valueOf (fst (ZodNullable _ _ _))); cbn [option_map]; [|discriminate].
  intros H. injection H as <-. destruct s; split; reflexivity.
Qed.

(** A country of 2 characters or more draws nothing from the shape on
    its own key. *)
Lemma shape_silent_on_country (o : list (string * JsValue)) (s : Slot) (c : string)
  (i : ZodIssue) :
  getProp (countryPath s) o = VString c ->
  (2 <= String.length c)%nat ->
  In i (snd (DelegateApply_shape [] o)) ->
  path i <> [countryPath s].
Proof.
  intros Hc Hlen Hin.
  assert (Kc : snd (key [] o (countryPath s) countryChoice) = []).
  { unfold key, countryChoice. rewrite Hc.
    now rewrite (min_string_pass _ _ _ _ Hlen). }
  rewrite DelegateApply_shape_issues in Hin.
  destruct s; cbn [countryPath] in Kc |- *; rewrite Kc in Hin;
    repeat (apply in_app_or in Hin as [Hin | Hin]);
    match type of Hin with
    | In i [] => destruct Hin
    | In i (snd (key [] o ?k ?schema)) =>
        assert (Hp : path i = [k])
          by (apply (key_paths o k schema i);
              [ unfold committeeChoice, countryChoice; auto with paths
              | exact Hin ]);
        rewrite Hp; discriminate
    end.
Qed.

(** X12. The countries a country select offers are the countries of the
    rows of the slot's committee: exactly the options the reference check
    lists when it refuses a country, and exactly the countries it lets
    pass.  A country picked from the select therefore passes the
    reference check of its slot; if it has 2 characters or more, the
    report of the form holds no issue at all on the slot's country key,
    whatever else is wrong with the form; an offered country of fewer
    characters is refused by the shape with "Please choose a country". *)
Theorem country_select_offers_valid_countries (committees : list Committee)
  (countries : list CommitteeCountries) (values : DelegateApplyT) (s : Slot) :
  options (invalidCombination countries (slotCommittee s values) (countryPath s)) =
    Some (map VString (map snd (countryOptions countries values s)))
  /\ (forall c,
        In c (map snd (countryOptions countries values s)) <->
        pairExists (mkReference committees countries) (slotCommittee s values) c = true)
  /\ (In (slotCountry s values) (map snd (countryOptions countries values s)) ->
      issuesAt [countryPath s]
        (addedIssues (Fetched (mkReference committees countries)) values) = [])
  /\ (In (slotCountry s values) (map snd (countryOptions countries values s)) ->
      (2 <= String.length (slotCountry s values))%nat ->
      forall e i,
        form_results committees countries (DelegateApply_data values) =
          Resolve (Failure e) ->
        In i e -> path i <> [countryPath s])
  /\ ((String.length (slotCountry s values) < 2)%nat ->
      exists e,
        form_results committees countries (DelegateApply_data values) =
          Resolve (Failure e)
        /\ In (mkIssue too_small [countryPath s] (Msg "Please choose a country") None) e).
Proof.
  assert (Hiff : forall c,
             In c (map snd (countryOptions countries values s)) <->
             pairExists (mkReference committees countries) (slotCommittee s values) c
             = true).
  { intros c. unfold countryOptions, pairExists. cbn [committeeCountries].
    rewrite map_map. cbn [snd]. rewrite in_map_iff, existsb_exists. split.
    - intros [row [<- Hin]]. apply filter_In in Hin as [Hin Hc].
      exists row. split; [exact Hin|]. now rewrite Hc, String.eqb_refl.
    - intros [row [Hin Hb]]. apply andb_prop in Hb as [Hc Hk].
      apply String.eqb_eq in Hk. exists row. split; [exact Hk|].
      apply filter_In. now split. }
  assert (Hget : getProp (countryPath s)
                   (ownProps (DelegateApply_data values)) =
                 VString (slotCountry s values))
    by (destruct s; reflexivity).
  split; [|split; [exact Hiff|split; [|split]]].
  - unfold invalidCombination, countryOptions. cbn [options].
    now rewrite !map_map.
  - intros Hin. apply Hiff in Hin.
    rewrite issuesAt_country. unfold countryCheck. cbn [reference].
    rewrite Hin. now rewrite andb_false_r.
  - intros Hoffered Hlen e i Hres Hin Hpath.
    apply Hiff in Hoffered.
    unfold form_results in Hres.
    pose proof (DelegateApply_data_value values) as Hvalue.
    destruct (DelegateApply [] (DelegateApply_data values)) as [r iss] eqn:E.
    rewrite (safeParseAsync_refined_report _ _ _ _ E) in Hres.
    assert (Hshape : forall j, In j iss -> path j <> [countryPath s]).
    { intros j Hj. apply (shape_silent_on_country _ s _ j Hget Hlen).
      unfold DelegateApply_data in E. cbn [DelegateApply ZodObject ownProps] in E |- *.
      unfold DelegateApply_data. cbn [ownProps]. now rewrite E. }
    assert (Hadded : forall b j,
               valueOf r = Some b ->
               In j (addedIssues (Fetched (mkReference committees countries)) b) ->
               path j <> [countryPath s]).
    { intros b j Hb Hj Hpj.
      destruct (Hvalue b s Hb) as [Hcm Hco].
      pose proof (issuesAt_country (Fetched (mkReference committees countries)) b s)
        as Hat.
      unfold countryCheck in Hat. cbn [reference] in Hat.
      rewrite Hcm, Hco, Hoffered, andb_false_r in Hat.
      assert (Hf : In j (issuesAt [countryPath s]
                           (addedIssues (Fetched (mkReference committees countries)) b))).
      { apply filter_In. split; [exact Hj|]. rewrite Hpj. apply path_eqb_refl. }
      rewrite Hat in Hf. destruct Hf. }
    cbn [fst] in Hvalue.
    destruct r as [b | b |].
    + destruct (addedIssues _ b) as [|x l] eqn:Ea; [discriminate|].
      injection Hres as <-. apply in_app_or in Hin as [Hin | Hin].
      * exact (Hshape i Hin Hpath).
      * apply (Hadded b i eq_refl); [now rewrite Ea | exact Hpath].
    + injection Hres as <-. apply in_app_or in Hin as [Hin | Hin].
      * exact (Hshape i Hin Hpath).
      * exact (Hadded b i eq_refl Hin Hpath).
    + injection Hres as <-. exact (Hshape i Hin Hpath).
  - intros Hshort.
    assert (Kc : key [] (ownProps (DelegateApply_data values)) (countryPath s)
                   countryChoice =
                 (DIRTY (slotCountry s values),
                  [mkIssue too_small [countryPath s]
                     (Msg "Please choose a country") None])).
    { unfold key, countryChoice. rewrite Hget.
      cbn [ZodString runChecks test str_min].
      assert (El : (2 <=? String.length (slotCountry s values))%nat = false)
        by (apply Nat.leb_gt; exact Hshort).
      rewrite El. reflexivity. }
    assert (Hin : In (mkIssue too_small [countryPath s]
                        (Msg "Please choose a country") None)
                    (snd (DelegateApply_shape [] (ownProps (DelegateApply_data values))))).
    { rewrite DelegateApply_shape_issues.
      destruct s; cbn [countryPath] in Kc |- *; rewrite Kc;
        repeat (apply in_or_app; (left; now left) || right). }
    assert (Hnot : isValid (fst (DelegateApply_shape []
                                   (ownProps (DelegateApply_data values)))) = false).
    { destruct (isValid (fst (DelegateApply_shape [] _))) eqn:Ev; [|reflexivity].
      exfalso. revert Ev. unfold DelegateApply_shape. rewrite !ap_valid.
      intros Ev. repeat (apply andb_prop in Ev as [Ev ?]).
      destruct s; cbn [countryPath] in Kc;
        match goal with
        | H : isValid (fst (key [] _ ?k countryChoice)) = true |- _ =>
            rewrite Kc in H; discriminate H
        end. }
    unfold form_results.
    destruct (DelegateApply [] (DelegateApply_data values)) as [r iss] eqn:E.
    rewrite (safeParseAsync_refined_report _ _ _ _ E).
    unfold DelegateApply_data in E. cbn [DelegateApply ZodObject] in E.
    unfold DelegateApply_data in Hin, Hnot. cbn [ownProps] in Hin, Hnot.
    rewrite E in Hin, Hnot. cbn [fst snd] in Hin, Hnot.
    destruct r as [b | b |]; [discriminate | |].
    + eexists. split; [reflexivity|]. apply in_or_app. now left.
    + eexists. split; [reflexivity | exact Hin].
Qed.

(** X12 at work: with committee 2 selected, the select offers US and FR;
    the form with FR picked is refused over its second choice, and
    nothing in the report is on the country of the first. *)
Lemma country_select_offers_valid_countries_witness :
  path (committeeNotFound sampleCommittees "choice2committee") <> ["choice1country"].
Proof.
  refine (proj1 (proj2 (proj2 (proj2 (country_select_offers_valid_countries
            sampleCommittees sampleCountries (sampleBody 2 "FR" 5 "ZZ" 1 "CZ")
            choice1)))) _ _ [committeeNotFound sampleCommittees "choice2committee"]
            (committeeNotFound sampleCommittees "choice2committee") _ _).
  - cbn. tauto.
  - cbn. lia.
  - reflexivity.
  - now left.
Defined.

(** ** The validator, whatever the schemas *)

Lemma parsePart_grows (schema : option ZodTypeAny) (data : JsValue)
  (errors errors' : list ZodError) :
  parsePart schema data errors = Normal errors' ->
  errors' = errors \/ exists e, errors' = errors ++ [e].
Proof.
  unfold parsePart. destruct schema as [s|]; [|intros H; injection H as <-; now left].
  destruct (any_safeParse s data) as [[v | e]|]; cbn [bind]; intros H;
    try discriminate; injection H as <-; [now left | right; now exists e].
Qed.

(** X13. Whenever the validator returns it has done exactly one of two
    things: called [next] once and written nothing, or written a 422
    answer holding one or two error reports without calling [next].  In
    both cases the request is what it was.  Without a schema it always
    calls [next]. *)
Theorem validate_answers_or_forwards (options : ValidateOptions) (x x' : Exchange) :
  validate options x = Normal x' ->
  req x' = req x
  /\ ((nextCalls x' = S (nextCalls x) /\ res x' = res x)
      \/ (nextCalls x' = nextCalls x
          /\ exists errors,
               res x' = mkResponse 422 (Some (Response.mk 422 "Bad Request" errors))
               /\ (1 <= List.length errors <= 2)%nat))
  /\ (body options = None -> query options = None -> x' = next x).
Proof.
  unfold validate. intros H.
  destruct (parsePart (body options) (req_body (req x)) []) as [e1|] eqn:E1;
    [|discriminate].
  cbn [bind] in H.
  destruct (parsePart (query options) (req_query (req x)) e1) as [e2|] eqn:E2;
    [|discriminate].
  cbn [bind] in H.
  assert (Hlen : (List.length e2 <= 2)%nat).
  { apply parsePart_grows in E1, E2.
    destruct E1 as [-> | [a ->]], E2 as [-> | [b ->]];
      rewrite ?length_app; cbn; lia. }
  destruct (List.length e2) as [|n] eqn:El; cbn [Nat.eqb negb] in H;
    injection H as <-.
  - split; [reflexivity|]. split; [now left|]. reflexivity.
  - split; [reflexivity|]. split.
    + right. split; [reflexivity|]. exists e2. split; [reflexivity|]. lia.
    + intros Hb Hq. rewrite Hb in E1. rewrite Hq in E2.
      cbn [parsePart] in E1, E2. injection E1 as <-. injection E2 as <-.
      discriminate El.
Qed.

(** X13 at work on the route of the delegate application, with a body
    that is no object. *)
Lemma validate_answers_or_forwards_witness :
  req (status_json 422
         (badRequest [[mkIssue invalid_type [] DefaultMsg None]])
         (sampleExchange (VString "x") VUndefined)) =
  req (sampleExchange (VString "x") VUndefined).
Proof.
  apply (proj1 (validate_answers_or_forwards put_options
                  (sampleExchange (VString "x") VUndefined)
                  (status_json 422
                     (badRequest [[mkIssue invalid_type [] DefaultMsg None]])
                     (sampleExchange (VString "x") VUndefined))
                  eq_refl)).
Defined.

(** X14. The validator of the delegate-application route never throws.
    It calls [next] exactly for the well-shaped bodies; any other body is
    answered with 422 and a description of one report, the body's, which
    is never empty.  The tables play no part: a well-shaped body naming
    committees that do not exist is passed on. *)
Theorem put_validate_forwards_exactly_wellShaped (x : Exchange) :
  (put_validate x = Normal (next x) <->
   exists o submitted d, req_body (req x) = VObject o /\ wellShaped o submitted d)
  /\ (put_validate x = Normal (next x)
      \/ exists e, e <> [] /\ put_validate x = Normal (status_json 422 (badRequest [e]) x)).
Proof.
  unfold put_validate, validate, put_options. cbn [body query parsePart plainSchema
    any_safeParse bind].
  pose proof (DelegateApply_coherent [] (req_body (req x))) as Hco.
  unfold safeParse.
  destruct (DelegateApply [] (req_body (req x))) as [r iss] eqn:E.
  cbn [fst snd] in Hco.
  assert (Hrefused : forall o submitted d',
             req_body (req x) = VObject o -> wellShaped o submitted d' ->
             r = OK d').
  { intros o submitted d' Ho Hs. rewrite Ho in E.
    rewrite (wellShaped_parse _ _ _ Hs) in E. now injection E as <- _. }
  destruct r as [d | d |]; cbn [handleResult mapSafe app List.length Nat.eqb negb].
  - split; [|now left]. split; [|reflexivity].
    intros _. destruct (req_body (req x)) as [ | | | | | | o]; try discriminate.
    apply DelegateApply_OK_inv in E as [[submitted Hs] _].
    now exists o, submitted, d.
  - split.
    + split; [intros H; injection H as H; destruct x; cbn in H; lia|].
      intros (o & submitted & d' & Ho & Hs).
      discriminate (Hrefused o submitted d' Ho Hs).
    + right. exists iss. split; [|reflexivity].
      intros Hn. apply Hco in Hn. discriminate.
  - split.
    + split; [intros H; injection H as H; destruct x; cbn in H; lia|].
      intros (o & submitted & d' & Ho & Hs).
      discriminate (Hrefused o submitted d' Ho Hs).
    + right. exists iss. split; [|reflexivity].
      intros Hn. apply Hco in Hn. discriminate.
Qed.

(** X14 at work: committee 9 is in no table, the body is well shaped, the
    validator calls [next]. *)
Lemma put_validate_forwards_exactly_wellShaped_witness :
  put_validate (sampleExchange (VObject (sampleForm VNull 9 "US" 2 "FR" 1 "CZ"))
                  VUndefined) =
  Normal (next (sampleExchange (VObject (sampleForm VNull 9 "US" 2 "FR" 1 "CZ"))
                  VUndefined)).
Proof.
  apply (proj2 (proj1 (put_validate_forwards_exactly_wellShaped
                  (sampleExchange (VObject (sampleForm VNull 9 "US" 2 "FR" 1 "CZ"))
                     VUndefined)))).
  exists (sampleForm VNull 9 "US" 2 "FR" 1 "CZ"), None, (sampleBody 9 "US" 2 "FR" 1 "CZ").
  split; [reflexivity|].
  constructor; try reflexivity; try (cbn; lia).
  - intros s; destruct s; reflexivity.
  - intros s; destruct s; cbn; lia.
  - intros s; destruct s; reflexivity.
  - intros s; destruct s; cbn; lia.
  - intros size H. injection H as <-. cbn. tauto.
Defined.

(** ** The handlers of the application route *)

Lemma getProp_setProp (k k' : string) (v : JsValue) (props : list (string * JsValue)) :
  getProp k (setProp k' v props) =
    if (k' =? k)%string then v else getProp k props.
Proof.
  induction props as [|[f a] rest IH]; cbn [setProp getProp].
  - destruct (k' =? k)%string; reflexivity.
  - destruct (f =? k')%string eqn:Ef; cbn [getProp].
    + apply String.eqb_eq in Ef. subst f.
      destruct (k' =? k)%string; reflexivity.
    + destruct (f =? k)%string eqn:Ek; [|exact IH].
      destruct (k' =? k)%string eqn:Ekk; [|reflexivity].
      apply String.eqb_eq in Ek, Ekk. subst.
      now rewrite String.eqb_refl in Ef.
Qed.

Lemma newApplicationData_props (application : JsValue) (user : Z) (k : string) :
  getProp k (ownProps (newApplicationData application user)) =
    if ("paymentStatus" =? k)%string then VString "pending"
    else if ("userId" =? k)%string then VNumber user
    else getProp k (ownProps application).
Proof.
  unfold newApplicationData. cbn [ownProps]. now rewrite !getProp_setProp.
Qed.

Section HandlerProperties.

Variable DB : Type.
Variable findFirst : DB -> Z -> Completion (option JsValue).
Variable create : DB -> JsValue -> Completion (DB * JsValue).

(** X15. An application is created for the logged-in user and nobody
    else.  When the handler answers 201, the logged-in user had no
    application, and the record handed to [create] carries that user's id
    and the payment status "pending" whatever the body says of the two;
    every other key is the body's own, as submitted. *)
Theorem put_handler_creates_for_session_user (session : Session) (body : JsValue)
  (db db' : DB) (reply : Reply) :
  put_handler DB findFirst create session body db = Normal (db', reply) ->
  reply_status reply = 201 ->
  exists user row data,
    session = Populated user
    /\ findFirst db user = Normal None
    /\ create db data = Normal (db', row)
    /\ reply = mkReply 201 (DataDoc 201 row)
    /\ getProp "userId" (ownProps data) = VNumber user
    /\ getProp "paymentStatus" (ownProps data) = VString "pending"
    /\ (forall k, k <> "userId" -> k <> "paymentStatus" ->
                  getProp k (ownProps data) = getProp k (ownProps body)).
Proof.
  unfold put_handler. destruct session as [|user].
  { intros H. injection H as _ <-. discriminate. }
  destruct (findFirst db user) as [[existing|]|] eqn:Ef; cbn [bind];
    try discriminate.
  { intros H. injection H as _ <-. discriminate. }
  destruct (create db (newApplicationData body user)) as [[db1 row]|] eqn:Ec;
    cbn [bind fst snd]; [|discriminate].
  intros H _. injection H as <- <-.
  exists user, row, (newApplicationData body user).
  repeat split; try assumption; try apply newApplicationData_props.
  intros k Hu Hp. rewrite newApplicationData_props.
  destruct (String.eqb_spec "paymentStatus" k) as [<- | _]; [now elim Hp|].
  destruct (String.eqb_spec "userId" k) as [<- | _]; [now elim Hu|].
  reflexivity.
Qed.

(** What the handlers need of the table: a row created for a user who had
    none is the row [findFirst] then returns for that user, and the row
    [findFirst] returns for a user is still the one it returns once a row
    has been created for another user who had none. *)
Hypothesis created_is_found :
  forall db data db' row user,
    findFirst db user = Normal None ->
    create db data = Normal (db', row) ->
    getProp "userId" (ownProps data) = VNumber user ->
    findFirst db' user = Normal (Some row).

Hypothesis found_is_kept :
  forall db data db' row user other found,
    findFirst db user = Normal (Some found) ->
    findFirst db other = Normal None ->
    getProp "userId" (ownProps data) = VNumber other ->
    create db data = Normal (db', row) ->
    findFirst db' user = Normal (Some found).

(** A run of the handler keeps the row of every user who has one. *)
Lemma put_handler_keeps_found (session : Session) (body : JsValue) (db db' : DB)
  (reply : Reply) (user : Z) (found : JsValue) :
  findFirst db user = Normal (Some found) ->
  put_handler DB findFirst create session body db = Normal (db', reply) ->
  findFirst db' user = Normal (Some found).
Proof.
  intros Hfound. unfold put_handler. destruct session as [|other].
  { intros H. now injection H as <- _. }
  destruct (findFirst db other) as [[existing|]|] eqn:Ef; cbn [bind];
    try discriminate.
  { intros H. now injection H as <- _. }
  destruct (create db (newApplicationData body other)) as [[db1 row]|] eqn:Ec;
    cbn [bind fst snd]; [|discriminate].
  intros H. injection H as <- _.
  apply (found_is_kept db (newApplicationData body other) db1 row user other found
           Hfound Ef); [|exact Ec].
  rewrite newApplicationData_props. reflexivity.
Qed.

Lemma after_puts_keeps_found (db db' : DB) (user : Z) (found : JsValue) :
  findFirst db user = Normal (Some found) ->
  after_puts DB findFirst create db db' ->
  findFirst db' user = Normal (Some found).
Proof.
  intros Hfound Hafter.
  induction Hafter as [|db1 db2 session body reply _ IH Hput]; [exact Hfound|].
  exact (put_handler_keeps_found session body db1 db2 reply user found IH Hput).
Qed.

(** X16. One application per user: once the handler has answered 201 for
    a user, then after any further runs of the handler, for whatever users
    and bodies, every submission of that user is answered 403 and changes
    nothing, and the [GET] handler returns the created row with status
    200. *)
Theorem second_application_forbidden (user : Z) (body body2 : JsValue)
  (db db' db'' : DB) (row : JsValue) :
  put_handler DB findFirst create (Populated user) body db =
    Normal (db', mkReply 201 (DataDoc 201 row)) ->
  after_puts DB findFirst create db' db'' ->
  put_handler DB findFirst create (Populated user) body2 db'' =
    Normal (db'', mkReply 403
                    (ErrorDoc 403 "Forbidden"
                       "You have already submitted an application, there is only one allowed per user"))
  /\ get_handler DB findFirst user db'' = Normal (mkReply 200 (DataDoc 200 row)).
Proof.
  unfold put_handler at 1.
  destruct (findFirst db user) as [[existing|]|] eqn:Ef; cbn [bind];
    try discriminate.
  destruct (create db (newApplicationData body user)) as [[db1 row1]|] eqn:Ec;
    cbn [bind fst snd]; [|discriminate].
  intros H Hafter. injection H as <- <-.
  assert (Hfound : findFirst db1 user = Normal (Some row1)).
  { apply (created_is_found db (newApplicationData body user) db1 row1 user Ef Ec).
    rewrite newApplicationData_props. reflexivity. }
  apply (after_puts_keeps_found db1 db'' user row1 Hfound) in Hafter.
  unfold put_handler, get_handler. rewrite Hafter. split; reflexivity.
Qed.

End HandlerProperties.

Lemma list_created_is_found (db : list JsValue) (data : JsValue)
  (db' : list JsValue) (row : JsValue) (user : Z) :
  listFindFirst db user = Normal None ->
  listCreate db data = Normal (db', row) ->
  getProp "userId" (ownProps data) = VNumber user ->
  listFindFirst db' user = Normal (Some row).
Proof.
  unfold listFindFirst, listCreate. intros Hf Hc Hu.
  injection Hf as Hf. injection Hc as <- <-.
  rewrite find_app, Hf. cbn [find]. rewrite Hu, Z.eqb_refl. reflexivity.
Qed.

Lemma list_found_is_kept (db : list JsValue) (data : JsValue)
  (db' : list JsValue) (row : JsValue) (user other : Z) (found : JsValue) :
  listFindFirst db user = Normal (Some found) ->
  listFindFirst db other = Normal None ->
  getProp "userId" (ownProps data) = VNumber other ->
  listCreate db data = Normal (db', row) ->
  listFindFirst db' user = Normal (Some found).
Proof.
  unfold listFindFirst, listCreate. intros Hf _ _ Hc.
  injection Hf as Hf. injection Hc as <- _.
  now rewrite find_app, Hf.
Qed.

(** X15 at work on a table kept as a list: user 7 submits a body that
    claims user 99 and a paid status. *)
Lemma put_handler_creates_for_session_user_witness :
  exists user row data,
    Populated 7 = Populated user
    /\ listFindFirst [] user = Normal None
    /\ listCreate [] data =
       Normal ([VObject [("userId", VNumber 7); ("paymentStatus", VString "pending")]],
               row)
    /\ mkReply 201
         (DataDoc 201 (VObject [("userId", VNumber 7);
                                ("paymentStatus", VString "pending")])) =
       mkReply 201 (DataDoc 201 row)
    /\ getProp "userId" (ownProps data) = VNumber user
    /\ getProp "paymentStatus" (ownProps data) = VString "pending"
    /\ (forall k, k <> "userId" -> k <> "paymentStatus" ->
                  getProp k (ownProps data) =
                  getProp k (ownProps
                               (VObject [("userId", VNumber 99);
                                         ("paymentStatus", VString "paid")]))).
Proof.
  apply (put_handler_creates_for_session_user (list JsValue) listFindFirst listCreate
           (Populated 7)
           (VObject [("userId", VNumber 99); ("paymentStatus", VString "paid")])
           []
           [VObject [("userId", VNumber 7); ("paymentStatus", VString "pending")]]
           (mkReply 201
              (DataDoc 201 (VObject [("userId", VNumber 7);
                                     ("paymentStatus", VString "pending")]))));
    reflexivity.
Defined.

(** X16 at work on a table kept as a list: user 7 applies, then user 8,
    then user 7 again. *)
Lemma second_application_forbidden_witness :
  put_handler (list JsValue) listFindFirst listCreate (Populated 7)
    (VObject (sampleForm VNull 1 "CZ" 2 "US" 2 "FR"))
    [newApplicationData (VObject (sampleForm VNull 2 "US" 2 "FR" 1 "CZ")) 7;
     newApplicationData (VObject (sampleForm VNull 2 "FR" 1 "CZ" 2 "US")) 8] =
  Normal ([newApplicationData (VObject (sampleForm VNull 2 "US" 2 "FR" 1 "CZ")) 7;
           newApplicationData (VObject (sampleForm VNull 2 "FR" 1 "CZ" 2 "US")) 8],
          mkReply 403
            (ErrorDoc 403 "Forbidden"
               "You have already submitted an application, there is only one allowed per user"))
  /\ get_handler (list JsValue) listFindFirst 7
       [newApplicationData (VObject (sampleForm VNull 2 "US" 2 "FR" 1 "CZ")) 7;
        newApplicationData (VObject (sampleForm VNull 2 "FR" 1 "CZ" 2 "US")) 8] =
     Normal (mkReply 200
               (DataDoc 200
                  (newApplicationData (VObject (sampleForm VNull 2 "US" 2 "FR" 1 "CZ")) 7))).
Proof.
  apply (second_application_forbidden (list JsValue) listFindFirst listCreate
           list_created_is_found list_found_is_kept 7
           (VObject (sampleForm VNull 2 "US" 2 "FR" 1 "CZ"))
           (VObject (sampleForm VNull 1 "CZ" 2 "US" 2 "FR"))
           []
           [newApplicationData (VObject (sampleForm VNull 2 "US" 2 "FR" 1 "CZ")) 7]).
  - reflexivity.
  - apply (after_put (list JsValue) listFindFirst listCreate _ _ _
             (Populated 8) (VObject (sampleForm VNull 2 "FR" 1 "CZ" 2 "US"))
             (mkReply 201
                (DataDoc 201
                   (newApplicationData
                      (VObject (sampleForm VNull 2 "FR" 1 "CZ" 2 "US")) 8)))
             (after_none (list JsValue) listFindFirst listCreate _)).
    reflexivity.
Defined.

(** ** More of the signup schema *)

Section SignupReport.

Variable isEmail : string -> bool.
Variable isMobilePhone : string -> bool.
Variable isISO31661Alpha2 : string -> bool.
Variable nowISOString : string.
Variable newDate : string -> option Z.

Local Abbreviation Signup :=
  (SignupSchema isEmail isMobilePhone isISO31661Alpha2 nowISOString newDate).
Local Abbreviation Signup_shape :=
  (SignupSchema_shape isEmail isMobilePhone isISO31661Alpha2 nowISOString newDate).
Local Abbreviation Signup_phone := (SignupSchema_phone isMobilePhone).
Local Abbreviation Signup_birthdate := (SignupSchema_birthdate nowISOString newDate).
Local Abbreviation Signup_othersValid :=
  (othersValid isEmail isMobilePhone isISO31661Alpha2 nowISOString newDate).

(** The parse of the object when the fields other than the passwords are
    valid: only the length of the password can dirty it. *)
Lemma Signup_shape_with_valid_others (o : list (string * JsValue))
  (submittedPhone : option string) (d : SignupSchemaType) (pw confirm : string) :
  Signup_othersValid o submittedPhone d ->
  getProp "password" o = VString pw ->
  getProp "passwordConfirm" o = VString confirm ->
  let parsed :=
    mkSignup (email d) pw confirm (firstname d) (lastname d) (phone d)
      (birthdate d) (nationality d) (schoolname d) (dietary d) (otherInfo d) in
  Signup_shape [] o =
    if (8 <=? String.length pw)%nat then (OK parsed, [])
    else (DIRTY parsed, [passwordTooShort]).
Proof.
  intros [He Hef Hf Hfl Hl Hll Hp Hpf Hpv Hb Hn Hnc Hs Hd Hde Ho Hol] Hpw Hc.
  assert (Hbirth : Signup_birthdate ([] ++ ["birthdate"]) (getProp "birthdate" o) =
                   (OK (birthdate d), [])).
  { destruct Hb as [[-> ->] | [[s [-> ->]] | [t [-> ->]]]]; reflexivity. }
  cbv zeta. unfold SignupSchema_shape, key.
  rewrite Hbirth, He, Hpw, Hc, Hf, Hl, Hp, Hn, Hs, Hd, Ho.
  rewrite (min_string_pass _ _ _ _ Hfl), (min_string_pass _ _ _ _ Hll).
  rewrite (phone_pass isMobilePhone _ _ Hpf), <- Hpv.
  unfold DietaryOptions. rewrite (nullable_enum_pass _ _ _ Hde).
  rewrite (nullable_string_pass [] _ (schoolname d)) by reflexivity.
  rewrite (nullable_string_pass [str_max 400 DefaultMsg] _ (otherInfo d)).
  2:{ intros s E. cbn [forallb test str_max].
      pose proof (Hol s E) as Hle. apply Nat.leb_le in Hle. rewrite Hle. reflexivity. }
  unfold refine. cbn [ZodString].
  rewrite (runChecks_pass [str_email isEmail])
    by (cbn [forallb test str_email]; now rewrite Hef).
  cbn [runChecks test str_min]. rewrite Hnc.
  destruct (8 <=? String.length pw)%nat; reflexivity.
Qed.

(** X17. With the other fields valid, the report of a signup is made of
    at most two issues, in this order: the 8-character error on
    [password] when the password is shorter, and the mismatch on
    [passwordConfirm] when the two passwords differ; both are reported
    together, and the signup is accepted exactly when neither arises. *)
Theorem signup_report_with_valid_others (o : list (string * JsValue))
  (submittedPhone : option string) (d : SignupSchemaType) (pw confirm : string) :
  Signup_othersValid o submittedPhone d ->
  getProp "password" o = VString pw ->
  getProp "passwordConfirm" o = VString confirm ->
  safeParse Signup (VObject o) =
    match (if (8 <=? String.length pw)%nat then [] else [passwordTooShort]) ++
          (if (pw =? confirm)%string then [] else [passwordsDoNotMatch])
    with
    | [] =>
        Success
          (mkSignup (email d) pw confirm (firstname d) (lastname d) (phone d)
             (birthdate d) (nationality d) (schoolname d) (dietary d) (otherInfo d))
    | report => Failure report
    end.
Proof.
  intros Hothers Hpw Hc.
  unfold safeParse, SignupSchema, superRefine, ZodObject.
  rewrite (Signup_shape_with_valid_others o submittedPhone d pw confirm Hothers Hpw Hc).
  cbv zeta.
  destruct (8 <=? String.length pw)%nat; cbn [refined];
    unfold SignupSchema_refinement; cbn [password passwordConfirm];
    destruct (pw =? confirm)%string; reflexivity.
Qed.






Lemma Signup_refinement_paths (a : SignupSchemaType) (i : ZodIssue) :
  In i (ctx_issues (SignupSchema_refinement a (mkCtx [] []))) ->
  path i = ["passwordConfirm"].
Proof.
  unfold SignupSchema_refinement.
  destruct (negb (password a =? passwordConfirm a)%string); cbn; [|tauto].
  intros [<- | []]. reflexivity.
Qed.

(** X19. The birthdate of a signup: a missing one becomes the date of the
    clock; a string is never refused, it becomes whatever date the string
    denotes, an invalid date included; a [Date] passes when it is valid;
    an invalid [Date] and every other value are refused with one
    [invalid_union] issue.  So no signup is ever refused over a missing
    or a string birthdate: whatever the other fields, the report holds
    nothing on [birthdate]. *)
Theorem signup_birthdate_cases :
  (forall p v,
     Signup_birthdate p v =
       match v with
       | VUndefined => (OK (newDate nowISOString), [])
       | VString s => (OK (newDate s), [])
       | VDate (Some t) => (OK (Some t), [])
       | _ => (INVALID, [mkIssue invalid_union p DefaultMsg None])
       end)
  /\ (forall o e i,
        (getProp "birthdate" o = VUndefined
         \/ exists s, getProp "birthdate" o = VString s) ->
        safeParse Signup (VObject o) = Failure e ->
        In i e -> path i <> ["birthdate"]).
Proof.
  split.
  { intros p v. destruct v as [ | | b | n | s | [t|] | ps ]; reflexivity. }
  intros o e i Hb Hfail Hin.
  assert (Kb : snd (key [] o "birthdate" Signup_birthdate) = []).
  { unfold key. destruct Hb as [-> | [s ->]]; reflexivity. }
  pose proof (Signup_shape_issues isEmail isMobilePhone isISO31661Alpha2
                nowISOString newDate o) as Hiss.
  rewrite Kb in Hiss.
  unfold safeParse, SignupSchema, superRefine, ZodObject in Hfail.
  destruct (Signup_shape [] o) as [r iss]. cbn [snd] in Hiss.
  assert (Hshape : forall j, In j iss -> path j <> ["birthdate"]).
  { intros j Hj. rewrite Hiss in Hj.
    repeat (apply in_app_or in Hj as [Hj | Hj]);
      match type of Hj with
      | In j [] => destruct Hj
      | In j (snd (key [] o ?k ?schema)) =>
          assert (Hp : path j = [k])
            by (apply (key_paths o k schema j);
                [ unfold DietaryOptions;
                  auto using Signup_phone_paths with paths
                | exact Hj ]);
          rewrite Hp; discriminate
      end. }
  destruct r as [a | a |]; cbn [refined] in Hfail.
  - destruct (ctx_issues (SignupSchema_refinement a (mkCtx [] []))) as [|x l] eqn:Ea;
      [discriminate|].
    injection Hfail as <-. apply in_app_or in Hin as [Hin | Hin]; [now apply Hshape|].
    rewrite <- Ea in Hin. apply Signup_refinement_paths in Hin.
    rewrite Hin. discriminate.
  - destruct (ctx_issues (SignupSchema_refinement a (mkCtx [] []))) as [|x l] eqn:Ea;
      injection Hfail as <-; [now apply Hshape|].
    apply in_app_or in Hin as [Hin | Hin]; [now apply Hshape|].
    rewrite <- Ea in Hin. apply Signup_refinement_paths in Hin.
    rewrite Hin. discriminate.
  - injection Hfail as <-. now apply Hshape.
Qed.

(** X20. The phone of a signup is required but may be empty: [null] and
    the empty string give [null] without consulting the phone check; any
    other string is kept as it is and passes exactly when it is a mobile
    number, the refusal being one "Invalid phone number" issue; a missing
    phone, like a value of any other type, is an [invalid_type] error. *)
Theorem signup_phone_cases (p : list string) (v : JsValue) :
  Signup_phone p v =
    match v with
    | VNull => (OK None, [])
    | VString s =>
        if (s =? "")%string then (OK None, [])
        else if isMobilePhone s then (OK (Some s), [])
        else (DIRTY (Some s), [mkIssue custom p (Msg "Invalid phone number") None])
    | _ => (INVALID, [mkIssue invalid_type p DefaultMsg None])
    end.
Proof.
  destruct v; try reflexivity.
  unfold SignupSchema_phone, transform, refine, phoneCheck, phoneOrNull, truthy.
  cbn [ZodNullable ZodString runChecks mapReturn].
  destruct (s =? "")%string eqn:E; cbn; rewrite ?E; cbn; [reflexivity|].
  destruct (isMobilePhone s); cbn; rewrite ?E; reflexivity.
Qed.

End SignupReport.

(** X17 at work: a short password and a different confirmation; both
    issues are reported. *)
Lemma signup_report_with_valid_others_witness :
  safeParse
    (SignupSchema sampleIsEmail sampleIsMobilePhone sampleIsCountry
       "2022-10-01T00:00:00.000Z" sampleNewDate)
    (VObject (sampleSignup "abc" "abd" (VString "+420601123456"))) =
  Failure [passwordTooShort; passwordsDoNotMatch].
Proof.
  apply (signup_report_with_valid_others sampleIsEmail sampleIsMobilePhone
           sampleIsCountry "2022-10-01T00:00:00.000Z" sampleNewDate
           (sampleSignup "abc" "abd" (VString "+420601123456"))
           (Some "+420601123456")
           (mkSignup "ada@example.org" "" "" "Ada" "Lovelace" (Some "+420601123456")
              (Some 1109635200000) "CZ" None (Some "Vegan") None)
           "abc" "abd");
    try reflexivity.
  constructor; try reflexivity; try (cbn; lia).
  - right. left. exists "2005-03-01T00:00:00.000Z". split; reflexivity.
  - intros s E. injection E as <-. cbn. tauto.
  - discriminate.
Defined.


(** X19 at work: a birthdate that is no date at all; the signup fails on
    its short password only. *)
Lemma signup_birthdate_cases_witness :
  path passwordTooShort <> ["birthdate"].
Proof.
  apply (proj2 (signup_birthdate_cases sampleIsEmail sampleIsMobilePhone
                  sampleIsCountry "2022-10-01T00:00:00.000Z" sampleNewDate)
           [ ("email", VString "ada@example.org");
             ("password", VString "abc");
             ("passwordConfirm", VString "abc");
             ("firstname", VString "Ada");
             ("lastname", VString "Lovelace");
             ("phone", VNull);
             ("birthdate", VString "yesterday");
             ("nationality", VString "CZ");
             ("schoolname", VNull);
             ("dietary", VNull);
             ("otherInfo", VNull) ]
           [passwordTooShort] passwordTooShort).
  - right. now exists "yesterday".
  - reflexivity.
  - now left.
Defined.

(** ** Login and delegation *)

Section OtherSchemaProperties.

Variable isEmail : string -> bool.
Variable isISO31661Alpha2 : string -> bool.

Lemma refine_OK_inv {A : Type} (inner : ZodType A) (check : A -> bool)
  (m : IssueMessage) (p : list string) (v : JsValue) (a : A) (iss : list ZodIssue) :
  refine inner check m p v = (OK a, iss) ->
  inner p v = (OK a, iss) /\ check a = true.
Proof.
  unfold refine. destruct (inner p v) as [[b | b |] i]; try discriminate;
    destruct (check b) eqn:E; try discriminate.
  intros H. injection H as <- <-. auto.
Qed.

(** X21. The login schema accepts exactly the objects with an e-mail
    string in e-mail format and a password string; the password is not
    constrained, the empty string passes. *)
Theorem login_accepts_any_password (v : JsValue) (d : Login.LoginT) :
  safeParse (LoginSchema isEmail) v = Success d <->
  exists o,
    v = VObject o
    /\ getProp "email" o = VString (Login.email d)
    /\ isEmail (Login.email d) = true
    /\ getProp "password" o = VString (Login.password d).
Proof.
  split.
  - intros H. apply safeParse_Success in H as [iss H].
    destruct v; try discriminate. cbn [LoginSchema ZodObject] in H.
    unfold LoginSchema_shape in H.
    repeat (apply ap_OK_pairs in H as (? & ? & ? & ? & H & ? & ? & ?)).
    injection H as <- <-. subst. unfold key in *.
    repeat match goal with
           | H : ZodString _ _ _ = (OK _, _) |- _ =>
               apply ZodString_OK_inv in H as (? & ? & ?)
           end.
    exists props. cbn [Login.email Login.password].
    repeat split; try assumption.
    match goal with
    | H : forallb _ [_] = true |- _ =>
        cbn [forallb test str_email] in H; now rewrite andb_true_r in H
    end.
  - intros (o & -> & He & Hf & Hp).
    unfold safeParse. cbn [LoginSchema ZodObject]. unfold LoginSchema_shape, key.
    rewrite He, Hp. cbn [ZodString].
    rewrite (runChecks_pass [str_email isEmail])
      by (cbn [forallb test str_email]; now rewrite Hf).
    destruct d; reflexivity.
Qed.

Lemma length_two_checks (s : string) :
  forallb (fun c => test c s) (str_length 2 (Msg "Please enter a valid country code"))
  = true <-> String.length s = 2%nat.
Proof.
  cbn [str_length forallb test str_max str_min]. rewrite andb_true_r, andb_true_iff.
  rewrite !Nat.leb_le. lia.
Qed.

(** X22. The delegation schema accepts exactly the objects with a number
    as leader id, a name of 10 to 100 characters, a country of exactly 2
    characters that is an ISO code, at least 1 estimated delegate and a
    number or [null] as delegates.  A country of another length that is
    no ISO code either is refused with both complaints, the length first. *)
Theorem delegation_accepts_exactly (v : JsValue) (d : Delegation.DelegationApplyT) :
  (safeParse (DelegationApply isISO31661Alpha2) v = Success d <->
   exists o,
     v = VObject o
     /\ getProp "delegationLeaderId" o = VNumber (Delegation.delegationLeaderId d)
     /\ getProp "name" o = VString (Delegation.name d)
     /\ (10 <= String.length (Delegation.name d) <= 100)%nat
     /\ getProp "country" o = VString (Delegation.country d)
     /\ String.length (Delegation.country d) = 2%nat
     /\ isISO31661Alpha2 (Delegation.country d) = true
     /\ getProp "estimatedDelegates" o = VNumber (Delegation.estimatedDelegates d)
     /\ 1 <= Delegation.estimatedDelegates d
     /\ getProp "delegates" o = nullOr VNumber (Delegation.delegates d))
  /\ (forall o c,
        getProp "country" o = VString c ->
        String.length c <> 2%nat ->
        isISO31661Alpha2 c = false ->
        snd (key [] o "country"
               (refine
                  (ZodString (str_length 2 (Msg "Please enter a valid country code")))
                  isISO31661Alpha2 (Msg "You must pick a valid country"))) =
          [ mkIssue (if (2 <? String.length c)%nat then too_big else too_small)
              ["country"] (Msg "Please enter a valid country code") None;
            mkIssue custom ["country"] (Msg "You must pick a valid country") None ]).
Proof.
  split; [split|].
  - intros H. apply safeParse_Success in H as [iss H].
    destruct v; try discriminate. cbn [DelegationApply ZodObject] in H.
    unfold DelegationApply_shape in H.
    repeat (apply ap_OK_pairs in H as (? & ? & ? & ? & H & ? & ? & ?)).
    injection H as <- <-. subst. unfold key in *.
    repeat match goal with
           | H : ZodString [str_max _ _; str_min _ _] _ _ = (OK _, _) |- _ =>
               apply bounded_string_OK_inv in H as (? & ? & ?)
           | H : ZodNumber _ _ _ _ = (OK _, _) |- _ =>
               apply ZodNumber_OK_inv in H as (? & ? & ?)
           | H : ZodNullable (ZodNumber _ _) _ _ = (OK _, _) |- _ =>
               apply ZodNullable_OK_inv in H
           | H : refine _ _ _ _ _ = (OK _, _) |- _ =>
               apply refine_OK_inv in H as (Es & Ei);
               apply ZodString_OK_inv in Es as (Hc & Hl & _);
               apply length_two_checks in Hl
           end.
    exists props. cbn [Delegation.delegationLeaderId Delegation.name
      Delegation.country Delegation.estimatedDelegates Delegation.delegates].
    repeat split; try assumption; try lia.
    + match goal with
      | H : forallb _ [num_min 1 _] = true |- _ =>
          cbn [forallb test num_min] in H; rewrite andb_true_r in H;
          now apply Z.leb_le
      end.
    + match goal with
      | H : _ \/ _ |- _ =>
          destruct H as [(Hv & -> & _) | (_ & n & -> & Hn)];
          [exact Hv | now apply ZodNumber_OK_inv in Hn as (-> & _ & _)]
      end.
  - intros (o & -> & Hl & Hn & Hnl & Hc & Hcl & Hci & He & Hel & Hd).
    unfold safeParse. cbn [DelegationApply ZodObject].
    unfold DelegationApply_shape, key, refine.
    rewrite Hl, Hn, Hc, He, Hd.
    rewrite (bounded_string_pass _ _ _ _ _ _ Hnl).
    cbn [ZodString ZodNumber].
    rewrite (runChecks_pass (str_length 2 _)) by now apply length_two_checks.
    rewrite (runChecks_pass [num_min 1 _])
      by (cbn [forallb test num_min]; apply Z.leb_le in Hel; now rewrite Hel).
    rewrite Hci.
    destruct d as [l n c e [x|]]; reflexivity.
  - intros o c Hc Hlen Hiso. unfold key, refine. rewrite Hc.
    cbn [ZodString str_length runChecks test str_max str_min check_code check_message].
    destruct (Nat.lt_ge_cases 2 (String.length c)) as [Hgt | Hle].
    + assert (E1 : (String.length c <=? 2)%nat = false) by (apply Nat.leb_gt; lia).
      assert (E2 : (2 <=? String.length c)%nat = true) by (apply Nat.leb_le; lia).
      assert (E3 : (2 <? String.length c)%nat = true) by (apply Nat.ltb_lt; lia).
      rewrite E1, E2, E3. cbn [dirty]. rewrite Hiso. reflexivity.
    + assert (E1 : (String.length c <=? 2)%nat = true) by (apply Nat.leb_le; lia).
      assert (E2 : (2 <=? String.length c)%nat = false) by (apply Nat.leb_gt; lia).
      assert (E3 : (2 <? String.length c)%nat = false) by (apply Nat.ltb_ge; lia).
      rewrite E1, E2, E3. cbn [dirty]. rewrite Hiso. reflexivity.
Qed.

End OtherSchemaProperties.

(** X21 at work: an empty password. *)
Lemma login_accepts_any_password_witness :
  safeParse (LoginSchema sampleIsEmail)
    (VObject [("email", VString "ada@example.org"); ("password", VString "")]) =
  Success (Login.mk "ada@example.org" "").
Proof.
  apply (proj2 (login_accepts_any_password sampleIsEmail
                  (VObject [("email", VString "ada@example.org");
                            ("password", VString "")])
                  (Login.mk "ada@example.org" ""))).
  exists [("email", VString "ada@example.org"); ("password", VString "")].
  repeat split.
Defined.

(** X22 at work: "Czechia" is too long and no code. *)
Lemma delegation_accepts_exactly_witness :
  snd (key [] [("country", VString "Czechia")] "country"
         (refine (ZodString (str_length 2 (Msg "Please enter a valid country code")))
            sampleIsCountry (Msg "You must pick a valid country"))) =
    [ mkIssue too_big ["country"] (Msg "Please enter a valid country code") None;
      mkIssue custom ["country"] (Msg "You must pick a valid country") None ].
Proof.
  apply (proj2 (delegation_accepts_exactly sampleIsCountry VNull
                  (Delegation.mk 0 "" "" 0 None))
           [("country", VString "Czechia")] "Czechia").
  - reflexivity.
  - cbn. lia.
  - reflexivity.
Defined.

(** ** Shape errors and reference errors together *)

Lemma ap_aborted_r {A B : Type} (pf : Parse (A -> B)) (pa : Parse A) :
  fst pa = INVALID -> fst (ap pf pa) = INVALID.
Proof. destruct pf as [[f | f |] ?], pa as [[a | a |] ?]; cbn; congruence. Qed.

Lemma ap_aborted_l {A B : Type} (pf : Parse (A -> B)) (pa : Parse A) :
  fst pf = INVALID -> fst (ap pf pa) = INVALID.
Proof. destruct pf as [[f | f |] ?], pa as [[a | a |] ?]; cbn; congruence. Qed.

Lemma DelegateApply_missing_key_aborts (o : list (string * JsValue)) (k : string) :
  In k DelegateApply_keys ->
  getProp k o = VUndefined ->
  fst (DelegateApply_shape [] o) = INVALID.
Proof.
  intros Hk Hu. unfold DelegateApply_shape.
  cbn [DelegateApply_keys In] in Hk.
  repeat (destruct Hk as [<- | Hk];
          [repeat first [ solve [apply ap_aborted_r; unfold key; rewrite Hu; reflexivity]
                        | apply ap_aborted_l ] |]).
  destruct Hk.
Qed.

(** X23. The reference check is withheld from a form with a missing key:
    the report of the form's validation is then the report of the shape
    alone, whatever committees and countries the form names. *)
Theorem missing_key_withholds_reference_check (committees : list Committee)
  (countries : list CommitteeCountries) (o : list (string * JsValue)) (k : string) :
  In k DelegateApply_keys ->
  getProp k o = VUndefined ->
  form_results committees countries (VObject o) =
    Resolve (Failure (snd (DelegateApply [] (VObject o)))).
Proof.
  intros Hk Hu.
  pose proof (DelegateApply_missing_key_aborts o k Hk Hu) as Hab.
  unfold form_results, safeParseAsync_refined. cbn [DelegateApply ZodObject].
  destruct (DelegateApply_shape [] o) as [r iss]. cbn [fst snd] in *. subst r.
  reflexivity.
Qed.

(** X23 at work: the form lacks its shirt size and names committee 9,
    which is in no table; only the missing key is reported. *)
Lemma missing_key_withholds_reference_check_witness :
  form_results sampleCommittees sampleCountries
    (VObject [ ("userId", VNumber 7);
               ("motivation", VString "I enjoy debating.");
               ("experience", VString "Two conferences.");
               ("delegationId", VNull);
               ("choice1committee", VNumber 9);
               ("choice1country", VString "CZ");
               ("choice2committee", VNumber 2);
               ("choice2country", VString "US");
               ("choice3committee", VNumber 2);
               ("choice3country", VString "FR") ]) =
  Resolve (Failure [mkIssue invalid_type ["shirtSize"] DefaultMsg None]).
Proof.
  refine (missing_key_withholds_reference_check sampleCommittees sampleCountries
            [ ("userId", VNumber 7);
              ("motivation", VString "I enjoy debating.");
              ("experience", VString "Two conferences.");
              ("delegationId", VNull);
              ("choice1committee", VNumber 9);
              ("choice1country", VString "CZ");
              ("choice2committee", VNumber 2);
              ("choice2country", VString "US");
              ("choice3committee", VNumber 2);
              ("choice3country", VString "FR") ]
            "shirtSize" _ _).
  - cbn. tauto.
  - reflexivity.
Defined.

Lemma normalized_not_minus_one (submitted : option Z) :
  normalizedDelegation (normalizedDelegation submitted) = normalizedDelegation submitted.
Proof.
  destruct submitted as [n|]; cbn [normalizedDelegation]; [|reflexivity].
  destruct (n =? -1) eqn:E; cbn [normalizedDelegation]; [reflexivity|].
  now rewrite E.
Qed.

Lemma wellShaped_data (o : list (string * JsValue)) (submitted : option Z)
  (d : DelegateApplyT) :
  wellShaped o submitted d ->
  match DelegateApply_data d with
  | VObject o' => wellShaped o' (delegationId d) d
  | _ => False
  end.
Proof.
  intros [Hu Hm Hml He Hel Hd Hn Hc Hcm Hk Hkl Hs Hse].
  cbn [DelegateApply_data].
  constructor; try reflexivity; try assumption.
  - rewrite Hn. symmetry. apply normalized_not_minus_one.
  - intros s; destruct s; reflexivity.
  - intros s; destruct s; reflexivity.
Qed.

(** X24. Normalizing is idempotent: the object an accepted application is
    turned into is itself accepted, and parses to the same body; with the
    reference check as without it. *)
Theorem accepted_data_parses_to_itself (committees : list Committee)
  (countries : list CommitteeCountries) (v : JsValue) (d : DelegateApplyT) :
  (safeParse DelegateApply v = Success d ->
   safeParse DelegateApply (DelegateApply_data d) = Success d)
  /\ (form_results committees countries v = Resolve (Success d) ->
      form_results committees countries (DelegateApply_data d) = Resolve (Success d)).
Proof.
  split.
  - intros H. apply safeParse_Success in H as [iss H].
    destruct v as [ | | | | | | o]; try discriminate.
    apply DelegateApply_OK_inv in H as [[submitted Hs] _].
    apply wellShaped_data in Hs. unfold DelegateApply_data in *.
    unfold safeParse. now rewrite (wellShaped_parse _ _ _ Hs).
  - unfold form_results. intros H.
    destruct (DelegateApply [] v) as [r iss] eqn:E.
    rewrite (safeParseAsync_refined_report _ _ _ _ E) in H.
    destruct r as [b | b |]; try discriminate.
    destruct (addedIssues _ b) eqn:Ha; [|discriminate].
    injection H as ->.
    destruct v; try discriminate.
    apply DelegateApply_OK_inv in E as [[submitted Hs] _].
    apply wellShaped_data in Hs. unfold DelegateApply_data in *.
    rewrite (safeParseAsync_refined_report _ _ _ _ (wellShaped_parse _ _ _ Hs)).
    now rewrite Ha.
Qed.

Lemma accepted_data_parses_to_itself_witness :
  safeParse DelegateApply (DelegateApply_data (sampleBody 2 "US" 2 "FR" 1 "CZ")) =
  Success (sampleBody 2 "US" 2 "FR" 1 "CZ").
Proof.
  apply (proj1 (accepted_data_parses_to_itself sampleCommittees sampleCountries
                  (VObject (sampleForm (VNumber (-1)) 2 "US" 2 "FR" 1 "CZ"))
                  (sampleBody 2 "US" 2 "FR" 1 "CZ"))).
  reflexivity.
Defined.

(** X25. Handed a schema whose refinement is asynchronous, the validator
    never passes a request on: whenever it returns it has answered 422,
    which it does when the shape parse aborted; in every other case,
    a body the asynchronous parse accepts included, it throws. *)
Theorem validate_never_forwards_async_schema {A : Type} (data : A -> JsValue)
  (schema : ZodType A) (refinement : A -> RefinementCtx -> Promise RefinementCtx)
  (querySchema : option ZodTypeAny) (flag : option bool) (x : Exchange) :
  let options :=
    mkOptions (Some (refinedSchema data schema refinement)) querySchema flag in
  (forall x', validate options x = Normal x' ->
              nextCalls x' = nextCalls x /\ res_statusCode (res x') = 422)
  /\ (fst (schema [] (req_body (req x))) <> INVALID -> validate options x = Throw).
Proof.
  cbv zeta. unfold validate. cbn [body query parsePart refinedSchema any_safeParse].
  unfold safeParse_refined.
  destruct (schema [] (req_body (req x))) as [[a | a |] iss]; cbn [bind fst mapSafe].
  - split; [discriminate | reflexivity].
  - split; [discriminate | reflexivity].
  - split; [|intros H; now elim H].
    intros x'.
    match goal with
    | |- context [parsePart querySchema ?d ?e] =>
        destruct (parsePart querySchema d e) as [errors|] eqn:E
    end; cbn [bind]; [|discriminate].
    apply parsePart_grows in E.
    assert (Hlen : List.length errors <> 0%nat)
      by (destruct E as [-> | [e ->]]; rewrite ?length_app; cbn; lia).
    apply Nat.eqb_neq in Hlen. rewrite Hlen. cbn [negb].
    intros H. injection H as <-. split; reflexivity.
Qed.

(** X25 at work: the delegate schema with its reference refinement and a
    form the page accepts. *)
Lemma validate_never_forwards_async_schema_witness :
  validate
    (mkOptions
       (Some (refinedSchema DelegateApply_data DelegateApply
                (refineDelegateApply (Fetched sampleReference))))
       None (Some true))
    (sampleExchange (VObject (sampleForm VNull 2 "US" 2 "FR" 1 "CZ")) VUndefined) =
  Throw.
Proof.
  apply (proj2 (validate_never_forwards_async_schema DelegateApply_data DelegateApply
                  (refineDelegateApply (Fetched sampleReference)) None (Some true)
                  (sampleExchange (VObject (sampleForm VNull 2 "US" 2 "FR" 1 "CZ"))
                     VUndefined))).
  discriminate.
Defined.
